(** * Shopify product uploader: a shallow embedding of [app.py]

    The development follows the source file top to bottom:
    - [PyStr]    : the [str] methods the program calls;
    - [Py]       : Python values as they travel to and from the Admin API
                   (JSON), truthiness, subscripting, exceptions;
    - [Base64]   : [base64.b64encode];
    - [Extractor]: [human_ts], [is_image], [parse_zip_models];
    - [Client]   : class [ShopifyClient], over an HTTP oracle with a request log;
    - [Batch]    : the module-level batch loop.

    Modelling conventions.
    - A Python [str] is the [string] of its UTF-8 code units.  [strip]
      removes every character [str.isspace] accepts; [isdigit] and [int]
      are computed on ASCII strings and left to a parameter, the
      [Interpreter], on the others.
    - [zf.read] and [col.image] may raise: the first is a field of the
      archive entry, the second a parameter of the preview.
    - A Python [dict] is an association list in insertion order (the order
      is observable: [dict.items()], JSON bodies, dict comprehensions).
    - [time.mktime] returns a float holding a whole number of seconds; keys
      are compared as integers of [Z], which agrees with float comparison
      on whole numbers below 2^53.
    - JSON numbers are integers. *)

From Stdlib Require Import List String Ascii ZArith Lia Bool Arith Permutation Sorted.
From Stdlib.Strings Require Import Byte.
From Stdlib Require Import NArith.
Import ListNotations.
Set Warnings "-register-all".
Local Open Scope string_scope.
Local Open Scope Z_scope.

(* ------------------------------------------------------------------ *)
(** ** [str] methods *)

Module PyStr.

Definition is_upper (c : ascii) : bool :=
  let n := nat_of_ascii c in (Nat.leb 65 n && Nat.leb n 90)%bool.

Definition lower_char (c : ascii) : ascii :=
  if is_upper c then ascii_of_nat (nat_of_ascii c + 32) else c.

(** [s.lower()], on the letters A..Z.  The program only compares the
    result with ASCII words (the collection aliases, the image
    suffixes).  Two characters outside ASCII lower to ASCII letters:
    U+212A to "k", which is in none of the words, and U+0130 to "i"
    followed by a combining dot, while the one "i" of the words (in
    ".gif") is followed by "f".  For these comparisons the characters
    outside ASCII need not be lowered. *)
Fixpoint lower (s : string) : string :=
  match s with
  | EmptyString => EmptyString
  | String c r => String (lower_char c) (lower r)
  end.

Fixpoint rev_acc (s acc : string) : string :=
  match s with
  | EmptyString => acc
  | String c r => rev_acc r (String c acc)
  end.

Definition rev (s : string) : string := rev_acc s EmptyString.

(** *** Whitespace, as [str.strip] sees it

    The characters [str.isspace] accepts are U+0009..U+000D,
    U+001C..U+0020, U+0085, U+00A0, U+1680, U+2000..U+200A, U+2028,
    U+2029, U+202F, U+205F and U+3000; in UTF-8 they take one, two or
    three code units. *)

Definition unit_is (c : ascii) (n : nat) : bool := Nat.eqb (nat_of_ascii c) n.

(** One unit: TAB..CR, FS..US and the space. *)
Definition is_space (c : ascii) : bool :=
  let n := nat_of_ascii c in
  ((Nat.leb 9 n && Nat.leb n 13) || (Nat.leb 28 n && Nat.leb n 32))%bool.

(** Two units: U+0085 (C2 85) and U+00A0 (C2 A0). *)
Definition is_space2 (c1 c2 : ascii) : bool :=
  (unit_is c1 194 && (unit_is c2 133 || unit_is c2 160))%bool.

(** Three units: U+1680 (E1 9A 80), U+2000..U+200A (E2 80 80..8A),
    U+2028, U+2029, U+202F (E2 80 A8, A9, AF), U+205F (E2 81 9F) and
    U+3000 (E3 80 80). *)
Definition is_space3 (c1 c2 c3 : ascii) : bool :=
  let n3 := nat_of_ascii c3 in
  ((unit_is c1 225 && unit_is c2 154 && unit_is c3 128)
   || (unit_is c1 226 && unit_is c2 128
       && ((Nat.leb 128 n3 && Nat.leb n3 138)
           || unit_is c3 168 || unit_is c3 169 || unit_is c3 175))
   || (unit_is c1 226 && unit_is c2 129 && unit_is c3 159)
   || (unit_is c1 227 && unit_is c2 128 && unit_is c3 128))%bool.

(** [s.lstrip()] *)
Fixpoint lstrip (s : string) : string :=
  match s with
  | EmptyString => EmptyString
  | String c1 r1 =>
      if is_space c1 then lstrip r1
      else match r1 with
           | EmptyString => s
           | String c2 r2 =>
               if is_space2 c1 c2 then lstrip r2
               else match r2 with
                    | EmptyString => s
                    | String c3 r3 => if is_space3 c1 c2 c3 then lstrip r3 else s
                    end
           end
  end.

(** The same on a reversed string: the units of a character arrive last
    unit first. *)
Fixpoint lstrip_reversed (s : string) : string :=
  match s with
  | EmptyString => EmptyString
  | String c1 r1 =>
      if is_space c1 then lstrip_reversed r1
      else match r1 with
           | EmptyString => s
           | String c2 r2 =>
               if is_space2 c2 c1 then lstrip_reversed r2
               else match r2 with
                    | EmptyString => s
                    | String c3 r3 =>
                        if is_space3 c3 c2 c1 then lstrip_reversed r3 else s
                    end
           end
  end.

(** [s.rstrip()] *)
Definition rstrip (s : string) : string := rev (lstrip_reversed (rev s)).

(** [s.strip()] *)
Definition strip (s : string) : string := rstrip (lstrip s).

(** [s.endswith(suffix)] *)
Definition endswith (s suffix : string) : bool :=
  String.prefix (rev suffix) (rev s).

(** [s.endswith((a, b, ...))] *)
Definition endswith_any (s : string) (suffixes : list string) : bool :=
  existsb (endswith s) suffixes.

(** [s.split(sep)] for a one-character separator: never empty. *)
Fixpoint split_on (sep : ascii) (s : string) : list string :=
  match s with
  | EmptyString => [EmptyString]
  | String c r =>
      if Ascii.eqb c sep then EmptyString :: split_on sep r
      else match split_on sep r with
           | [] => [String c EmptyString]
           | p :: ps => String c p :: ps
           end
  end.

Definition is_digit (c : ascii) : bool :=
  let n := nat_of_ascii c in (Nat.leb 48 n && Nat.leb n 57)%bool.

Fixpoint all_digits (s : string) : bool :=
  match s with
  | EmptyString => true
  | String c r => (is_digit c && all_digits r)%bool
  end.

(** [s.isdigit()] for a string of ASCII characters: false on the empty
    string. *)
Definition isdigit_ascii (s : string) : bool :=
  match s with EmptyString => false | _ => all_digits s end.

(** [s.isascii()] *)
Fixpoint isascii (s : string) : bool :=
  match s with
  | EmptyString => true
  | String c r => (Nat.ltb (nat_of_ascii c) 128 && isascii r)%bool
  end.

Fixpoint int_acc (s : string) (acc : Z) : Z :=
  match s with
  | EmptyString => acc
  | String c r => int_acc r (10 * acc + (Z.of_nat (nat_of_ascii c) - 48))
  end.

(** The number a string of ASCII digits denotes. *)
Definition int_digits (s : string) : Z := int_acc s 0.

Definition digit_char (d : nat) : ascii := ascii_of_nat (48 + d).

Fixpoint str_nat_fuel (fuel n : nat) (acc : string) : string :=
  match fuel with
  | O => acc
  | S f =>
      let acc' := String (digit_char (Nat.modulo n 10)) acc in
      if Nat.ltb n 10 then acc' else str_nat_fuel f (Nat.div n 10) acc'
  end.

(** [str(n)] for a natural number, as an f-string prints it. *)
Definition str_nat (n : nat) : string := str_nat_fuel (S n) n EmptyString.

(** [str(z)] for an integer. *)
Definition str_int (z : Z) : string :=
  if z <? 0 then String "-" (str_nat (Z.to_nat (- z))) else str_nat (Z.to_nat z).

(** [sep.join(parts)] *)
Definition join (sep : string) (parts : list string) : string :=
  String.concat sep parts.

(** [os.path.basename] on POSIX: what follows the last slash. *)
Definition basename (p : string) : string :=
  List.last (split_on "/" p) EmptyString.

End PyStr.

(* ------------------------------------------------------------------ *)
(** ** Python values, dictionaries and exceptions *)

Module Py.

(** Values exchanged with the API. *)
Inductive value : Type :=
| VNone
| VBool (b : bool)
| VInt (n : Z)
| VStr (s : string)
| VList (l : list value)
| VDict (d : list (string * value)).

Definition dict := list (string * value).

(** [bool(v)] *)
Definition truthy (v : value) : bool :=
  match v with
  | VNone => false
  | VBool b => b
  | VInt n => negb (n =? 0)
  | VStr s => negb (String.eqb s "")
  | VList l => match l with [] => false | _ => true end
  | VDict d => match d with [] => false | _ => true end
  end.

(** An HTTP response as [requests] presents it: [body] is what [r.json()]
    returns, [None] when the payload is not JSON. *)
Record Response : Type := mkResponse {
  status_code : Z;
  reason : string;
  url : string;
  body : option value
}.

Inductive exn : Type :=
| HTTPError (r : Response)
| ConnectionError
| JSONDecodeError
| TypeError
| KeyError
| IndexError
| AttributeError
| ValueError
| OverflowError
| BadZipFile
| RuntimeError
| NotImplementedError
| ZlibError
| EOFError
| OSError
| StopException (message : string).

Inductive res (A : Type) : Type :=
| Ok (a : A)
| Raise (e : exn).
Arguments Ok {A} a.
Arguments Raise {A} e.

(** [d.get(k)] on a dictionary: first binding of [k]. *)
Fixpoint lookup (k : string) (d : dict) : option value :=
  match d with
  | [] => None
  | (k', v) :: r => if String.eqb k k' then Some v else lookup k r
  end.

Definition keys (d : dict) : list string := map fst d.

(** [d[k] = v] : overwrites in place, or appends a new key at the end. *)
Fixpoint set_item (k : string) (v : value) (d : dict) : dict :=
  match d with
  | [] => [(k, v)]
  | (k', v') :: r =>
      if String.eqb k k' then (k, v) :: r else (k', v') :: set_item k v r
  end.

(** [d.update(other)] *)
Definition update (d other : dict) : dict :=
  fold_left (fun acc kv => set_item (fst kv) (snd kv) acc) other d.

(** [v.get(k)] : [None] when absent, [AttributeError] off a dictionary. *)
Definition get (v : value) (k : string) : res value :=
  match v with
  | VDict d => Ok match lookup k d with Some x => x | None => VNone end
  | _ => Raise AttributeError
  end.

(** [v.get(k, default)] *)
Definition get_default (v : value) (k : string) (dflt : value) : res value :=
  match v with
  | VDict d => Ok match lookup k d with Some x => x | None => dflt end
  | _ => Raise AttributeError
  end.

(** [v[k]] with a string key. *)
Definition getitem_str (v : value) (k : string) : res value :=
  match v with
  | VDict d => match lookup k d with Some x => Ok x | None => Raise KeyError end
  | _ => Raise TypeError
  end.

(** [v[0]] *)
Definition getitem_0 (v : value) : res value :=
  match v with
  | VList (x :: _) => Ok x
  | VList [] => Raise IndexError
  | VStr (String c _) => Ok (VStr (String c EmptyString))
  | VStr EmptyString => Raise IndexError
  | VDict _ => Raise KeyError
  | _ => Raise TypeError
  end.

(** [for x in v] : the elements visited, or [TypeError]. *)
Definition iterate (v : value) : res (list value) :=
  match v with
  | VList l => Ok l
  | VDict d => Ok (map (fun kv => VStr (fst kv)) d)
  | VStr s => Ok (map (fun c => VStr (String c EmptyString)) (list_ascii_of_string s))
  | _ => Raise TypeError
  end.

(** [a or b] *)
Definition por (a b : value) : value := if truthy a then a else b.

Definition bind {A B} (m : res A) (f : A -> res B) : res B :=
  match m with
  | Ok a => f a
  | Raise e => Raise e
  end.

Fixpoint mapM {A B} (f : A -> res B) (l : list A) : res (list B) :=
  match l with
  | [] => Ok []
  | x :: r => bind (f x) (fun y => bind (mapM f r) (fun ys => Ok (y :: ys)))
  end.

End Py.

(* ------------------------------------------------------------------ *)
(** ** [base64.b64encode] *)

Module Base64.

Definition alphabet : list ascii :=
  list_ascii_of_string
    "ABCDEFGHIJKLMNOPQRSTUVWXYZabcdefghijklmnopqrstuvwxyz0123456789+/".

(** The character of a 6-bit group. *)
Definition sextet (n : N) : ascii :=
  nth (N.to_nat (N.land n 63)) alphabet "="%char.

(** Three octets packed big-endian into 24 bits. *)
Definition pack (a b c : byte) : N :=
  N.lor (N.shiftl (Byte.to_N a) 16) (N.lor (N.shiftl (Byte.to_N b) 8) (Byte.to_N c)).

Fixpoint b64encode (raw : list byte) : string :=
  match raw with
  | [] => EmptyString
  | [a] =>
      let n := pack a x00 x00 in
      String (sextet (N.shiftr n 18)) (String (sextet (N.shiftr n 12)) "==")
  | [a; b] =>
      let n := pack a b x00 in
      String (sextet (N.shiftr n 18))
        (String (sextet (N.shiftr n 12)) (String (sextet (N.shiftr n 6)) "="))
  | a :: b :: c :: rest =>
      let n := pack a b c in
      String (sextet (N.shiftr n 18))
        (String (sextet (N.shiftr n 12))
           (String (sextet (N.shiftr n 6)) (String (sextet n) (b64encode rest))))
  end.

(** *** [base64.b64decode], with [validate=False]

    The decoder of [binascii.a2b_base64]: characters outside the alphabet
    are skipped, a sufficient run of padding ends the input, and stopping
    inside a quad is an error. *)

(** The value of a character of the alphabet. *)
Definition a2b (c : ascii) : option N :=
  let n := N_of_ascii c in
  if ((65 <=? n) && (n <=? 90))%N then Some (n - 65)%N
  else if ((97 <=? n) && (n <=? 122))%N then Some (n - 71)%N
  else if ((48 <=? n) && (n <=? 57))%N then Some (n + 4)%N
  else if (n =? 43)%N then Some 62%N
  else if (n =? 47)%N then Some 63%N
  else None.

(** What is stored in one output octet. *)
Definition octet (n : N) : byte :=
  match Byte.of_N (n mod 256) with Some b => b | None => x00 end.

(** The loop, with [out] holding the octets produced so far, last first. *)
Fixpoint a2b_loop (s : string) (quad_pos : nat) (leftchar : N) (pads : nat)
    (out : list byte) : Py.res (list byte) :=
  match s with
  | EmptyString =>
      if Nat.eqb quad_pos 0 then Py.Ok (rev out) else Py.Raise Py.ValueError
  | String c r =>
      if Ascii.eqb c "=" then
        if (Nat.leb 2 quad_pos && Nat.leb 4 (quad_pos + S pads))%bool
        then Py.Ok (rev out)
        else a2b_loop r quad_pos leftchar
               (if Nat.leb 2 quad_pos then S pads else pads) out
      else
        match a2b c with
        | None => a2b_loop r quad_pos leftchar pads out
        | Some this_ch =>
            match quad_pos with
            | O => a2b_loop r 1 this_ch 0 out
            | S O =>
                a2b_loop r 2 (N.land this_ch 15) 0
                  (octet (N.lor (N.shiftl leftchar 2) (N.shiftr this_ch 4)) :: out)
            | S (S O) =>
                a2b_loop r 3 (N.land this_ch 3) 0
                  (octet (N.lor (N.shiftl leftchar 4) (N.shiftr this_ch 2)) :: out)
            | _ =>
                a2b_loop r 0 0 0
                  (octet (N.lor (N.shiftl leftchar 6) this_ch) :: out)
            end
        end
  end.

Fixpoint only_ascii (s : string) : bool :=
  match s with
  | EmptyString => true
  | String c r => ((N_of_ascii c <? 128)%N && only_ascii r)%bool
  end.

(** On a [str]: it must be ASCII, then the decoder runs. *)
Definition b64decode (s : string) : Py.res (list byte) :=
  if only_ascii s then a2b_loop s 0 0 0 [] else Py.Raise Py.ValueError.

End Base64.

(* ------------------------------------------------------------------ *)
(** ** Archive model extractor *)

Module Extractor.
Import Py.

(** A [zipfile.ZipInfo] together with what [zf.read(info)] does: it
    returns the entry's bytes, or raises ([BadZipFile] on a bad checksum,
    [RuntimeError] on an encrypted entry, [NotImplementedError] on an
    unknown compression method, ...). *)
Record ZipInfo : Type := mkZipInfo {
  filename : string;
  date_time : list Z;
  content : res (list byte)
}.

(** [zf.read(info)] *)
Definition read (info : ZipInfo) : res (list byte) := content info.

(** The bytes of an entry that can be read. *)
Definition data (info : ZipInfo) : list byte :=
  match content info with Ok raw => raw | Raise _ => [] end.

(** [info.is_dir()]: the name ends with a slash, as [str.endswith] has
    it. *)
Definition is_dir (info : ZipInfo) : bool := PyStr.endswith (filename info) "/".

(** *** The [datetime] constructor applied to the unpacked tuple *)

Record datetime : Type := mkDatetime {
  year : Z; month : Z; day : Z;
  hour : Z; minute : Z; second : Z; microsecond : Z
}.

Definition is_leap (y : Z) : bool :=
  ((y mod 4 =? 0) && (negb (y mod 100 =? 0) || (y mod 400 =? 0)))%bool.

Definition days_in_month (y m : Z) : Z :=
  if m =? 2 then (if is_leap y then 29 else 28)
  else if ((m =? 4) || (m =? 6) || (m =? 9) || (m =? 11))%bool then 30
  else 31.

Definition between (lo x hi : Z) : bool := ((lo <=? x) && (x <=? hi))%bool.

(** The range checks of the constructor; a failed one is a [ValueError]. *)
Definition check_fields (dt : datetime) : res datetime :=
  if (between 1 (year dt) 9999 && between 1 (month dt) 12
      && between 1 (day dt) (days_in_month (year dt) (month dt))
      && between 0 (hour dt) 23 && between 0 (minute dt) 59
      && between 0 (second dt) 59 && between 0 (microsecond dt) 999999)%bool
  then Ok dt else Raise ValueError.

(** The constructor on a tuple of integers: three to seven fields are
    accepted, an eighth would have to be a [tzinfo]. *)
Definition datetime_new (args : list Z) : res datetime :=
  match args with
  | [y; m; d] => check_fields (mkDatetime y m d 0 0 0 0)
  | [y; m; d; h] => check_fields (mkDatetime y m d h 0 0 0)
  | [y; m; d; h; mi] => check_fields (mkDatetime y m d h mi 0 0)
  | [y; m; d; h; mi; s] => check_fields (mkDatetime y m d h mi s 0)
  | [y; m; d; h; mi; s; us] => check_fields (mkDatetime y m d h mi s us)
  | _ => Raise TypeError
  end.

(** Days from 1970-01-01 to the given civil date (proleptic Gregorian). *)
Definition days_from_civil (y m d : Z) : Z :=
  let y' := if m <=? 2 then y - 1 else y in
  let era := y' / 400 in
  let yoe := y' - era * 400 in
  let mp := (m + 9) mod 12 in
  let doy := (153 * mp + 2) / 5 + d - 1 in
  let doe := yoe * 365 + yoe / 4 - yoe / 100 + doy in
  era * 146097 + doe - 719468.

(** [time.mktime] of a process whose local time is [offset] seconds east
    of UTC. *)
Definition mktime_fixed (offset : Z) (dt : datetime) : option Z :=
  Some (days_from_civil (year dt) (month dt) (day dt) * 86400
        + hour dt * 3600 + minute dt * 60 + second dt - offset).

(** [except Exception] does not catch what derives from [BaseException]
    only. *)
Definition is_Exception (e : exn) : bool :=
  match e with StopException _ => false | _ => true end.

Definition IMAGE_SUFFIXES : list string :=
  [".jpg"; ".jpeg"; ".png"; ".gif"; ".webp"; ".bmp"].

Definition is_image (fname : string) : bool :=
  PyStr.endswith_any (PyStr.lower fname) IMAGE_SUFFIXES.

(** *** [sorted(xs, key=...)]

    The keys are computed first, one call per element in list order;
    the decorated list is then sorted stably. *)
Section StableSort.
Context {K A : Type}.
Variable leb : K -> K -> bool.

Fixpoint insert (x : K * A) (l : list (K * A)) : list (K * A) :=
  match l with
  | [] => [x]
  | y :: r => if leb (fst x) (fst y) then x :: y :: r else y :: insert x r
  end.

Fixpoint sort_decorated (l : list (K * A)) : list (K * A) :=
  match l with
  | [] => []
  | x :: r => insert x (sort_decorated r)
  end.

Definition sorted (key : A -> res K) (xs : list A) : res (list A) :=
  bind (mapM key xs) (fun ks => Ok (map snd (sort_decorated (combine ks xs)))).
End StableSort.

(** [enumerate(xs, start)] *)
Fixpoint enumerate {A} (start : Z) (xs : list A) : list (Z * A) :=
  match xs with
  | [] => []
  | x :: r => (start, x) :: enumerate (start + 1) r
  end.

(** [folders.setdefault(folder, []).append(info)] *)
Fixpoint setdefault_append (folder : string) (info : ZipInfo)
    (folders : list (string * list ZipInfo)) : list (string * list ZipInfo) :=
  match folders with
  | [] => [(folder, [info])]
  | (f, infos) :: r =>
      if String.eqb folder f then (f, (infos ++ [info])%list) :: r
      else (f, infos) :: setdefault_append folder info r
  end.

(** One iteration of the first loop of [parse_zip_models]. *)
Definition scan_entry (folders : list (string * list ZipInfo)) (info : ZipInfo)
    : list (string * list ZipInfo) :=
  if is_dir info then folders
  else if negb (is_image (filename info)) then folders
  else
    let parts := PyStr.split_on "/" (filename info) in
    if (List.length parts <? 2)%nat then folders
    else setdefault_append (PyStr.strip (hd EmptyString parts)) info folders.

Definition scan (infolist : list ZipInfo) : list (string * list ZipInfo) :=
  fold_left scan_entry infolist [].

Definition TIMESTAMP_WARNING : string :=
  "Timestamp non disponibili: ordinamento alfabetico usato.".

Definition count_warning (folder : string) (n : nat) : string :=
  "La cartella '" ++ folder ++ "' contiene " ++ PyStr.str_nat n
    ++ " immagini (attese: 2). Verranno usate le prime 2.".

(** The dictionary appended to [images_payload] for the bytes [raw]. *)
Definition payload (pos : Z) (info : ZipInfo) (raw : list byte) : value :=
  VDict [("attachment", VStr (Base64.b64encode raw));
         ("filename", VStr (PyStr.basename (filename info)));
         ("position", VInt pos)].

(** One iteration of the payload loop: [zf.read] may raise. *)
Definition read_payload (entry : Z * ZipInfo) : res value :=
  let '(pos, info) := entry in
  bind (read info) (fun raw => Ok (payload pos info raw)).

(** The payload of an entry that can be read. *)
Definition image_payload (pos : Z) (info : ZipInfo) : value :=
  payload pos info (data info).

Record ModelGroup : Type := mkModelGroup {
  model : string;
  images : list value;
  warnings : list string
}.

Section WithClock.
(** [time.mktime(dt.timetuple())]: depends on the host's time zone;
    [None] stands for its [OverflowError]. *)
Variable mktime : datetime -> option Z.

Definition to_epoch (dt_tuple : list Z) : res Z :=
  bind (datetime_new dt_tuple)
       (fun dt => match mktime dt with
                  | Some t => Ok t
                  | None => Raise OverflowError
                  end).

Definition human_ts (dt_tuple : list Z) : res Z :=
  match to_epoch dt_tuple with
  | Ok t => Ok t
  | Raise e => if is_Exception e then Ok 0 else Raise e
  end.

(** The [try]/[except] that orders a folder's entries. *)
Definition order_entries (infos : list ZipInfo) : res (list ZipInfo * list string) :=
  match sorted Z.leb (fun i => human_ts (date_time i)) infos with
  | Ok infos_sorted => Ok (infos_sorted, [])
  | Raise e =>
      if is_Exception e then
        bind (sorted String.leb (fun i => Ok (filename i)) infos)
             (fun infos_sorted => Ok (infos_sorted, [TIMESTAMP_WARNING]))
      else Raise e
  end.

(** The count rule: returns the retained entries and the warnings. *)
Definition retain (folder : string) (infos_sorted : list ZipInfo)
    (warnings : list string) : list ZipInfo * list string :=
  let img_infos := filter (fun i => is_image (filename i)) infos_sorted in
  if negb (List.length img_infos =? 2)%nat
  then (firstn 2 img_infos,
        (warnings ++ [count_warning folder (List.length img_infos)])%list)
  else (img_infos, warnings).

(** One iteration of the second loop of [parse_zip_models]. *)
Definition build_model (entry : string * list ZipInfo) : res ModelGroup :=
  let '(folder, infos) := entry in
  bind (order_entries infos) (fun '(infos_sorted, warnings) =>
    let '(img_infos, warnings) := retain folder infos_sorted warnings in
    bind (mapM read_payload (enumerate 1 img_infos)) (fun images_payload =>
      Ok (mkModelGroup folder images_payload warnings))).

Definition parse_zip_models (infolist : list ZipInfo) : res (list ModelGroup) :=
  mapM build_model (scan infolist).
End WithClock.

End Extractor.

(* ------------------------------------------------------------------ *)
(** ** Commerce API client: class [ShopifyClient] *)

Module Client.
Import Py.

Inductive verb : Type := GET | POST.

(** One call on [self.session]: the verb, the URL, the [params=] query
    and the [json=] body. *)
Record Request : Type := mkRequest {
  req_verb : verb;
  req_url : string;
  req_params : dict;
  req_json : option value
}.

(** The remote store: what it answers to a request, given every request
    sent before (oldest first); [None] is a transport failure. *)
Definition Server : Type := list Request -> Request -> option Response.

(** Computations that talk to the store: the log of requests sent so far
    is threaded through, and an exception may end the computation. *)
Definition M (A : Type) : Type := list Request -> res A * list Request.

Definition ret {A} (a : A) : M A := fun log => (Ok a, log).

Definition raise {A} (e : exn) : M A := fun log => (Raise e, log).

Definition mbind {A B} (m : M A) (f : A -> M B) : M B :=
  fun log =>
    match m log with
    | (Ok a, log') => f a log'
    | (Raise e, log') => (Raise e, log')
    end.

Definition lift {A} (r : res A) : M A :=
  match r with Ok a => ret a | Raise e => raise e end.

Declare Scope py_scope.
Delimit Scope py_scope with py.
Notation "x <- m ;; k" := (mbind m (fun x => k))
  (at level 61, m at next level, right associativity) : py_scope.
Notation "m ;;; k" := (mbind m (fun _ => k))
  (at level 61, right associativity) : py_scope.
Local Open Scope py_scope.

(** [for x in xs: body(x)] *)
Fixpoint for_each {A} (xs : list A) (body : A -> M unit) : M unit :=
  match xs with
  | [] => ret tt
  | x :: r => body x ;;; for_each r body
  end.

(** [r.raise_for_status()] *)
Definition raise_for_status (r : Response) : res unit :=
  if ((400 <=? status_code r) && (status_code r <? 600))%bool
  then Raise (HTTPError r) else Ok tt.

(** [r.json()] *)
Definition json (r : Response) : res value :=
  match body r with Some v => Ok v | None => Raise JSONDecodeError end.

(** [str(e)] for the error [raise_for_status] builds. *)
Definition str_HTTPError (r : Response) : string :=
  PyStr.str_int (status_code r)
  ++ (if status_code r <? 500 then " Client Error: " else " Server Error: ")
  ++ reason r ++ " for url: " ++ url r.

(** [k in drop_keys] *)
Definition mem (k : string) (ks : list string) : bool := existsb (String.eqb k) ks.

(** [{k: v[k] for k in ks if k not in drop_keys}], the keys visited in order. *)
Fixpoint comprehension (drop_keys : list string) (v : value) (ks : list string)
    (acc : dict) : res dict :=
  match ks with
  | [] => Ok acc
  | k :: r =>
      if mem k drop_keys then comprehension drop_keys v r acc
      else bind (getitem_str v k)
                (fun x => comprehension drop_keys v r (set_item k x acc))
  end.

(** [v.keys()] *)
Definition keys_of (v : value) : res (list string) :=
  match v with VDict d => Ok (keys d) | _ => Raise AttributeError end.

Definition scrub_one (drop_keys : list string) (v : value) : res value :=
  bind (keys_of v) (fun ks =>
  bind (comprehension drop_keys v ks []) (fun nv => Ok (VDict nv))).

Definition VARIANT_DROP_KEYS : list string :=
  ["id"; "product_id"; "admin_graphql_api_id"; "position";
   "created_at"; "updated_at"; "image_id"].

Definition OPTION_DROP_KEYS : list string :=
  ["id"; "product_id"; "admin_graphql_api_id"; "position"].

Definition _scrub_variants (variants : value) : res (list value) :=
  bind (iterate (por variants (VList []))) (mapM (scrub_one VARIANT_DROP_KEYS)).

Definition _scrub_options (options : value) : res (list value) :=
  bind (iterate (por options (VList []))) (mapM (scrub_one OPTION_DROP_KEYS)).

(** A function object: the parameters after [self] that have no default,
    those that have one, and the body over the bound arguments. *)
Record PyFunction : Type := mkPyFunction {
  required : list string;
  optional : list (string * value);
  code : (string -> value) -> M value
}.

Definition bind_arguments (f : PyFunction) (kwargs : dict) : string -> value :=
  fun name =>
    match lookup name kwargs with
    | Some v => v
    | None => match lookup name (optional f) with Some d => d | None => VNone end
    end.

(** A call of [f] with keyword arguments only: an unexpected keyword or a missing required argument
    is a [TypeError] raised before the body runs. *)
Definition call_kw (f : PyFunction) (kwargs : dict) : M value :=
  if (forallb (fun kv => mem (fst kv) (required f ++ keys (optional f))%list) kwargs
      && forallb (fun p => mem p (keys kwargs)) (required f))%bool
  then code f (bind_arguments f kwargs)
  else raise TypeError.

(** The name bound by a class body once it has run: the last [def]. *)
Fixpoint class_attr (name : string) (body : list (string * PyFunction))
    : option PyFunction :=
  match body with
  | [] => None
  | (n, f) :: r =>
      match class_attr name r with
      | Some g => Some g
      | None => if String.eqb name n then Some f else None
      end
  end.

(** What is left to the interpreter: [str.isdigit] on a string with
    characters outside ASCII (it consults the Unicode tables: a
    superscript two and the Arabic-Indic digits pass), and [int] on a
    string that is not a run of at most 640 ASCII digits (decimal digits
    of other scripts convert, a superscript two is a [ValueError];
    interpreters that limit the length of the conversion refuse longer
    runs, from a limit that is configurable but never below 640). *)
Record Interpreter : Type := mkInterpreter {
  isdigit_unicode : string -> bool;
  int_other : string -> res Z
}.

(** [s.isdigit()] *)
Definition isdigit (py : Interpreter) (s : string) : bool :=
  if PyStr.isascii s then PyStr.isdigit_ascii s else isdigit_unicode py s.

(** [int(s)] *)
Definition int (py : Interpreter) (s : string) : res Z :=
  if (PyStr.isdigit_ascii s && (String.length s <=? 640)%nat)%bool
  then Ok (PyStr.int_digits s)
  else int_other py s.

Section WithServer.
Variable server : Server.
(** [self.base] *)
Variable base : string.
Variable py : Interpreter.

Definition send (rq : Request) : M Response :=
  fun log =>
    match server log rq with
    | Some r => (Ok r, (log ++ [rq])%list)
    | None => (Raise ConnectionError, (log ++ [rq])%list)
    end.

Definition session_get (path : string) (params : dict) : M Response :=
  send (mkRequest GET (base ++ path) params None).

Definition session_post (path : string) (payload : value) : M Response :=
  send (mkRequest POST (base ++ path) [] (Some payload)).

(** [data[0]["id"] if data else None] *)
Definition first_id (data : value) : res value :=
  if truthy data then bind (getitem_0 data) (fun x => getitem_str x "id")
  else Ok VNone.

Definition _find_custom_collection (title : string) : M value :=
  r <- session_get "/custom_collections.json" [("title", VStr title); ("limit", VInt 1)] ;;
  lift (raise_for_status r) ;;;
  j <- lift (json r) ;;
  data <- lift (get_default j "custom_collections" (VList [])) ;;
  lift (first_id data).

Definition _find_smart_collection (title : string) : M value :=
  r <- session_get "/smart_collections.json" [("title", VStr title); ("limit", VInt 1)] ;;
  lift (raise_for_status r) ;;;
  j <- lift (json r) ;;
  data <- lift (get_default j "smart_collections" (VList [])) ;;
  lift (first_id data).

Definition FRONTPAGE_ALIASES : list string :=
  ["homepage"; "home page"; "frontpage"; "home"].

(** The guarded block at the head of [ensure_collection]: [Some id] when
    it returns, [None] when control falls through. *)
Definition frontpage_probe (title : string) : M (option value) :=
  if mem (PyStr.lower (PyStr.strip title)) FRONTPAGE_ALIASES then
    r <- session_get "/custom_collections.json"
           [("handle", VStr "frontpage"); ("limit", VInt 1)] ;;
    lift (raise_for_status r) ;;;
    j <- lift (json r) ;;
    data <- lift (get_default j "custom_collections" (VList [])) ;;
    if truthy data then
      x <- lift (getitem_0 data) ;;
      i <- lift (getitem_str x "id") ;;
      ret (Some i)
    else ret None
  else ret None.

Definition ensure_collection (title : string) : M value :=
  found <- frontpage_probe title ;;
  match found with
  | Some i => ret i
  | None =>
      cid <- _find_smart_collection title ;;
      if truthy cid then ret cid
      else
        cid <- _find_custom_collection title ;;
        if truthy cid then ret cid
        else
          r <- session_post "/custom_collections.json"
                 (VDict [("custom_collection", VDict [("title", VStr title)])]) ;;
          lift (raise_for_status r) ;;;
          j <- lift (json r) ;;
          c <- lift (getitem_str j "custom_collection") ;;
          lift (getitem_str c "id")
  end.

Definition add_product_to_collection (product_id collection_id : value) : M value :=
  r <- session_post "/collects.json"
         (VDict [("collect", VDict [("product_id", product_id);
                                    ("collection_id", collection_id)])]) ;;
  lift (raise_for_status r) ;;;
  j <- lift (json r) ;;
  lift (get j "collect").

Definition list_product_collections (product_id : value) : M (list value) :=
  r <- session_get "/collects.json" [("product_id", product_id); ("limit", VInt 250)] ;;
  lift (raise_for_status r) ;;;
  j <- lift (json r) ;;
  collects <- lift (get_default j "collects" (VList [])) ;;
  cs <- lift (iterate collects) ;;
  lift (mapM (fun c => get c "collection_id") cs).

Definition get_product_by_id (pid : Z) : M value :=
  r <- session_get ("/products/" ++ PyStr.str_int pid ++ ".json") [] ;;
  if status_code r =? 404 then ret VNone
  else
    lift (raise_for_status r) ;;;
    j <- lift (json r) ;;
    lift (get j "product").

Definition get_product_by_handle (handle : string) : M value :=
  r <- session_get "/products.json" [("handle", VStr handle); ("limit", VInt 1)] ;;
  lift (raise_for_status r) ;;;
  j <- lift (json r) ;;
  arr <- lift (get_default j "products" (VList [])) ;;
  if truthy arr then lift (getitem_0 arr) else ret VNone.

Definition get_product_by_id_or_handle (ident : string) : M value :=
  let ident := PyStr.strip ident in
  if isdigit py ident then
    pid <- lift (int py ident) ;;
    get_product_by_id pid
  else get_product_by_handle ident.

(** The fields copied from a template (the argument of [update]). *)
Definition template_fields (template : value) : res dict :=
  bind (get template "vendor") (fun vendor =>
  bind (get template "product_type") (fun product_type =>
  bind (get template "tags") (fun tags =>
  bind (get template "options") (fun options =>
  bind (_scrub_options options) (fun options' =>
  bind (get template "variants") (fun variants =>
  bind (_scrub_variants variants) (fun variants' =>
  Ok [("vendor", vendor); ("product_type", product_type); ("tags", tags);
      ("options", VList options'); ("variants", VList variants')]))))))).

Definition post_product (product_body : dict) : M value :=
  r <- session_post "/products.json" (VDict [("product", VDict product_body)]) ;;
  lift (raise_for_status r) ;;;
  j <- lift (json r) ;;
  lift (getitem_str j "product").

(** First [def create_product], with the [template] parameter. *)
Definition create_product_1 : PyFunction :=
  mkPyFunction ["title"; "body_html"; "images_payload"] [("template", VNone)]
    (fun arg =>
       let product_body :=
         [("title", arg "title"); ("body_html", arg "body_html");
          ("images", arg "images_payload")] in
       product_body <-
         (if truthy (arg "template")
          then extra <- lift (template_fields (arg "template")) ;;
               ret (update product_body extra)
          else ret product_body) ;;
       post_product product_body).

(** Second [def create_product], further down the same class body. *)
Definition create_product_2 : PyFunction :=
  mkPyFunction ["title"; "body_html"; "images_payload"] []
    (fun arg =>
       post_product [("title", arg "title"); ("body_html", arg "body_html");
                     ("images", arg "images_payload")]).

(** The [def]s of [create_product] in the order the class body runs
    them.  The other names defined twice are defined by the same text
    both times. *)
Definition class_body : list (string * PyFunction) :=
  [("create_product", create_product_1); ("create_product", create_product_2)].

(** [ShopifyClient.create_product] *)
Definition create_product : PyFunction :=
  match class_attr "create_product" class_body with
  | Some f => f
  | None => mkPyFunction [] [] (fun _ => raise AttributeError)
  end.
End WithServer.

End Client.

(* ------------------------------------------------------------------ *)
(** ** Batch orchestrator: the module-level code under [if start:] *)

Module Batch.
Import Py Client Extractor.
Local Open Scope py_scope.

Definition NL : string := String (ascii_of_nat 10) EmptyString.

Definition DESCRIPTION_HTML : string :=
  "Il desiderio di privacy è del tutto normale... Sia in azienda che nel comfort della propria casa, permette di ritrovarsi ed essere se stessi."
  ++ NL ++ NL ++
  "Con la nostra gamma di pellicole design, si aprono nuove possibilità di privacy per coloro&nbsp;che ne hanno bisogno, che si tratti di una sala riunioni o una stanza da bagno."
  ++ NL ++ NL ++
  "Le nostre pellicole offrono diversi livelli di opacità e differenti motivi, per corrispondere meglio alle esigenze di privacy, senza diminuire di luminosità."
  ++ NL ++ NL ++
  "Ispirandosi alla città, alla natura, alle forme geometriche o al cielo, sono disponibili decine di modelli colorati od opachi per rivestimento, che si possono adattare ai vetri di imprese e negozi: pellicole opalescenti, sfumate, bianche, grigie o nere, occultanti o colorate. La pellicola Aurora con tecnologia dicroica offre un gioco di luci impercettibile."
  ++ NL ++ NL ++
  "Originalità garantita!".

Definition DEFAULT_COLLECTIONS : list string :=
  ["Homepage"; "Pellicole per Vetri"; "Decorative"].

(** What the sidebar widgets hold when the button is pressed. *)
Record Inputs : Type := mkInputs {
  shop_domain : string;
  access_token : string;
  api_version : string;
  duplication_enabled : bool;
  source_identifier : string;
  copy_source_collections : bool
}.

(** [st.error(msg); st.stop()] *)
Definition stop {A} (msg : string) : M A := raise (StopException msg).

Definition nonempty (s : string) : bool := negb (String.eqb s "").

Definition base_url (inp : Inputs) : string :=
  "https://" ++ shop_domain inp ++ "/admin/api/" ++ api_version inp.

Definition title_of (model_name : string) : string :=
  "SOLAR SCREEN® Pellicole Decorative - " ++ model_name.

Definition collections_summary : value :=
  VStr (PyStr.join ", " DEFAULT_COLLECTIONS).

Definition success_record (model_name : string) (pid product : value) : res dict :=
  bind (get product "title") (fun t =>
  bind (get product "handle") (fun h =>
  bind (get product "status") (fun s =>
  Ok [("Modello", VStr model_name); ("Product ID", pid); ("Titolo", t);
      ("Handle", h); ("Status", s); ("Collezioni", collections_summary)]))).

(** The handler's [try: detail = e.response.json()] with its fallback. *)
Definition error_detail (r : Response) : value :=
  match json r with
  | Ok v => v
  | Raise _ => VDict [("error", VStr (str_HTTPError r))]
  end.

Definition error_record (model_name : string) (r : Response) : dict :=
  [("Modello", VStr model_name); ("Product ID", VStr "—");
   ("Titolo", VStr (title_of model_name)); ("Handle", VStr "—");
   ("Status", VStr "ERRORE"); ("Collezioni", collections_summary);
   ("Errore", error_detail r)].

(** Local variables fixed before the loop starts. *)
Record Setup : Type := mkSetup {
  template_product : value;
  source_collection_ids : list value;
  collection_ids : dict
}.

Section WithServer.
Variable server : Server.
Variable inp : Inputs.
Variable py : Interpreter.
(** The function object the attribute [client.create_product] yields. *)
Variable create_product_attr : PyFunction.

Let base : string := base_url inp.

(** Template resolution (duplication mode). *)
Definition resolve_template : M (value * list value) :=
  if duplication_enabled inp then
    if negb (nonempty (source_identifier inp)) then
      stop "Modalità duplicazione: specifica un ID o handle del prodotto sorgente."
    else
      template <- get_product_by_id_or_handle server base py (source_identifier inp) ;;
      if negb (truthy template) then stop "Prodotto sorgente non trovato."
      else
        tid <- (if copy_source_collections inp then lift (get template "id")
                else ret VNone) ;;
        if (copy_source_collections inp && truthy tid)%bool then
          i <- lift (getitem_str template "id") ;;
          ids <- list_product_collections server base i ;;
          ret (template, ids)
        else ret (template, [])
  else ret (VNone, []).

(** The [try] around one [ensure_collection]: an HTTP error stops the
    script, anything else propagates. *)
Definition ensure_or_stop (title : string) : M value :=
  fun log =>
    match ensure_collection server base title log with
    | (Raise (HTTPError r), log') =>
        (Raise (StopException
                  ("Errore collezione '" ++ title ++ "': " ++ str_HTTPError r)), log')
    | other => other
    end.

Fixpoint resolve_collections (titles : list string) (collection_ids : dict) : M dict :=
  match titles with
  | [] => ret collection_ids
  | title :: r =>
      cid <- ensure_or_stop title ;;
      resolve_collections r (set_item title cid collection_ids)
  end.

Definition setup : M Setup :=
  (if (nonempty (shop_domain inp) && nonempty (access_token inp))%bool then ret tt
   else stop "Inserisci dominio e token nelle impostazioni a sinistra.") ;;;
  ts <- resolve_template ;;
  cids <- (if negb (duplication_enabled inp && copy_source_collections inp)
           then resolve_collections DEFAULT_COLLECTIONS []
           else ret []) ;;
  ret (mkSetup (fst ts) (snd ts) cids).

(** The body of the [try] for one model. *)
Definition try_model (st : Setup) (m : ModelGroup) : M dict :=
  let model_name := model m in
  let title := title_of model_name in
  body <- (if (duplication_enabled inp && truthy (template_product st))%bool
           then lift (get (template_product st) "body_html")
           else ret (VStr DESCRIPTION_HTML)) ;;
  product <- call_kw create_product_attr
               [("title", VStr title); ("body_html", body);
                ("images_payload", VList (images m));
                ("template", if duplication_enabled inp
                             then template_product st else VNone)] ;;
  pid <- lift (getitem_str product "id") ;;
  (if (duplication_enabled inp && copy_source_collections inp
       && match source_collection_ids st with [] => false | _ => true end)%bool
   then for_each (source_collection_ids st)
          (fun cid => add_product_to_collection server base pid cid ;;; ret tt)
   else for_each (collection_ids st)
          (fun kv => add_product_to_collection server base pid (snd kv) ;;; ret tt)) ;;;
  lift (success_record model_name pid product).

(** The [for] over the models: [results] is the list being appended to;
    it is returned together with the outcome, so that what was recorded
    before a crash stays visible. *)
Fixpoint process_models (st : Setup) (models : list ModelGroup)
    (results : list dict) (log : list Request)
    : res unit * list dict * list Request :=
  match models with
  | [] => (Ok tt, results, log)
  | m :: rest =>
      match try_model st m log with
      | (Ok record, log') =>
          process_models st rest (results ++ [record])%list log'
      | (Raise (HTTPError r), log') =>
          process_models st rest (results ++ [error_record (model m) r])%list log'
      | (Raise e, log') => (Raise e, results, log')
      end
  end.

(** The whole handler of the button. *)
Definition run (models : list ModelGroup)
    : res unit * list dict * list Request :=
  match setup [] with
  | (Ok st, log) => process_models st models [] log
  | (Raise e, log) => (Raise e, [], log)
  end.
End WithServer.

(** The program as written: the attribute is looked up in the class. *)
Definition run_app (server : Server) (inp : Inputs) (py : Interpreter)
    (models : list ModelGroup) :=
  run server inp py (create_product server (base_url inp)) models.

End Batch.

(* ------------------------------------------------------------------ *)
(** ** The preview of the extracted models *)

Module Preview.
Import Py Extractor.

(** What one expander shows: its label, the warnings, and for each image
    the decoded bytes with the caption. *)
Record Panel : Type := mkPanel {
  label : string;
  shown_warnings : list string;
  columns : nat;
  pictures : list (list byte * string)
}.

(** [base64.b64decode] on a value: a [str] is decoded, anything else that
    is no bytes-like object is a [TypeError]. *)
Definition b64decode_value (v : value) : res (list byte) :=
  match v with
  | VStr s => Base64.b64decode s
  | _ => Raise TypeError
  end.

Section WithRepr.
(** [str] of a list or a dictionary, left to the interpreter. *)
Variable repr_container : value -> string.

(** [col.image(raw, caption=...)]: the bytes go to the imaging library,
    which raises on bytes it does not recognise as a picture. *)
Variable col_image : list byte -> string -> res unit.

(** How an f-string renders a value. *)
Definition format (v : value) : string :=
  match v with
  | VNone => "None"
  | VBool true => "True"
  | VBool false => "False"
  | VInt n => PyStr.str_int n
  | VStr s => s
  | _ => repr_container v
  end.

(** The body of the inner loop, for one image. *)
Definition preview_image (img : value) : res (list byte * string) :=
  bind (getitem_str img "attachment") (fun attachment =>
  bind (b64decode_value attachment) (fun raw =>
  bind (getitem_str img "filename") (fun fname =>
  bind (getitem_str img "position") (fun pos =>
  let caption := format fname ++ " (pos " ++ format pos ++ ")" in
  bind (col_image raw caption) (fun _ =>
  Ok (raw, caption)))))).

(** The body of the outer loop, for one model. *)
Definition preview_model (m : ModelGroup) : res Panel :=
  bind (mapM preview_image (images m)) (fun pics =>
  Ok (mkPanel ("Modello: " ++ model m ++ " — "
               ++ PyStr.str_nat (List.length (images m)) ++ " immagini")
              (warnings m)
              (match List.length (images m) with O => 1%nat | n => n end)
              pics)).

Definition preview (models : list ModelGroup) : res (list Panel) :=
  mapM preview_model models.
End WithRepr.

End Preview.

(* ------------------------------------------------------------------ *)
(** ** Concrete archives and stores used to exercise the definitions *)

Module Fixtures.
Import Py Client Extractor Batch.

Definition utc : datetime -> option Z := mktime_fixed 0.

(** Two entries of one folder whose DOS timestamp field is zero: the
    month and the day decode to 0. *)
Definition zero_b : ZipInfo := mkZipInfo "M/b.jpg" [1980; 0; 0; 0; 0; 0] (Ok [x62]).
Definition zero_a : ZipInfo := mkZipInfo "M/a.jpg" [1980; 0; 0; 0; 0; 0] (Ok [x61]).

Definition aurora_new : ZipInfo :=
  mkZipInfo "AURORA-01/b.jpg" [2024; 1; 2; 10; 0; 0] (Ok [x4d; x61; x6e]).
Definition aurora_old : ZipInfo :=
  mkZipInfo "AURORA-01/a.JPG" [2024; 1; 1; 9; 30; 0] (Ok [x4d; x61]).
Definition aurora_bad : ZipInfo :=
  mkZipInfo "AURORA-01/z.png" [1980; 0; 0; 0; 0; 0] (Ok [x4d]).
Definition at_root : ZipInfo := mkZipInfo "root.jpg" [2024; 1; 1; 0; 0; 0] (Ok [x00]).
Definition solo : ZipInfo := mkZipInfo " X /sub/c.png" [2023; 5; 6; 7; 8; 10] (Ok [xff]).
Definition notes : ZipInfo := mkZipInfo "X/notes.txt" [2023; 5; 6; 7; 8; 10] (Ok []).

Definition x_first : ZipInfo := mkZipInfo "MODEL-X/3.webp" [2022; 3; 1; 8; 0; 0] (Ok [x01]).
Definition x_second : ZipInfo := mkZipInfo "MODEL-X/1.gif" [2022; 3; 1; 8; 0; 2] (Ok [x02]).
Definition x_third : ZipInfo := mkZipInfo "MODEL-X/2.bmp" [2022; 3; 1; 8; 0; 2] (Ok [x03]).

Definition archive : list ZipInfo :=
  [aurora_new; at_root; aurora_bad; solo; notes; aurora_old].

(** An interpreter that knows the ASCII digits only. *)
Definition interpreter : Interpreter :=
  mkInterpreter (fun _ => false) (fun _ => Raise ValueError).

(** An interpreter whose tables know the superscript two (a digit that
    is no decimal) and the Arabic-Indic three (a decimal digit). *)
Definition interpreter_unicode : Interpreter :=
  mkInterpreter
    (fun s => (String.eqb s "²" || String.eqb s "٣")%bool)
    (fun s => if String.eqb s "٣" then Ok 3 else Raise ValueError).

Definition inputs_plain : Inputs :=
  mkInputs "shop.example" "token" "2024-10" false "" false.

Definition inputs_dup : Inputs :=
  mkInputs "shop.example" "token" "2024-10" true "aurora-01" true.

Definition shop : string := base_url inputs_plain.

Definition ok_response (v : value) : Response := mkResponse 200 "OK" "" (Some v).

(** A small store: what it lists, and which product titles it refuses. *)
Record Store : Type := mkStore {
  frontpage : list value;
  smart_by_title : string -> list value;
  custom_by_title : string -> list value;
  template : value;
  template_collects : list value;
  refuses : value -> bool
}.

Definition title_in (payload : option value) (key : string) : value :=
  match payload with
  | Some (VDict d) =>
      match lookup key d with
      | Some (VDict p) => match lookup "title" p with Some t => t | None => VNone end
      | _ => VNone
      end
  | _ => VNone
  end.

Definition str_of (v : option value) : string :=
  match v with Some (VStr s) => s | _ => EmptyString end.

Definition serve (s : Store) : Server :=
  fun history rq =>
    let n := Z.of_nat (List.length history) in
    let u := req_url rq in
    match req_verb rq with
    | GET =>
        if String.eqb u (shop ++ "/custom_collections.json") then
          match lookup "handle" (req_params rq) with
          | Some _ => Some (ok_response (VDict [("custom_collections", VList (frontpage s))]))
          | None =>
              Some (ok_response
                      (VDict [("custom_collections",
                               VList (custom_by_title s (str_of (lookup "title" (req_params rq)))))]))
          end
        else if String.eqb u (shop ++ "/smart_collections.json") then
          Some (ok_response
                  (VDict [("smart_collections",
                           VList (smart_by_title s (str_of (lookup "title" (req_params rq)))))]))
        else if String.eqb u (shop ++ "/collects.json") then
          Some (ok_response (VDict [("collects", VList (template_collects s))]))
        else if String.eqb u (shop ++ "/products.json") then
          Some (ok_response (VDict [("products", VList [template s])]))
        else Some (mkResponse 404 "Not Found" u None)
    | POST =>
        if String.eqb u (shop ++ "/custom_collections.json") then
          Some (ok_response
                  (VDict [("custom_collection",
                           VDict [("id", VInt (900 + n));
                                  ("title", title_in (req_json rq) "custom_collection")])]))
        else if String.eqb u (shop ++ "/collects.json") then
          Some (ok_response (VDict [("collect", VDict [("id", VInt (500 + n))])]))
        else if String.eqb u (shop ++ "/products.json") then
          if refuses s (title_in (req_json rq) "product") then
            Some (mkResponse 422 "Unprocessable Entity" u
                    (Some (VDict [("errors", VStr "title is reserved")])))
          else
            Some (ok_response
                    (VDict [("product",
                             VDict [("id", VInt (1000 + n));
                                    ("title", title_in (req_json rq) "product");
                                    ("handle", VStr "h"); ("status", VStr "active")])]))
        else Some (mkResponse 404 "Not Found" u None)
    end.

Definition none_listed (_ : string) : list value := [].

Definition collection (i : Z) (title : string) : value :=
  VDict [("id", VInt i); ("title", VStr title)].

Definition source_product : value :=
  VDict [("id", VInt 42); ("title", VStr "Aurora"); ("body_html", VStr "<p>src</p>");
         ("vendor", VStr "Solar Screen"); ("product_type", VStr "Film");
         ("tags", VStr "deco"); ("handle", VStr "aurora-01");
         ("options", VList [VDict [("id", VInt 7); ("product_id", VInt 42);
                                   ("name", VStr "Size"); ("position", VInt 1);
                                   ("values", VList [VStr "S"])]]);
         ("variants", VList [VDict [("id", VInt 8); ("product_id", VInt 42);
                                    ("title", VStr "S"); ("price", VStr "9.90");
                                    ("position", VInt 1); ("image_id", VNone);
                                    ("created_at", VStr "2024-01-01");
                                    ("updated_at", VStr "2024-01-02");
                                    ("admin_graphql_api_id", VStr "gid://shopify/ProductVariant/8");
                                    ("sku", VStr "AU-S")]])].

Definition refuse_title (t : string) (v : value) : bool :=
  match v with VStr s => String.eqb s t | _ => false end.

(** A store with the default collection, one smart collection, and which
    refuses the product of model "B". *)
Definition store_plain : Store :=
  mkStore [collection 11 "Home page"]
          (fun t => if String.eqb t "Decorative" then [collection 21 t] else [])
          (fun t => if String.eqb t "Homepage" then [collection 31 t] else [])
          VNone [] (refuse_title (title_of "B")).

(** A store without the default collection, where "Homepage" is a custom
    collection. *)
Definition store_custom : Store :=
  mkStore [] none_listed
          (fun t => if String.eqb t "Homepage" then [collection 31 t] else [])
          VNone [] (fun _ => false).

(** A store without any collection. *)
Definition store_empty : Store :=
  mkStore [] none_listed none_listed VNone [] (fun _ => false).

(** A store whose template product belongs to no collection. *)
Definition store_dup_orphan : Store :=
  mkStore [collection 11 "Home page"] none_listed none_listed
          source_product [] (fun _ => false).

(** A store whose template product belongs to collection 77. *)
Definition store_dup : Store :=
  mkStore [collection 11 "Home page"] none_listed none_listed
          source_product [VDict [("id", VInt 1); ("collection_id", VInt 77)]]
          (refuse_title (title_of "B")).

(** A store that is down: every request is answered 503, without JSON. *)
Definition serve_down : Server :=
  fun _ rq => Some (mkResponse 503 "Service Unavailable" (req_url rq) None).

Definition group (name : string) : ModelGroup :=
  mkModelGroup name
    [VDict [("attachment", VStr "TQ=="); ("filename", VStr "a.jpg"); ("position", VInt 1)]]
    [].

Definition three_models : list ModelGroup := [group "A"; group "B"; group "C"].

End Fixtures.

(* ------------------------------------------------------------------ *)
(** ** Vocabulary of the statements *)

Module Notions.
Import Py Client Extractor Batch.

(** The key [human_ts] ends up computing for a timestamp. *)
Definition ts_key (mktime : datetime -> option Z) (dt_tuple : list Z) : Z :=
  match to_epoch mktime dt_tuple with Ok t => t | Raise _ => 0 end.

(** The timestamp of the entry does not convert. *)
Definition ts_fails (mktime : datetime -> option Z) (i : ZipInfo) : bool :=
  match to_epoch mktime (date_time i) with Ok _ => false | Raise _ => true end.

(** A folder's entries decorated with their keys, sorted, undecorated. *)
Definition ordered (mktime : datetime -> option Z) (infos : list ZipInfo)
    : list ZipInfo :=
  map snd (sort_decorated Z.leb
             (map (fun i => (ts_key mktime (date_time i), i)) infos)).

(** The archive entries the first loop files under [folder]. *)
Definition grouped_under (folder : string) (info : ZipInfo) : bool :=
  (negb (is_dir info) && is_image (filename info)
   && (2 <=? List.length (PyStr.split_on "/" (filename info)))%nat
   && String.eqb (PyStr.strip (hd EmptyString (PyStr.split_on "/" (filename info)))) folder)%bool.

Definition folder_entries (infolist : list ZipInfo) (folder : string) : list ZipInfo :=
  filter (grouped_under folder) infolist.

(** A dictionary without the keys of [drop_keys], the rest in place. *)
Definition without (drop_keys : list string) (d : dict) : dict :=
  filter (fun kv => negb (mem (fst kv) drop_keys)) d.

(** Ascending keys, for decorated entries. *)
Definition key_le {A} (x y : Z * A) : Prop := fst x <= fst y.

(** The four requests [ensure_collection] can send for a title. *)
Definition front_request (base : string) : Request :=
  mkRequest GET (base ++ "/custom_collections.json")
    [("handle", VStr "frontpage"); ("limit", VInt 1)] None.

Definition smart_request (base title : string) : Request :=
  mkRequest GET (base ++ "/smart_collections.json")
    [("title", VStr title); ("limit", VInt 1)] None.

Definition custom_request (base title : string) : Request :=
  mkRequest GET (base ++ "/custom_collections.json")
    [("title", VStr title); ("limit", VInt 1)] None.

Definition create_request (base title : string) : Request :=
  mkRequest POST (base ++ "/custom_collections.json") []
    (Some (VDict [("custom_collection", VDict [("title", VStr title)])])).

(** The title is one of the names of the storefront default. *)
Definition is_alias (title : string) : bool :=
  mem (PyStr.lower (PyStr.strip title)) FRONTPAGE_ALIASES.

(** A successful answer that lists the collections [cs] under [key]
    (none when the key is missing). *)
Definition lists (key : string) (r : Response) (cs : list value) : Prop :=
  raise_for_status r = Ok tt
  /\ exists j, body r = Some j /\ get_default j key (VList []) = Ok (VList cs).

(** A successful answer to the creation, carrying the new id [i]. *)
Definition created (r : Response) (i : value) : Prop :=
  raise_for_status r = Ok tt
  /\ exists j c, body r = Some j
       /\ getitem_str j "custom_collection" = Ok c /\ getitem_str c "id" = Ok i.

(** The head of [ensure_collection] did not return: the title is no alias,
    or the store lists no collection with handle "frontpage"; [log1] is
    the log at that point. *)
Definition unresolved (server : Server) (base title : string)
    (log log1 : list Request) : Prop :=
  (is_alias title = false /\ log1 = log)
  \/ (is_alias title = true
      /\ exists r, server log (front_request base) = Some r
           /\ lists "custom_collections" r []
           /\ log1 = (log ++ [front_request base])%list).

(** The request [create_product] sends for a product body. *)
Definition product_request (base : string) (product_body : dict) : Request :=
  mkRequest POST (base ++ "/products.json") []
    (Some (VDict [("product", VDict product_body)])).

(** The request creates a collect association. *)
Definition creates_collect (base : string) (rq : Request) : Prop :=
  req_verb rq = POST /\ req_url rq = base ++ "/collects.json".

(** The request looks a collection up, or creates one. *)
Definition resolves_collection (base : string) (rq : Request) : Prop :=
  req_url rq = base ++ "/custom_collections.json"
  \/ req_url rq = base ++ "/smart_collections.json".

(** The request neither creates a collect nor touches a collection. *)
Definition harmless (base : string) (rq : Request) : Prop :=
  ~ creates_collect base rq /\ ~ resolves_collection base rq.

(** Every request the computation adds to the log satisfies [P]. *)
Definition emits {A} (P : Request -> Prop) (m : M A) : Prop :=
  forall log r log', m log = (r, log') ->
    exists extra, log' = (log ++ extra)%list /\ Forall P extra.

(** What the [try] of each model yields, the models taken in order and
    the log threaded through, whatever the outcomes are. *)
Fixpoint attempts (server : Server) (inp : Inputs) (f : PyFunction) (st : Setup)
    (models : list ModelGroup) (log : list Request) : list (res dict) :=
  match models with
  | [] => []
  | m :: rest =>
      let out := try_model server inp f st m log in
      fst out :: attempts server inp f st rest (snd out)
  end.

(** The record the loop appends for an attempt that returned or raised
    an HTTP error. *)
Definition record_of (ma : ModelGroup * res dict) : dict :=
  match snd ma with
  | Ok record => record
  | Raise (HTTPError r) => error_record (model (fst ma)) r
  | Raise _ => []
  end.

Definition returned_or_http (a : res dict) : Prop :=
  match a with
  | Ok _ => True
  | Raise (HTTPError _) => True
  | Raise _ => False
  end.

Definition raised_http (a : res dict) : bool :=
  match a with Raise (HTTPError _) => true | _ => false end.

Definition is_error_record (record : dict) : bool :=
  match lookup "Errore" record with Some _ => true | None => false end.

(** The single requests of the other client methods. *)
Definition collect_request (base : string) (product_id collection_id : value) : Request :=
  mkRequest POST (base ++ "/collects.json") []
    (Some (VDict [("collect", VDict [("product_id", product_id);
                                     ("collection_id", collection_id)])])).

Definition collects_query (base : string) (product_id : value) : Request :=
  mkRequest GET (base ++ "/collects.json")
    [("product_id", product_id); ("limit", VInt 250)] None.

Definition product_by_id_request (base : string) (pid : Z) : Request :=
  mkRequest GET (base ++ "/products/" ++ PyStr.str_int pid ++ ".json") [] None.

Definition product_by_handle_request (base handle : string) : Request :=
  mkRequest GET (base ++ "/products.json")
    [("handle", VStr handle); ("limit", VInt 1)] None.

(** The request creates a product or a collect. *)
Definition is_creation (base : string) (rq : Request) : Prop :=
  req_verb rq = POST
  /\ (req_url rq = base ++ "/products.json" \/ req_url rq = base ++ "/collects.json").

Definition is_dict (v : value) : bool :=
  match v with VDict _ => true | _ => false end.

(** The folder an entry is filed under, and whether it is filed at all. *)
Definition folder_key (info : ZipInfo) : string :=
  PyStr.strip (hd EmptyString (PyStr.split_on "/" (filename info))).

Definition filed (info : ZipInfo) : bool :=
  (negb (is_dir info) && is_image (filename info)
   && (2 <=? List.length (PyStr.split_on "/" (filename info)))%nat)%bool.

(** The names of a list in the order of their first occurrence. *)
Definition first_seen (names : list string) : list string :=
  fold_left (fun seen k => if existsb (String.eqb k) seen then seen
                           else (seen ++ [k])%list) names [].

(** [zf.read] returns on the entry. *)
Definition readable (info : ZipInfo) : bool :=
  match read info with Ok _ => true | Raise _ => false end.

(** The entries of a folder that make it into its group: the first two
    in sorted order. *)
Definition retained (mktime : datetime -> option Z) (infolist : list ZipInfo)
    (folder : string) : list ZipInfo :=
  firstn 2 (ordered mktime (folder_entries infolist folder)).

(** The groups [parse_zip_models] returns when it returns: one for each
    folder of the first loop, built from the entries filed under it. *)
Definition extracted (mktime : datetime -> option Z) (infolist : list ZipInfo)
    : list ModelGroup :=
  map (fun entry =>
         mkModelGroup (fst entry)
           (map (fun '(pos, info) => image_payload pos info)
                (enumerate 1 (firstn 2 (ordered mktime
                                          (folder_entries infolist (fst entry))))))
           (if (List.length (folder_entries infolist (fst entry)) =? 2)%nat then []
            else [count_warning (fst entry)
                    (List.length (folder_entries infolist (fst entry)))]))
      (scan infolist).

(** The caption of a retained entry in the preview. *)
Definition caption_of (pos : Z) (info : ZipInfo) : string :=
  PyStr.basename (filename info) ++ " (pos " ++ PyStr.str_int pos ++ ")".

(** What the preview hands to [col.image] for a folder: the bytes of the
    retained entries, each with its caption. *)
Definition shown (mktime : datetime -> option Z) (infolist : list ZipInfo)
    (folder : string) : list (list byte * string) :=
  map (fun '(pos, info) => (data info, caption_of pos info))
      (enumerate 1 (retained mktime infolist folder)).

(** No slash in the string. *)
Fixpoint slash_free (s : string) : bool :=
  match s with
  | EmptyString => true
  | String c r => (negb (Ascii.eqb c "/") && slash_free r)%bool
  end.

Definition results_of (out : res unit * list dict * list Request) : list dict :=
  snd (fst out).

Definition log_of (out : res unit * list dict * list Request) : list Request :=
  snd out.

Definition outcome_of (out : res unit * list dict * list Request) : res unit :=
  fst (fst out).

End Notions.

(* ------------------------------------------------------------------ *)
(** ** The extractor *)

Module ExtractorSpec.
Import Py Extractor Notions.

Section SortFacts.
Context {A : Type}.
Implicit Types (x : Z * A) (l : list (Z * A)).

Lemma insert_perm x l : Permutation (insert Z.leb x l) (x :: l).
Proof.
  induction l as [|y r IH]; simpl; [reflexivity|].
  destruct (fst x <=? fst y); [reflexivity|].
  rewrite IH. apply perm_swap.
Qed.

Lemma sort_decorated_perm l : Permutation (sort_decorated Z.leb l) l.
Proof.
  induction l as [|x r IH]; simpl; [constructor|].
  rewrite insert_perm. now constructor.
Qed.

Lemma sort_decorated_In x l : In x (sort_decorated Z.leb l) <-> In x l.
Proof.
  split; apply Permutation_in;
    [apply sort_decorated_perm | symmetry; apply sort_decorated_perm].
Qed.

Lemma sort_decorated_length l : List.length (sort_decorated Z.leb l) = List.length l.
Proof. apply Permutation_length, sort_decorated_perm. Qed.

Lemma insert_sorted x l :
  Sorted key_le l -> Sorted key_le (insert Z.leb x l).
Proof.
  induction 1 as [|y r Hs IH Hhd]; simpl.
  - repeat constructor.
  - destruct (fst x <=? fst y) eqn:E.
    + constructor; [now constructor|]. constructor. unfold key_le. lia.
    + constructor; [exact IH|].
      destruct r as [|z r']; simpl.
      * constructor. unfold key_le. lia.
      * destruct (fst x <=? fst z); constructor; unfold key_le.
        -- lia.
        -- inversion Hhd; subst. assumption.
Qed.

(** The output is ascending in the key. *)
Lemma sort_decorated_sorted l : Sorted key_le (sort_decorated Z.leb l).
Proof.
  induction l as [|x r IH]; simpl; [constructor|]. now apply insert_sorted.
Qed.

Lemma filter_key_insert k x l :
  filter (fun y => fst y =? k) (insert Z.leb x l)
  = if fst x =? k then x :: filter (fun y => fst y =? k) l
    else filter (fun y => fst y =? k) l.
Proof.
  induction l as [|y r IH]; simpl.
  - destruct (fst x =? k); reflexivity.
  - destruct (fst x <=? fst y) eqn:E; simpl.
    + destruct (fst x =? k); reflexivity.
    + rewrite IH. destruct (fst x =? k) eqn:Ex; [|reflexivity].
      assert ((fst y =? k) = false) as -> by lia. reflexivity.
Qed.

(** Stability: entries sharing a key keep their original order. *)
Lemma sort_decorated_stable k l :
  filter (fun y => fst y =? k) (sort_decorated Z.leb l)
  = filter (fun y => fst y =? k) l.
Proof.
  induction l as [|x r IH]; simpl; [reflexivity|].
  rewrite filter_key_insert, IH. reflexivity.
Qed.

Lemma insert_least x l :
  Forall (fun y => fst x <= fst y) l -> insert Z.leb x l = x :: l.
Proof.
  destruct 1 as [|y r Hy _]; simpl; [reflexivity|].
  assert ((fst x <=? fst y) = true) as -> by lia. reflexivity.
Qed.

Lemma insert_past x l1 l2 :
  Forall (fun y => fst y < fst x) l1 ->
  insert Z.leb x (l1 ++ l2) = (l1 ++ insert Z.leb x l2)%list.
Proof.
  induction 1 as [|y r Hy _ IH]; simpl; [reflexivity|].
  assert ((fst x <=? fst y) = false) as -> by lia. now rewrite IH.
Qed.

(** With no negative key, the entries of key 0 come out first, in their
    original order, followed by the others sorted. *)
Lemma sort_decorated_zero_first l :
  Forall (fun y => 0 <= fst y) l ->
  sort_decorated Z.leb l
  = (filter (fun y => fst y =? 0) l
     ++ sort_decorated Z.leb (filter (fun y => negb (fst y =? 0)) l))%list.
Proof.
  induction 1 as [|x r Hx Hr IH]; simpl; [reflexivity|].
  rewrite IH. destruct (fst x =? 0) eqn:E; simpl.
  - apply insert_least. apply Forall_app; split.
    + apply Forall_forall. intros y Hy. apply filter_In in Hy. lia.
    + apply Forall_forall. intros y Hy.
      apply sort_decorated_In, filter_In in Hy.
      rewrite Forall_forall in Hr. specialize (Hr y (proj1 Hy)). lia.
  - apply insert_past. apply Forall_forall. intros y Hy.
    apply filter_In in Hy. lia.
Qed.
End SortFacts.

Section Conversion.
Variable mktime : datetime -> option Z.

Lemma check_fields_exn dt e : check_fields dt = Raise e -> is_Exception e = true.
Proof.
  unfold check_fields. destruct (_ && _)%bool; [discriminate|].
  intros [= <-]. reflexivity.
Qed.

Lemma datetime_new_exn args e : datetime_new args = Raise e -> is_Exception e = true.
Proof.
  unfold datetime_new.
  destruct args as [|y [|m [|d [|h [|mi [|s [|us [|tz r]]]]]]]];
    try (intros [= <-]; reflexivity); apply check_fields_exn.
Qed.

Lemma to_epoch_exn dt_tuple e :
  to_epoch mktime dt_tuple = Raise e -> is_Exception e = true.
Proof.
  unfold to_epoch, bind.
  destruct (datetime_new dt_tuple) as [dt|e'] eqn:E.
  - destruct (mktime dt); [discriminate|]. intros [= <-]. reflexivity.
  - intros [= <-]. eapply datetime_new_exn, E.
Qed.

(** [human_ts] always returns, and returns the key [ts_key]. *)
Lemma human_ts_returns dt_tuple :
  human_ts mktime dt_tuple = Ok (ts_key mktime dt_tuple).
Proof.
  unfold human_ts, ts_key.
  destruct (to_epoch mktime dt_tuple) as [t|e] eqn:E; [reflexivity|].
  now rewrite (to_epoch_exn _ _ E).
Qed.

Lemma mapM_human_ts (infos : list ZipInfo) :
  mapM (fun i => human_ts mktime (date_time i)) infos
  = Ok (map (fun i => ts_key mktime (date_time i)) infos).
Proof.
  induction infos as [|i r IH]; simpl; [reflexivity|].
  now rewrite human_ts_returns, IH.
Qed.

Lemma combine_map_self {X Y} (f : X -> Y) (l : list X) :
  combine (map f l) l = map (fun x => (f x, x)) l.
Proof. induction l as [|x r IH]; simpl; [reflexivity|]. now rewrite IH. Qed.

Lemma sorted_human_ts infos :
  sorted Z.leb (fun i => human_ts mktime (date_time i)) infos = Ok (ordered mktime infos).
Proof.
  unfold sorted, ordered. rewrite mapM_human_ts. simpl.
  now rewrite combine_map_self.
Qed.

Lemma order_entries_returns infos :
  order_entries mktime infos = Ok (ordered mktime infos, []).
Proof. unfold order_entries. now rewrite sorted_human_ts. Qed.

Lemma ordered_perm infos : Permutation (ordered mktime infos) infos.
Proof.
  unfold ordered.
  rewrite sort_decorated_perm, map_map. simpl. now rewrite map_id.
Qed.

Lemma ordered_length infos : List.length (ordered mktime infos) = List.length infos.
Proof. apply Permutation_length, ordered_perm. Qed.

Lemma ordered_In i infos : In i (ordered mktime infos) <-> In i infos.
Proof.
  split; apply Permutation_in; [apply ordered_perm | symmetry; apply ordered_perm].
Qed.

(** *** The first loop: grouping *)

Lemma filter_snoc {X} (p : X -> bool) (l : list X) (x : X) :
  filter p (l ++ [x]) = (filter p l ++ if p x then [x] else [])%list.
Proof. rewrite filter_app. reflexivity. Qed.

Lemma setdefault_append_keys folder info folders :
  map fst (setdefault_append folder info folders)
  = if existsb (String.eqb folder) (map fst folders) then map fst folders
    else (map fst folders ++ [folder])%list.
Proof.
  induction folders as [|[f infos] r IH]; simpl; [reflexivity|].
  destruct (String.eqb folder f) eqn:E; simpl; [reflexivity|].
  rewrite IH. destruct (existsb _ _); reflexivity.
Qed.

Lemma setdefault_append_NoDup folder info folders :
  NoDup (map fst folders) -> NoDup (map fst (setdefault_append folder info folders)).
Proof.
  intros H. rewrite setdefault_append_keys.
  destruct (existsb (String.eqb folder) (map fst folders)) eqn:E; [exact H|].
  apply NoDup_app; [exact H | repeat constructor; intros [] | ].
  intros x Hx [Heq|[]]. subst x.
  assert (existsb (String.eqb folder) (map fst folders) = true); [|congruence].
  apply existsb_exists. exists folder. split; [exact Hx | apply String.eqb_refl].
Qed.

Lemma setdefault_append_In k x folders f infos :
  NoDup (map fst folders) ->
  In (f, infos) (setdefault_append k x folders) ->
  (f <> k /\ In (f, infos) folders)
  \/ (f = k /\ ((exists old, In (k, old) folders /\ infos = (old ++ [x])%list)
               \/ (~ In k (map fst folders) /\ infos = [x]))).
Proof.
  induction folders as [|[g gi] r IH]; simpl; intros Hnd Hin.
  - destruct Hin as [[= <- <-]|[]]. right. split; [reflexivity|]. right. auto.
  - inversion Hnd as [|? ? Hg Hr]; subst.
    destruct (String.eqb k g) eqn:E.
    + apply String.eqb_eq in E. subst g.
      destruct Hin as [[= <- <-]|Hin].
      * right. split; [reflexivity|]. left. exists gi. auto.
      * left. split; [|auto]. intros ->. apply Hg.
        change k with (fst (k, infos)). now apply in_map.
    + apply String.eqb_neq in E.
      destruct Hin as [[= <- <-]|Hin].
      * left. split; [congruence | auto].
      * destruct (IH Hr Hin) as [[Hne Hold]|[-> [(old & Hold & ->)|[Hfresh ->]]]].
        -- left. auto.
        -- right. split; [reflexivity|]. left. exists old. auto.
        -- right. split; [reflexivity|]. right. split; [|reflexivity].
           intros [?|?]; [congruence | auto].
Qed.

Lemma scan_entry_skip folders x :
  (forall f, grouped_under f x = false) -> scan_entry folders x = folders.
Proof.
  intros H. unfold scan_entry.
  destruct (is_dir x) eqn:Ed; [reflexivity|].
  destruct (is_image (filename x)) eqn:Ei; [simpl|reflexivity].
  destruct (List.length (PyStr.split_on "/" (filename x)) <? 2)%nat eqn:El;
    [reflexivity|].
  specialize (H (PyStr.strip (hd EmptyString (PyStr.split_on "/" (filename x))))).
  unfold grouped_under in H.
  apply Nat.ltb_ge in El. apply Nat.leb_le in El.
  rewrite Ed, Ei, El, String.eqb_refl in H. discriminate.
Qed.

Lemma scan_entry_add folders x k :
  grouped_under k x = true -> scan_entry folders x = setdefault_append k x folders.
Proof.
  unfold grouped_under, scan_entry. intros H.
  apply andb_prop in H as [H Hk]. apply andb_prop in H as [H Hl].
  apply andb_prop in H as [Hd Hi].
  apply negb_true_iff in Hd. apply String.eqb_eq in Hk. apply Nat.leb_le in Hl.
  rewrite Hd, Hi. simpl.
  assert ((List.length (PyStr.split_on "/" (filename x)) <? 2)%nat = false) as ->
    by (apply Nat.ltb_ge; exact Hl).
  now rewrite Hk.
Qed.

Lemma grouped_under_unique k f x :
  grouped_under k x = true -> f <> k -> grouped_under f x = false.
Proof.
  unfold grouped_under. intros H Hne.
  apply andb_prop in H as [_ Hk]. apply String.eqb_eq in Hk.
  apply andb_false_iff. right. apply String.eqb_neq. congruence.
Qed.

Lemma grouped_under_cases x :
  (forall f, grouped_under f x = false) \/ (exists k, grouped_under k x = true).
Proof.
  destruct (grouped_under
              (PyStr.strip (hd EmptyString (PyStr.split_on "/" (filename x)))) x) eqn:E.
  - right. eauto.
  - left. intros f. unfold grouped_under in *.
    rewrite String.eqb_refl, andb_true_r in E. rewrite E. reflexivity.
Qed.

(** After the first loop: the folder names are distinct, each one holds
    exactly the entries filed under it, in archive order, and no folder
    with an entry is missing. *)
Lemma scan_groups infolist :
  NoDup (map fst (scan infolist))
  /\ (forall f infos, In (f, infos) (scan infolist) ->
        infos = folder_entries infolist f /\ infos <> [])
  /\ (forall f, ~ In f (map fst (scan infolist)) -> folder_entries infolist f = []).
Proof.
  unfold scan, folder_entries.
  induction infolist as [|x l IH] using rev_ind; simpl.
  - split; [constructor|]. split; [intros ? ? []|reflexivity].
  - rewrite fold_left_app. simpl.
    destruct IH as (Hnd & Hin & Hout).
    destruct (grouped_under_cases x) as [Hskip|[k Hk]].
    + rewrite (scan_entry_skip _ _ Hskip).
      split; [exact Hnd|]. split.
      * intros f infos H. rewrite filter_snoc, Hskip, app_nil_r. now apply Hin.
      * intros f H. rewrite filter_snoc, Hskip, app_nil_r. now apply Hout.
    + rewrite (scan_entry_add _ _ _ Hk).
      split; [now apply setdefault_append_NoDup|]. split.
      * intros f infos H. rewrite filter_snoc.
        destruct (setdefault_append_In _ _ _ _ _ Hnd H)
          as [[Hne Hold]|[-> [(old & Hold & ->)|[Hfresh ->]]]].
        -- rewrite (grouped_under_unique _ _ _ Hk Hne), app_nil_r. now apply Hin.
        -- rewrite Hk. destruct (Hin _ _ Hold) as [-> _].
           split; [reflexivity|]. intros C. now apply app_eq_nil in C as [_ [=]].
        -- rewrite Hk, (Hout _ Hfresh). split; [reflexivity | discriminate].
      * intros f H. rewrite filter_snoc.
        rewrite setdefault_append_keys in H.
        assert (f <> k /\ ~ In f (map fst (fold_left scan_entry l []))) as [Hne Hf].
        { destruct (existsb (String.eqb k) (map fst (fold_left scan_entry l []))) eqn:E.
          - split; [|exact H]. intros ->. apply H.
            apply existsb_exists in E as (y & Hy & Ey).
            apply String.eqb_eq in Ey. now subst y.
          - split; intros C; apply H; apply in_or_app; [right; left; congruence | now left]. }
        now rewrite (grouped_under_unique _ _ _ Hk Hne), app_nil_r, (Hout _ Hf).
Qed.

(** *** The second loop: ordering, count rule, payloads *)

Lemma filter_all_true {X} (p : X -> bool) (l : list X) :
  (forall x, In x l -> p x = true) -> filter p l = l.
Proof.
  induction l as [|x r IH]; simpl; intros H; [reflexivity|].
  rewrite (H x (or_introl eq_refl)), IH; auto.
Qed.

Lemma mapM_returns {X Y} (f : X -> res Y) (g : X -> Y) (l : list X) :
  (forall x, In x l -> f x = Ok (g x)) -> mapM f l = Ok (map g l).
Proof.
  induction l as [|x r IH]; simpl; intros H; [reflexivity|].
  rewrite (H x (or_introl eq_refl)), IH; auto.
Qed.

Lemma mapM_Ok {X Y} (f : X -> res Y) (l : list X) (ys : list Y) :
  mapM f l = Ok ys -> Forall2 (fun x y => f x = Ok y) l ys.
Proof.
  revert ys. induction l as [|x r IH]; simpl; intros ys H.
  - injection H as <-. constructor.
  - destruct (f x) as [y|e] eqn:E; [|discriminate]. simpl in H.
    destruct (mapM f r) as [zs|e]; [|discriminate]. simpl in H.
    injection H as <-. constructor; [exact E | now apply IH].
Qed.

Lemma mapM_Raise {X Y} (f : X -> res Y) (l : list X) (e : exn) :
  mapM f l = Raise e -> exists x, In x l /\ f x = Raise e.
Proof.
  induction l as [|x r IH]; simpl; [discriminate|].
  destruct (f x) as [y|e'] eqn:E; simpl.
  - destruct (mapM f r) as [zs|e'']; simpl; [discriminate|].
    intros [= ->]. destruct (IH eq_refl) as (z & Hz & Hf).
    exists z. split; [now right | exact Hf].
  - intros [= ->]. exists x. split; [now left | exact E].
Qed.

Lemma Forall2_map_eq {X Y} (g : X -> Y) (R : X -> Y -> Prop) (l : list X) (ys : list Y) :
  Forall2 R l ys -> (forall x y, In x l -> R x y -> y = g x) -> ys = map g l.
Proof.
  induction 1 as [|x y l ys Hxy Hl IH]; simpl; intros H; [reflexivity|].
  f_equal; [apply H; [now left | exact Hxy]|].
  apply IH. intros x' y' Hin. apply H. now right.
Qed.

Lemma Forall2_In_l {X Y} (R : X -> Y -> Prop) (l : list X) (ys : list Y) x :
  Forall2 R l ys -> In x l -> exists y, R x y.
Proof.
  induction 1 as [|x' y l ys Hxy Hl IH]; simpl; [intros []|].
  intros [<-|Hin]; [now exists y | now apply IH].
Qed.

(** *** Reading an entry *)

Lemma read_payload_Ok pos info v :
  read_payload (pos, info) = Ok v ->
  v = image_payload pos info /\ readable info = true.
Proof.
  unfold read_payload, image_payload, readable, data, read, bind.
  destruct (content info) as [raw|e]; [|discriminate].
  intros [= <-]. split; reflexivity.
Qed.

Lemma read_payload_readable pos info :
  readable info = true -> read_payload (pos, info) = Ok (image_payload pos info).
Proof.
  unfold read_payload, image_payload, readable, data, read, bind.
  destruct (content info) as [raw|e]; [reflexivity | discriminate].
Qed.

Lemma read_payload_Raise pos info e :
  read_payload (pos, info) = Raise e -> read info = Raise e.
Proof.
  unfold read_payload, read, bind.
  destruct (content info) as [raw|e']; [discriminate | now intros [= ->]].
Qed.

Lemma readable_data info : readable info = true -> read info = Ok (data info).
Proof.
  unfold readable, data, read.
  destruct (content info); [reflexivity | discriminate].
Qed.

Lemma In_enumerate {X} (l : list X) start pos x :
  In (pos, x) (enumerate start l) -> In x l.
Proof.
  revert start. induction l as [|y r IH]; simpl; intros start; [intros []|].
  intros [[= _ ->]|H]; [now left | right; eapply IH; exact H].
Qed.

Lemma In_firstn {X} (n : nat) (l : list X) x : In x (firstn n l) -> In x l.
Proof.
  revert n. induction l as [|y r IH]; intros [|n]; simpl; try tauto.
  intros [->|H]; [now left | right; eapply IH; exact H].
Qed.

(** *** One folder *)

Lemma build_model_unfold folder infos :
  (forall i, In i infos -> is_image (filename i) = true) ->
  build_model mktime (folder, infos)
  = bind (mapM read_payload (enumerate 1 (firstn 2 (ordered mktime infos))))
         (fun images_payload =>
            Ok (mkModelGroup folder images_payload
                  (if (List.length infos =? 2)%nat then []
                   else [count_warning folder (List.length infos)]))).
Proof.
  intros Himg. unfold build_model. rewrite order_entries_returns. simpl.
  unfold retain.
  rewrite filter_all_true
    by (intros i Hi; apply Himg; exact (proj1 (ordered_In i infos) Hi)).
  rewrite ordered_length.
  destruct (List.length infos =? 2)%nat eqn:E; simpl; [|reflexivity].
  apply Nat.eqb_eq in E. rewrite <- (ordered_length infos) in E.
  destruct (ordered mktime infos) as [|a [|b [|c r]]]; simpl in E;
    try discriminate; reflexivity.
Qed.

Lemma payloads_Ok (l : list (Z * ZipInfo)) (vs : list value) :
  mapM read_payload l = Ok vs ->
  vs = map (fun '(pos, info) => image_payload pos info) l
  /\ (forall pos i, In (pos, i) l -> readable i = true).
Proof.
  intros H. apply mapM_Ok in H. split.
  - apply (Forall2_map_eq _ _ _ _ H). intros [pos i] v _ Hv.
    now apply read_payload_Ok in Hv.
  - intros pos i Hin. destruct (Forall2_In_l _ _ _ _ H Hin) as [v Hv].
    now apply read_payload_Ok in Hv.
Qed.

Lemma payloads_readable (l : list (Z * ZipInfo)) :
  (forall pos i, In (pos, i) l -> readable i = true) ->
  mapM read_payload l = Ok (map (fun '(pos, info) => image_payload pos info) l).
Proof.
  intros H. apply mapM_returns. intros [pos i] Hin.
  apply read_payload_readable. eapply H. exact Hin.
Qed.

Lemma build_model_Ok folder infos g :
  (forall i, In i infos -> is_image (filename i) = true) ->
  build_model mktime (folder, infos) = Ok g ->
  g = mkModelGroup folder
        (map (fun '(pos, info) => image_payload pos info)
             (enumerate 1 (firstn 2 (ordered mktime infos))))
        (if (List.length infos =? 2)%nat then []
         else [count_warning folder (List.length infos)])
  /\ (forall i, In i (firstn 2 (ordered mktime infos)) -> readable i = true).
Proof.
  intros Himg. rewrite (build_model_unfold _ _ Himg). unfold bind.
  destruct (mapM read_payload _) as [vs|e] eqn:E; [|discriminate].
  intros [= <-]. apply payloads_Ok in E as [-> Hread]. split; [reflexivity|].
  intros i Hi.
  destruct (In_nth_error _ _ Hi) as [n Hn].
  apply (Hread (1 + Z.of_nat n) i).
  eapply nth_error_In. 
  instantiate (1 := n).
  clear -Hn. revert n Hn. generalize 1.
  induction (firstn 2 (ordered mktime infos)) as [|y r IH]; intros start [|n]; simpl;
    try discriminate.
  - intros [= ->]. f_equal. f_equal. lia.
  - intros H. rewrite (IH (start + 1) n H). f_equal. f_equal. lia.
Qed.

Lemma build_model_readable folder infos :
  (forall i, In i infos -> is_image (filename i) = true) ->
  (forall i, In i (firstn 2 (ordered mktime infos)) -> readable i = true) ->
  build_model mktime (folder, infos)
  = Ok (mkModelGroup folder
          (map (fun '(pos, info) => image_payload pos info)
               (enumerate 1 (firstn 2 (ordered mktime infos))))
          (if (List.length infos =? 2)%nat then []
           else [count_warning folder (List.length infos)])).
Proof.
  intros Himg Hread. rewrite (build_model_unfold _ _ Himg).
  rewrite payloads_readable; [reflexivity|].
  intros pos i Hin. apply Hread. eapply In_enumerate. exact Hin.
Qed.

Lemma build_model_Raise folder infos e :
  (forall i, In i infos -> is_image (filename i) = true) ->
  build_model mktime (folder, infos) = Raise e ->
  exists i, In i (firstn 2 (ordered mktime infos)) /\ read i = Raise e.
Proof.
  intros Himg. rewrite (build_model_unfold _ _ Himg). unfold bind.
  destruct (mapM read_payload _) as [vs|e'] eqn:E; [discriminate|].
  intros [= ->]. apply mapM_Raise in E as ([pos i] & Hin & Hr).
  exists i. split; [eapply In_enumerate; exact Hin | eapply read_payload_Raise; exact Hr].
Qed.

Lemma folder_entries_images infolist folder i :
  In i (folder_entries infolist folder) -> is_image (filename i) = true.
Proof.
  unfold folder_entries, grouped_under. intros H.
  apply filter_In in H as [_ H].
  apply andb_prop in H as [H _]. apply andb_prop in H as [H _].
  now apply andb_prop in H as [_ H].
Qed.

Lemma folder_entries_filed infolist folder i :
  In i (folder_entries infolist folder) -> In i infolist /\ filed i = true.
Proof.
  unfold folder_entries, grouped_under. intros H.
  apply filter_In in H as [Hin H]. split; [exact Hin|].
  apply andb_prop in H as [H _]. exact H.
Qed.

Lemma retained_filed infolist folder i :
  In i (retained mktime infolist folder) -> In i infolist /\ filed i = true.
Proof.
  unfold retained. intros H. apply In_firstn in H.
  apply (proj1 (ordered_In _ _)) in H. eapply folder_entries_filed. exact H.
Qed.

(** *** The whole archive

    When [parse_zip_models] returns, its groups are those of the first
    loop, each built from the entries filed under its name, and the
    retained entries were read. *)
Lemma parse_zip_models_Ok infolist groups :
  parse_zip_models mktime infolist = Ok groups ->
  groups = extracted mktime infolist
  /\ (forall f i, In f (map fst (scan infolist)) ->
        In i (retained mktime infolist f) -> readable i = true).
Proof.
  unfold parse_zip_models. intros H. apply mapM_Ok in H.
  destruct (scan_groups infolist) as (_ & Hgrp & _).
  split.
  - unfold extracted. apply (Forall2_map_eq _ _ _ _ H).
    intros [f infos] g Hin Hg.
    destruct (Hgrp _ _ Hin) as [-> _]. cbn [fst].
    apply build_model_Ok in Hg as [-> _]; [reflexivity|].
    intros i. apply folder_entries_images.
  - intros f i Hf Hi. apply in_map_iff in Hf as ([f' infos] & <- & Hin).
    destruct (Forall2_In_l _ _ _ _ H Hin) as [g Hg].
    destruct (Hgrp _ _ Hin) as [-> _]. cbn [fst] in Hi.
    apply build_model_Ok in Hg as [_ Hread]; [now apply Hread|].
    intros j. apply folder_entries_images.
Qed.

(** It returns when the retained entries can be read. *)
Lemma parse_zip_models_returns infolist :
  (forall f i, In i (retained mktime infolist f) -> readable i = true) ->
  parse_zip_models mktime infolist = Ok (extracted mktime infolist).
Proof.
  intros Hread. unfold parse_zip_models, extracted.
  apply mapM_returns. intros [f infos] Hin.
  destruct (scan_groups infolist) as (_ & Hgrp & _).
  destruct (Hgrp _ _ Hin) as [-> _]. cbn [fst].
  apply build_model_readable; [intros i; apply folder_entries_images|].
  apply Hread.
Qed.

Lemma parse_zip_models_readable infolist :
  (forall i, In i infolist -> filed i = true -> readable i = true) ->
  parse_zip_models mktime infolist = Ok (extracted mktime infolist).
Proof.
  intros Hread. apply parse_zip_models_returns. intros f i Hi.
  apply retained_filed in Hi as [Hin Hf]. now apply Hread.
Qed.

(** What it raises was raised by [zf.read] on a retained entry. *)
Lemma parse_zip_models_Raise infolist e :
  parse_zip_models mktime infolist = Raise e ->
  exists f i, In i (retained mktime infolist f) /\ In i infolist
              /\ filed i = true /\ read i = Raise e.
Proof.
  unfold parse_zip_models. intros H.
  apply mapM_Raise in H as ([f infos] & Hin & Hb).
  destruct (scan_groups infolist) as (_ & Hgrp & _).
  destruct (Hgrp _ _ Hin) as [-> _].
  apply build_model_Raise in Hb as (i & Hi & Hr);
    [|intros j; apply folder_entries_images].
  exists f, i. split; [exact Hi|].
  destruct (retained_filed _ _ _ Hi) as [H1 H2]. auto.
Qed.

Lemma first_seen_snoc names k :
  first_seen (names ++ [k])%list
  = if existsb (String.eqb k) (first_seen names) then first_seen names
    else (first_seen names ++ [k])%list.
Proof. unfold first_seen. now rewrite fold_left_app. Qed.

(** The folders of the first loop, in the order of their first entry. *)
Lemma scan_first_seen infolist :
  map fst (scan infolist) = first_seen (map folder_key (filter filed infolist)).
Proof.
  unfold scan.
  induction infolist as [|x l IH] using rev_ind; [reflexivity|].
  rewrite fold_left_app, filter_app, map_app. cbn [fold_left filter].
  destruct (filed x) eqn:Ef.
  - assert (Hk : grouped_under (folder_key x) x = true)
      by (unfold grouped_under; fold (filed x); fold (folder_key x);
          now rewrite Ef, String.eqb_refl).
    rewrite (scan_entry_add _ _ _ Hk), setdefault_append_keys.
    cbn [map]. rewrite first_seen_snoc, <- IH. reflexivity.
  - rewrite scan_entry_skip.
    + cbn [map]. now rewrite app_nil_r.
    + intros f. unfold grouped_under. fold (filed x). now rewrite Ef.
Qed.

(** A name is a folder of the first loop exactly when an entry is filed
    under it. *)
Lemma scan_names_iff infolist name :
  In name (map fst (scan infolist))
  <-> exists x, In x infolist /\ filed x = true /\ folder_key x = name.
Proof.
  destruct (scan_groups infolist) as (_ & Hin & Hout).
  assert (Hg : forall x, grouped_under name x = true
                         <-> filed x = true /\ folder_key x = name).
  { intros x. unfold grouped_under, filed, folder_key.
    rewrite andb_true_iff, String.eqb_eq. reflexivity. }
  split.
  - intros H. apply in_map_iff in H as ([f infos] & <- & Hscan).
    destruct (Hin _ _ Hscan) as [-> Hne]. cbn [fst].
    destruct (folder_entries infolist f) as [|x r] eqn:E; [congruence|].
    assert (Hx : In x (folder_entries infolist f)) by (rewrite E; now left).
    apply filter_In in Hx as [Hx1 Hx2]. exists x. split; [exact Hx1|].
    now apply Hg.
  - intros (x & Hx & Hf & Hk).
    destruct (in_dec string_dec name (map fst (scan infolist))) as [H|H]; [exact H|].
    specialize (Hout _ H). exfalso.
    assert (Hin' : In x (folder_entries infolist name))
      by (apply filter_In; split; [exact Hx | now apply Hg]).
    rewrite Hout in Hin'. exact Hin'.
Qed.

Lemma extracted_models infolist :
  map model (extracted mktime infolist)
  = first_seen (map folder_key (filter filed infolist)).
Proof.
  unfold extracted. rewrite map_map. cbn [model]. apply scan_first_seen.
Qed.

Lemma enumerate_length {X} (l : list X) start :
  List.length (enumerate start l) = List.length l.
Proof. revert start. induction l; simpl; intros; [reflexivity|]. now rewrite IHl. Qed.

Lemma enumerate_nth {X} (l : list X) start n x :
  nth_error l n = Some x ->
  nth_error (enumerate start l) n = Some (start + Z.of_nat n, x).
Proof.
  revert start n. induction l as [|y r IH]; intros start [|n]; simpl; try discriminate.
  - intros [= ->]. f_equal. f_equal. lia.
  - intros H. rewrite (IH _ _ H). f_equal. f_equal. lia.
Qed.

Lemma payload_positions (l : list ZipInfo) start :
  map (fun p => getitem_str p "position")
      (map (fun '(pos, info) => image_payload pos info) (enumerate (Z.of_nat start) l))
  = map (fun n => Ok (VInt (Z.of_nat n))) (seq start (List.length l)).
Proof.
  revert start. induction l as [|x r IH]; intros start; simpl; [reflexivity|].
  f_equal. replace (Z.of_nat start + 1) with (Z.of_nat (S start)) by lia.
  apply IH.
Qed.

End Conversion.

(** The order [sorted] leaves a folder in: ascending keys, and entries
    with equal keys in archive order. *)
Lemma ordered_ascending_stable (mktime : datetime -> option Z) (infos : list ZipInfo) :
  Sorted (fun a b => ts_key mktime (date_time a) <= ts_key mktime (date_time b))
         (ordered mktime infos)
  /\ (forall k,
        filter (fun i => ts_key mktime (date_time i) =? k) (ordered mktime infos)
        = filter (fun i => ts_key mktime (date_time i) =? k) infos).
Proof.
  unfold ordered.
  set (key := fun i : ZipInfo => ts_key mktime (date_time i)).
  set (d := map (fun i => (key i, i)) infos).
  assert (Hdec : forall l : list (Z * ZipInfo),
             Forall (fun x => fst x = key (snd x)) l ->
             (Sorted key_le l -> Sorted (fun a b => key a <= key b) (map snd l))
             /\ (forall k, filter (fun i => key i =? k) (map snd l)
                           = map snd (filter (fun x => fst x =? k) l))).
  { induction 1 as [|x l Hx Hl [IH1 IH2]]; simpl.
    - split; [constructor | reflexivity].
    - split.
      + intros Hs. inversion Hs as [|? ? Hs' Hhd]; subst.
        constructor; [auto|].
        destruct Hhd as [|y l' Hxy]; simpl; constructor.
        inversion Hl; subst. unfold key_le in Hxy. congruence.
      + intros k. rewrite IH2, Hx. destruct (key (snd x) =? k); reflexivity. }
  assert (Hd : Forall (fun x => fst x = key (snd x)) d)
    by (apply Forall_forall; intros x Hx; apply in_map_iff in Hx as (i & <- & _);
        reflexivity).
  assert (Hsd : Forall (fun x => fst x = key (snd x)) (sort_decorated Z.leb d)).
  { apply Forall_forall. intros x Hx.
    apply (proj1 (sort_decorated_In _ _)) in Hx.
    exact (proj1 (Forall_forall _ _) Hd x Hx). }
  split.
  - apply (Hdec _ Hsd), sort_decorated_sorted.
  - intros k. rewrite (proj2 (Hdec _ Hsd)), sort_decorated_stable.
    rewrite <- (proj2 (Hdec _ Hd)). unfold d. rewrite map_map. simpl.
    now rewrite map_id.
Qed.

(** A pair of images: the older one takes position 1, without warning. *)
Example aurora_pair :
  parse_zip_models Fixtures.utc [Fixtures.aurora_new; Fixtures.aurora_old]
  = Ok [mkModelGroup "AURORA-01"
          [VDict [("attachment", VStr "TWE="); ("filename", VStr "a.JPG");
                  ("position", VInt 1)];
           VDict [("attachment", VStr "TWFu"); ("filename", VStr "b.jpg");
                  ("position", VInt 2)]]
          []].
Proof. reflexivity. Qed.

(** Three images in a folder: the first two in sorted order are kept (the
    two newest tie and stay in archive order) and the count is reported. *)
Example model_x_three :
  parse_zip_models Fixtures.utc [Fixtures.x_third; Fixtures.x_second; Fixtures.x_first]
  = Ok [mkModelGroup "MODEL-X"
          [image_payload 1 Fixtures.x_first; image_payload 2 Fixtures.x_third]
          ["La cartella 'MODEL-X' contiene 3 immagini (attese: 2). Verranno usate le prime 2."]].
Proof. reflexivity. Qed.

(** A mixed archive: root images and non-images are left out, the folder
    name is trimmed, the entry without a usable timestamp comes first. *)
Example mixed_archive :
  parse_zip_models Fixtures.utc Fixtures.archive
  = Ok [mkModelGroup "AURORA-01"
          [image_payload 1 Fixtures.aurora_bad; image_payload 2 Fixtures.aurora_old]
          ["La cartella 'AURORA-01' contiene 3 immagini (attese: 2). Verranno usate le prime 2."];
        mkModelGroup "X" [image_payload 1 Fixtures.solo]
          ["La cartella 'X' contiene 1 immagini (attese: 2). Verranno usate le prime 2."]].
Proof. reflexivity. Qed.

(** A folder name that starts with a no-break space (U+00A0) is trimmed
    like one that starts with a blank: both entries land in one group. *)
Example no_break_space_is_trimmed :
  parse_zip_models Fixtures.utc
    [mkZipInfo (String (ascii_of_nat 194) (String (ascii_of_nat 160) "Y/a.jpg"))
       [2024; 1; 1; 0; 0; 0] (Ok [x61]);
     mkZipInfo "Y/b.jpg" [2024; 1; 2; 0; 0; 0] (Ok [x62])]
  = Ok [mkModelGroup "Y"
          [VDict [("attachment", VStr "YQ=="); ("filename", VStr "a.jpg");
                  ("position", VInt 1)];
           VDict [("attachment", VStr "Yg=="); ("filename", VStr "b.jpg");
                  ("position", VInt 2)]]
          []].
Proof. reflexivity. Qed.

(** An entry that cannot be read makes the extraction raise, when it is
    among the two its folder retains. *)
Example unreadable_entry_raises :
  parse_zip_models Fixtures.utc
    [Fixtures.aurora_new;
     mkZipInfo "AURORA-01/a.JPG" [2024; 1; 1; 9; 30; 0] (Raise BadZipFile)]
  = Raise BadZipFile.
Proof. reflexivity. Qed.



(** C7.  Whenever extraction returns, it returns one group for each
    folder that holds an image, and in every group the payloads follow
    the retained entries (the first two of the sorted folder) one for
    one: positions are 1, 2, .., k; the filename is the basename of the
    entry's path; the attachment is the base64 text of the bytes
    [zf.read] returned for the entry.  Extraction returns when the
    entries it files can be read. *)
Theorem parse_zip_models_payloads (mktime : datetime -> option Z)
    (infolist : list ZipInfo) :
  (forall groups,
     parse_zip_models mktime infolist = Ok groups ->
     map model groups = first_seen (map folder_key (filter filed infolist))
     /\ Forall (fun g =>
          exists infos_sorted,
            sorted Z.leb (fun i => human_ts mktime (date_time i))
                   (folder_entries infolist (model g)) = Ok infos_sorted
            /\ let kept := firstn 2 infos_sorted in
               List.length (images g) = List.length kept
               /\ map (fun p => getitem_str p "position") (images g)
                  = map (fun n => Ok (VInt (Z.of_nat n))) (seq 1 (List.length kept))
               /\ forall n info,
                    nth_error kept n = Some info ->
                    exists raw,
                      read info = Ok raw
                      /\ nth_error (images g) n
                         = Some (VDict [("attachment", VStr (Base64.b64encode raw));
                                        ("filename", VStr (PyStr.basename (filename info)));
                                        ("position", VInt (Z.of_nat n + 1))]))
        groups)
  /\ ((forall i, In i infolist -> filed i = true -> readable i = true) ->
      exists groups, parse_zip_models mktime infolist = Ok groups).
Proof.
  split.
  - intros groups Hret. apply parse_zip_models_Ok in Hret as [-> Hread].
    split; [apply extracted_models|].
    apply Forall_forall. intros g Hg.
    apply in_map_iff in Hg as ([f infos] & <- & Hscan).
    cbn beta zeta iota delta [model images warnings fst].
    exists (ordered mktime (folder_entries infolist f)).
    split; [apply sorted_human_ts|].
    split; [now rewrite length_map, enumerate_length|].
    split; [apply (payload_positions _ 1)|].
    intros n info Hn. exists (data info). split.
    + apply readable_data, (Hread f).
      * apply in_map_iff. now exists (f, infos).
      * unfold retained. eapply nth_error_In. exact Hn.
    + rewrite nth_error_map, (enumerate_nth _ _ _ _ Hn).
      cbn [option_map].
      unfold image_payload, payload. now rewrite (Z.add_comm 1).
  - intros Hread. eexists. now apply parse_zip_models_readable.
Qed.

(** At a folder of two images: the older entry takes position 1; each
    payload carries the bare file name and the base64 text of the
    entry's bytes. *)
Lemma parse_zip_models_payloads_witness :
  exists g,
    parse_zip_models Fixtures.utc [Fixtures.aurora_new; Fixtures.aurora_old] = Ok [g]
    /\ model g = "AURORA-01"
    /\ nth_error (images g) 0
       = Some (VDict [("attachment", VStr "TWE="); ("filename", VStr "a.JPG");
                      ("position", VInt 1)])
    /\ nth_error (images g) 1
       = Some (VDict [("attachment", VStr "TWFu"); ("filename", VStr "b.jpg");
                      ("position", VInt 2)])
    /\ List.length (images g) = 2%nat.
Proof.
  destruct (parse_zip_models_payloads Fixtures.utc
              [Fixtures.aurora_new; Fixtures.aurora_old]) as (Hgroups & Hret).
  destruct Hret as [groups Hg].
  { intros i Hi _.
    repeat (destruct Hi as [<-|Hi]; [reflexivity|]). destruct Hi. }
  destruct (Hgroups groups Hg) as [Hnames Hall].
  destruct groups as [|g [|g2 r]]; try discriminate Hnames.
  injection Hnames as Hn.
  exists g. split; [exact Hg|]. split; [exact Hn|].
  apply Forall_cons_iff in Hall as [(srt & Hs & Hlen & _ & Hnth) _].
  rewrite Hn in Hs. vm_compute in Hs. injection Hs as <-.
  destruct (Hnth 0%nat Fixtures.aurora_old eq_refl) as (raw0 & Hr0 & H0).
  destruct (Hnth 1%nat Fixtures.aurora_new eq_refl) as (raw1 & Hr1 & H1).
  vm_compute in Hr0. injection Hr0 as <-.
  vm_compute in Hr1. injection Hr1 as <-.
  repeat split; [exact H0 | exact H1 | exact Hlen].
Defined.

(** C8.  [human_ts] returns on every input, and returns 0 when the
    conversion fails; hence [sorted] returns, the handler that sorts by
    filename is never entered, no group carries the timestamp warning
    and what the extraction raises comes from [zf.read], not from the
    sort;
    entries whose timestamp does not convert come first, in archive
    order, ahead of the convertible ones sorted by time.  The hypothesis
    says that a timestamp which converts lies after the epoch, as those
    of a zip archive (years from 1980) do. *)
Theorem human_ts_total_fallback_unreachable (mktime : datetime -> option Z)
    (infos : list ZipInfo)
    (Hpos : forall i t, In i infos -> to_epoch mktime (date_time i) = Ok t -> 0 < t) :
  (forall dt_tuple, exists t,
      human_ts mktime dt_tuple = Ok t
      /\ (forall e, to_epoch mktime dt_tuple = Raise e -> t = 0))
  /\ (exists convertible_sorted,
        sorted Z.leb (fun i => human_ts mktime (date_time i))
               (filter (fun i => negb (ts_fails mktime i)) infos)
        = Ok convertible_sorted
        /\ sorted Z.leb (fun i => human_ts mktime (date_time i)) infos
           = Ok (filter (ts_fails mktime) infos ++ convertible_sorted)%list
        /\ order_entries mktime infos
           = Ok ((filter (ts_fails mktime) infos ++ convertible_sorted)%list, []))
  /\ (forall infolist,
        (forall groups,
            parse_zip_models mktime infolist = Ok groups ->
            Forall (fun g => ~ In TIMESTAMP_WARNING (warnings g)) groups)
        /\ (forall e,
              parse_zip_models mktime infolist = Raise e ->
              exists i, In i infolist /\ read i = Raise e)).
Proof.
  split; [|split].
  - intros dt. exists (ts_key mktime dt). split; [apply human_ts_returns|].
    intros e He. unfold ts_key. now rewrite He.
  - exists (ordered mktime (filter (fun i => negb (ts_fails mktime i)) infos)).
    split; [apply sorted_human_ts|].
    assert (Hord : ordered mktime infos
                   = (filter (ts_fails mktime) infos
                      ++ ordered mktime (filter (fun i => negb (ts_fails mktime i)) infos))%list).
    { unfold ordered.
      assert (Hkey : forall i, In i infos ->
                (ts_key mktime (date_time i) =? 0) = ts_fails mktime i
                /\ 0 <= ts_key mktime (date_time i)).
      { intros i Hi. unfold ts_key, ts_fails.
        destruct (to_epoch mktime (date_time i)) as [t|e] eqn:E.
        - specialize (Hpos i t Hi E). split; lia.
        - split; [reflexivity | lia]. }
      rewrite sort_decorated_zero_first
        by (apply Forall_forall; intros y Hy;
            apply in_map_iff in Hy as (i & <- & Hi); apply (Hkey i Hi)).
      rewrite map_app. f_equal.
      - clear Hpos. induction infos as [|i r IH]; simpl; [reflexivity|].
        destruct (Hkey i (or_introl eq_refl)) as [-> _].
        rewrite <- IH by (intros; apply Hkey; now right).
        destruct (ts_fails mktime i); reflexivity.
      - f_equal. f_equal.
        clear Hpos. induction infos as [|i r IH]; simpl; [reflexivity|].
        destruct (Hkey i (or_introl eq_refl)) as [-> _].
        rewrite IH by (intros; apply Hkey; now right).
        destruct (ts_fails mktime i); reflexivity. }
    split.
    + now rewrite sorted_human_ts, Hord.
    + now rewrite order_entries_returns, Hord.
  - intros infolist. split.
    + intros groups Hret. apply parse_zip_models_Ok in Hret as [-> _].
      apply Forall_forall. intros g Hg.
      apply in_map_iff in Hg as ([f l] & <- & _). simpl.
      destruct (_ =? _)%nat; [intros []|].
      intros [C|[]]. unfold count_warning, TIMESTAMP_WARNING in C. discriminate C.
    + intros e He.
      apply parse_zip_models_Raise in He as (f & i & _ & Hi & _ & Hr).
      now exists i.
Qed.

Lemma human_ts_total_fallback_unreachable_witness :
  (forall i t,
      In i [Fixtures.aurora_new; Fixtures.aurora_bad; Fixtures.aurora_old; Fixtures.zero_b] ->
      to_epoch Fixtures.utc (date_time i) = Ok t -> 0 < t)
  /\ order_entries Fixtures.utc
       [Fixtures.aurora_new; Fixtures.aurora_bad; Fixtures.aurora_old; Fixtures.zero_b]
     = Ok ([Fixtures.aurora_bad; Fixtures.zero_b; Fixtures.aurora_old; Fixtures.aurora_new], []).
Proof.
  assert (Hpos : forall i t,
             In i [Fixtures.aurora_new; Fixtures.aurora_bad;
                   Fixtures.aurora_old; Fixtures.zero_b] ->
             to_epoch Fixtures.utc (date_time i) = Ok t -> 0 < t).
  { intros i t [<-|[<-|[<-|[<-|[]]]]]; vm_compute; intros [= <-]; reflexivity. }
  split; [exact Hpos|].
  destruct (human_ts_total_fallback_unreachable Fixtures.utc _ Hpos)
    as (_ & (cs & H1 & _ & H3) & _).
  vm_compute in H1. injection H1 as <-. exact H3.
Defined.

(** A clock at a fixed offset of at most a day puts every valid date from
    1980 on after the epoch: the hypothesis of the theorem above holds for
    the timestamps a zip archive can carry. *)
Lemma mktime_fixed_after_epoch offset dt_tuple t :
  -86400 <= offset <= 86400 ->
  1980 <= hd 0 dt_tuple ->
  to_epoch (mktime_fixed offset) dt_tuple = Ok t -> 0 < t.
Proof.
  intros Hoff Hy. unfold to_epoch, bind.
  destruct (datetime_new dt_tuple) as [dt|e] eqn:E; [|discriminate].
  assert (Hdt : year dt = hd 0 dt_tuple /\ 1 <= month dt <= 12 /\ 1 <= day dt
                /\ 0 <= hour dt /\ 0 <= minute dt /\ 0 <= second dt).
  { unfold datetime_new in E.
    destruct dt_tuple as [|y [|m [|d [|h [|mi [|s [|us [|tz r]]]]]]]];
      try discriminate; unfold check_fields, between in E;
      match type of E with
      | (if ?c then _ else _) = _ => destruct c eqn:C; [|discriminate]
      end;
      injection E as <-; cbn [year month day hour minute second microsecond hd] in *;
      repeat (apply andb_prop in C as [C ?]); lia. }
  destruct Hdt as (Hyear & Hm & Hd & Hh & Hmi & Hs).
  unfold mktime_fixed. intros [= <-]. rewrite <- Hyear in Hy.
  assert (3652 <= days_from_civil (year dt) (month dt) (day dt)); [|lia].
  unfold days_from_civil.
  destruct (month dt <=? 2) eqn:Em; Z.div_mod_to_equations; lia.
Qed.

(** C3, at an archive whose two entries carry the zero DOS timestamp:
    both conversions fail, yet the group keeps the archive order
    (b.jpg before a.jpg) and records no warning. *)
Theorem zero_timestamps_keep_archive_order (mktime : datetime -> option Z) :
  to_epoch mktime (date_time Fixtures.zero_b) = Raise ValueError
  /\ to_epoch mktime (date_time Fixtures.zero_a) = Raise ValueError
  /\ parse_zip_models mktime [Fixtures.zero_b; Fixtures.zero_a]
     = Ok [mkModelGroup "M"
             [image_payload 1 Fixtures.zero_b; image_payload 2 Fixtures.zero_a] []].
Proof. repeat split. Qed.

End ExtractorSpec.

(* ------------------------------------------------------------------ *)
(** ** The client *)

Module ClientSpec.
Import Py Client Notions.
Local Open Scope py_scope.
Local Open Scope list_scope.

(** *** Scrubbing *)

Lemma lookup_app_fresh k (d1 d2 : dict) :
  ~ In k (keys d1) -> lookup k (d1 ++ d2) = lookup k d2.
Proof.
  unfold keys. induction d1 as [|[k' v] r IH]; simpl; intros H; [reflexivity|].
  destruct (String.eqb k k') eqn:E.
  - apply String.eqb_eq in E. subst. exfalso. apply H. now left.
  - apply IH. intros C. apply H. now right.
Qed.

Lemma set_item_fresh k v (d : dict) :
  ~ In k (keys d) -> set_item k v d = (d ++ [(k, v)])%list.
Proof.
  unfold keys. induction d as [|[k' v'] r IH]; simpl; intros H; [reflexivity|].
  destruct (String.eqb k k') eqn:E.
  - apply String.eqb_eq in E. subst. exfalso. apply H. now left.
  - rewrite IH; [reflexivity|]. intros C. apply H. now right.
Qed.

Lemma keys_without drop (d : dict) k : In k (keys (without drop d)) -> In k (keys d).
Proof.
  unfold keys, without. intros H. apply in_map_iff in H as (kv & <- & H).
  apply filter_In in H as [H _]. now apply in_map.
Qed.

Lemma without_snoc drop (d : dict) k v :
  without drop (d ++ [(k, v)])
  = (without drop d ++ if mem k drop then [] else [(k, v)])%list.
Proof.
  unfold without. rewrite filter_app. simpl. destruct (mem k drop); reflexivity.
Qed.

Lemma comprehension_suffix drop (d2 d1 : dict) :
  NoDup (keys (d1 ++ d2)) ->
  comprehension drop (VDict (d1 ++ d2)) (keys d2) (without drop d1)
  = Ok (without drop (d1 ++ d2)).
Proof.
  revert d1. induction d2 as [|[k v] r IH]; intros d1 Hnd.
  - simpl. now rewrite app_nil_r.
  - assert (Hfresh : ~ In k (keys d1)).
    { unfold keys in *. rewrite map_app in Hnd. simpl in Hnd.
      apply NoDup_remove_2 in Hnd. intros C. apply Hnd. apply in_or_app. now left. }
    assert (Hget : getitem_str (VDict (d1 ++ (k, v) :: r)) k = Ok v).
    { simpl. rewrite lookup_app_fresh by exact Hfresh.
      simpl. now rewrite String.eqb_refl. }
    assert (Hsplit : d1 ++ (k, v) :: r = (d1 ++ [(k, v)]) ++ r)
      by (now rewrite <- app_assoc).
    rewrite Hsplit in Hnd. specialize (IH _ Hnd).
    rewrite without_snoc, <- Hsplit in IH.
    change (keys ((k, v) :: r)) with (k :: keys r).
    cbn [comprehension]. destruct (mem k drop) eqn:Em.
    + now rewrite app_nil_r in IH.
    + rewrite Hget. cbn [bind].
      rewrite set_item_fresh by (intros C; apply Hfresh; eapply keys_without, C).
      exact IH.
Qed.

(** On a dictionary, [scrub_one] is the removal of the dropped keys. *)
Lemma scrub_one_without drop (d : dict) :
  NoDup (keys d) -> scrub_one drop (VDict d) = Ok (VDict (without drop d)).
Proof.
  intros Hnd. unfold scrub_one. cbn [keys_of bind].
  pose proof (comprehension_suffix drop d [] Hnd) as H.
  cbn [app without filter] in H. now rewrite H.
Qed.

Lemma iterate_or_empty (l : list value) : iterate (por (VList l) (VList [])) = Ok l.
Proof. destruct l; reflexivity. Qed.

Lemma scrub_all_without drop (ds : list dict) :
  Forall (fun d => NoDup (keys d)) ds ->
  mapM (scrub_one drop) (map VDict ds) = Ok (map (fun d => VDict (without drop d)) ds).
Proof.
  induction 1 as [|d r Hd _ IH]; simpl; [reflexivity|].
  now rewrite scrub_one_without, IH.
Qed.

(** What [without] leaves behind, key by key. *)
Lemma lookup_without drop (d : dict) k :
  lookup k (without drop d) = if mem k drop then None else lookup k d.
Proof.
  induction d as [|[k' v] r IH]; simpl.
  - now destruct (mem k drop).
  - destruct (mem k' drop) eqn:E'; simpl.
    + rewrite IH. destruct (String.eqb k k') eqn:E; [|reflexivity].
      apply String.eqb_eq in E. subst. now rewrite E'.
    + destruct (String.eqb k k') eqn:E.
      * apply String.eqb_eq in E. subst. now rewrite E'.
      * exact IH.
Qed.

(** C5, as amended.  Variant scrubbing removes exactly the seven keys
    id, product_id, admin_graphql_api_id, position, created_at,
    updated_at, image_id; option scrubbing removes exactly the four keys
    id, product_id, admin_graphql_api_id, position (the timestamps of an
    option are kept); every other pair stays, with its value and in its
    place. *)
Theorem scrub_removes_identity_keys (variants options : list dict)
    (Hv : Forall (fun d => NoDup (keys d)) variants)
    (Ho : Forall (fun d => NoDup (keys d)) options) :
  _scrub_variants (VList (map VDict variants))
  = Ok (map (fun d => VDict (without
            ["id"; "product_id"; "admin_graphql_api_id"; "position";
             "created_at"; "updated_at"; "image_id"] d)) variants)
  /\ _scrub_options (VList (map VDict options))
     = Ok (map (fun d => VDict (without
            ["id"; "product_id"; "admin_graphql_api_id"; "position"] d)) options)
  /\ (forall drop d k,
        lookup k (without drop d) = if mem k drop then None else lookup k d)
  /\ (forall drop d,
        keys (without drop d) = filter (fun k => negb (mem k drop)) (keys d)).
Proof.
  unfold _scrub_variants, _scrub_options.
  rewrite !iterate_or_empty. simpl.
  split; [now apply scrub_all_without|].
  split; [now apply scrub_all_without|].
  split; [intros; apply lookup_without|].
  intros drop d. unfold keys, without.
  induction d as [|[k v] r IH]; simpl; [reflexivity|].
  destruct (mem k drop); simpl; now rewrite IH.
Qed.

Lemma scrub_removes_identity_keys_witness :
  _scrub_variants (VList [VDict [("id", VInt 8); ("title", VStr "S");
                                 ("image_id", VNone); ("created_at", VStr "2024-01-01");
                                 ("sku", VStr "AU-S")]])
  = Ok [VDict [("title", VStr "S"); ("sku", VStr "AU-S")]]
  /\ _scrub_options (VList [VDict [("id", VInt 7); ("name", VStr "Size");
                                   ("created_at", VStr "2024-01-01")]])
     = Ok [VDict [("name", VStr "Size"); ("created_at", VStr "2024-01-01")]].
Proof.
  assert (Hv : Forall (fun d => NoDup (keys d))
                 [[("id", VInt 8); ("title", VStr "S"); ("image_id", VNone);
                   ("created_at", VStr "2024-01-01"); ("sku", VStr "AU-S")]]).
  { repeat constructor; simpl; intuition discriminate. }
  assert (Ho : Forall (fun d => NoDup (keys d))
                 [[("id", VInt 7); ("name", VStr "Size");
                   ("created_at", VStr "2024-01-01")]]).
  { repeat constructor; simpl; intuition discriminate. }
  destruct (scrub_removes_identity_keys _ _ Hv Ho) as (H1 & H2 & _).
  split; [exact H1 | exact H2].
Defined.

(** C5, as stated, fails on an option that carries timestamps: they
    survive the scrubbing. *)
Lemma scrub_options_keeps_timestamps :
  _scrub_options (VList [VDict [("id", VInt 7); ("name", VStr "Size");
                                ("created_at", VStr "2024-01-01");
                                ("updated_at", VStr "2024-01-02")]])
  = Ok [VDict [("name", VStr "Size"); ("created_at", VStr "2024-01-01");
               ("updated_at", VStr "2024-01-02")]]
  /\ ~ (forall clean,
          _scrub_options (VList [VDict [("id", VInt 7); ("name", VStr "Size");
                                        ("created_at", VStr "2024-01-01");
                                        ("updated_at", VStr "2024-01-02")]])
          = Ok [VDict clean] ->
          lookup "created_at" clean = None /\ lookup "updated_at" clean = None).
Proof.
  split; [reflexivity|].
  intros H. destruct (H _ eq_refl) as [C _]. discriminate C.
Qed.

(** *** Collection lookup *)

Section Ensure.
Variable server : Server.
Variable base : string.

Lemma find_smart_eval title log r cs :
  server log (smart_request base title) = Some r ->
  lists "smart_collections" r cs ->
  _find_smart_collection server base title log
  = lift (first_id (VList cs)) (log ++ [smart_request base title]).
Proof.
  intros Hs (Hst & j & Hb & Hg). unfold smart_request in *.
  unfold _find_smart_collection, mbind, session_get, send, json.
  rewrite Hs, Hst, Hb. cbn [lift ret raise]. now rewrite Hg.
Qed.

Lemma find_custom_eval title log r cs :
  server log (custom_request base title) = Some r ->
  lists "custom_collections" r cs ->
  _find_custom_collection server base title log
  = lift (first_id (VList cs)) (log ++ [custom_request base title]).
Proof.
  intros Hs (Hst & j & Hb & Hg). unfold custom_request in *.
  unfold _find_custom_collection, mbind, session_get, send, json.
  rewrite Hs, Hst, Hb. cbn [lift ret raise]. now rewrite Hg.
Qed.

Lemma frontpage_probe_found title log r c cs i :
  is_alias title = true ->
  server log (front_request base) = Some r ->
  lists "custom_collections" r (c :: cs) ->
  getitem_str c "id" = Ok i ->
  frontpage_probe server base title log = (Ok (Some i), log ++ [front_request base]).
Proof.
  intros Ha Hs (Hst & j & Hb & Hg) Hi. unfold front_request, is_alias in *.
  unfold frontpage_probe, mbind, session_get, send, json.
  rewrite Ha, Hs, Hst, Hb. cbn [lift ret raise]. rewrite Hg.
  cbn [truthy getitem_0 lift ret]. now rewrite Hi.
Qed.

Lemma frontpage_probe_unresolved title log log1 :
  unresolved server base title log log1 ->
  frontpage_probe server base title log = (Ok None, log1).
Proof.
  intros [[Ha ->]|(Ha & r & Hs & (Hst & j & Hb & Hg) & ->)];
    unfold front_request, is_alias in *; unfold frontpage_probe; rewrite Ha;
    [reflexivity|].
  unfold mbind, session_get, send, json.
  rewrite Hs, Hst, Hb. cbn [lift ret raise]. now rewrite Hg.
Qed.

Lemma first_id_found c cs i :
  getitem_str c "id" = Ok i -> first_id (VList (c :: cs)) = Ok i.
Proof. intros H. unfold first_id. cbn [truthy getitem_0 bind]. exact H. Qed.

(** C4.  For an alias of the storefront default, the first request is the
    custom-collection query by handle "frontpage"; when it lists a
    collection, that collection's id is returned and nothing else is sent.
    For a title not resolved that way the smart collections are probed by
    title, then the custom ones, and only when both list nothing is a
    custom collection with that title created, whose id is returned. *)
Theorem ensure_collection_strategy (title : string) (log : list Request) :
  (is_alias title = true ->
   forall r c cs i,
     server log (front_request base) = Some r ->
     lists "custom_collections" r (c :: cs) ->
     getitem_str c "id" = Ok i ->
     ensure_collection server base title log
     = (Ok i, log ++ [front_request base]))
  /\ (forall log1,
        unresolved server base title log log1 ->
        (forall r c cs i,
            server log1 (smart_request base title) = Some r ->
            lists "smart_collections" r (c :: cs) ->
            getitem_str c "id" = Ok i -> truthy i = true ->
            ensure_collection server base title log
            = (Ok i, log1 ++ [smart_request base title]))
        /\ (forall r2 r3 c cs i,
              server log1 (smart_request base title) = Some r2 ->
              lists "smart_collections" r2 [] ->
              server (log1 ++ [smart_request base title]) (custom_request base title)
              = Some r3 ->
              lists "custom_collections" r3 (c :: cs) ->
              getitem_str c "id" = Ok i -> truthy i = true ->
              ensure_collection server base title log
              = (Ok i, log1 ++ [smart_request base title; custom_request base title]))
        /\ (forall r2 r3 r4 i,
              server log1 (smart_request base title) = Some r2 ->
              lists "smart_collections" r2 [] ->
              server (log1 ++ [smart_request base title]) (custom_request base title)
              = Some r3 ->
              lists "custom_collections" r3 [] ->
              server (log1 ++ [smart_request base title; custom_request base title])
                     (create_request base title) = Some r4 ->
              created r4 i ->
              ensure_collection server base title log
              = (Ok i, log1 ++ [smart_request base title; custom_request base title;
                                create_request base title]))).
Proof.
  split.
  - intros Ha r c cs i Hs Hl Hi. unfold ensure_collection, mbind.
    now rewrite (frontpage_probe_found _ _ _ _ _ _ Ha Hs Hl Hi).
  - intros log1 Hun. pose proof (frontpage_probe_unresolved _ _ _ Hun) as Hp.
    split; [|split].
    + intros r c cs i Hs Hl Hi Ht. unfold ensure_collection, mbind. rewrite Hp.
      rewrite (find_smart_eval _ _ _ _ Hs Hl), (first_id_found _ _ _ Hi).
      cbn [lift ret]. now rewrite Ht.
    + intros r2 r3 c cs i Hs2 Hl2 Hs3 Hl3 Hi Ht.
      unfold ensure_collection, mbind. rewrite Hp.
      rewrite (find_smart_eval _ _ _ _ Hs2 Hl2). cbn [first_id truthy lift ret].
      rewrite (find_custom_eval _ _ _ _ Hs3 Hl3), (first_id_found _ _ _ Hi).
      cbn [lift ret]. rewrite Ht. now rewrite <- app_assoc.
    + intros r2 r3 r4 i Hs2 Hl2 Hs3 Hl3 Hs4 (Hst & j & c & Hb & Hc & Hi).
      unfold ensure_collection, mbind. rewrite Hp.
      rewrite (find_smart_eval _ _ _ _ Hs2 Hl2). cbn [first_id truthy lift ret].
      rewrite (find_custom_eval _ _ _ _ Hs3 Hl3). cbn [first_id truthy lift ret].
      unfold session_post, send, json. unfold create_request in Hs4.
      rewrite <- app_assoc. cbn [app].
      rewrite Hs4, Hst, Hb. cbn [lift ret raise]. rewrite Hc. cbn [lift ret raise].
      rewrite Hi. cbn [lift ret]. now rewrite <- app_assoc.
Qed.

End Ensure.

Lemma ensure_collection_strategy_witness :
  ensure_collection (Fixtures.serve Fixtures.store_plain) Fixtures.shop " HOME page " []
  = (Ok (VInt 11), [front_request Fixtures.shop])
  /\ ensure_collection (Fixtures.serve Fixtures.store_plain) Fixtures.shop "Decorative" []
     = (Ok (VInt 21), [smart_request Fixtures.shop "Decorative"])
  /\ ensure_collection (Fixtures.serve Fixtures.store_custom) Fixtures.shop "Homepage" []
     = (Ok (VInt 31), [front_request Fixtures.shop; smart_request Fixtures.shop "Homepage";
                       custom_request Fixtures.shop "Homepage"])
  /\ ensure_collection (Fixtures.serve Fixtures.store_empty) Fixtures.shop "Nuova" []
     = (Ok (VInt 902), [smart_request Fixtures.shop "Nuova";
                        custom_request Fixtures.shop "Nuova";
                        create_request Fixtures.shop "Nuova"]).
Proof.
  split; [|split; [|split]].
  - eapply (proj1 (ensure_collection_strategy
                     (Fixtures.serve Fixtures.store_plain) Fixtures.shop " HOME page " []));
      [ reflexivity | reflexivity
      | split; [reflexivity | eexists; split; reflexivity] | reflexivity ].
  - assert (Hun : unresolved (Fixtures.serve Fixtures.store_plain) Fixtures.shop
                    "Decorative" [] [])
      by (left; split; reflexivity).
    eapply (proj1 (proj2 (ensure_collection_strategy
                            (Fixtures.serve Fixtures.store_plain) Fixtures.shop
                            "Decorative" []) [] Hun));
      [ reflexivity | split; [reflexivity | eexists; split; reflexivity]
      | reflexivity | reflexivity ].
  - assert (Hun : unresolved (Fixtures.serve Fixtures.store_custom) Fixtures.shop
                    "Homepage" [] [front_request Fixtures.shop]).
    { right. split; [reflexivity|]. eexists. split; [reflexivity|].
      split; [|reflexivity]. split; [reflexivity | eexists; split; reflexivity]. }
    eapply (proj1 (proj2 (proj2 (ensure_collection_strategy
                                   (Fixtures.serve Fixtures.store_custom) Fixtures.shop
                                   "Homepage" []) _ Hun)));
      [ reflexivity | split; [reflexivity | eexists; split; reflexivity]
      | reflexivity | split; [reflexivity | eexists; split; reflexivity]
      | reflexivity | reflexivity ].
  - assert (Hun : unresolved (Fixtures.serve Fixtures.store_empty) Fixtures.shop
                    "Nuova" [] [])
      by (left; split; reflexivity).
    eapply (proj2 (proj2 (proj2 (ensure_collection_strategy
                                   (Fixtures.serve Fixtures.store_empty) Fixtures.shop
                                   "Nuova" []) [] Hun)));
      [ reflexivity | split; [reflexivity | eexists; split; reflexivity]
      | reflexivity | split; [reflexivity | eexists; split; reflexivity]
      | reflexivity
      | split; [reflexivity | do 2 eexists; repeat split; reflexivity] ].
Defined.

(** *** Product creation *)

Section Create.
Variable server : Server.
Variable base : string.

(** The attribute of the class is the second definition. *)
Lemma create_product_is_second : create_product server base = create_product_2 server base.
Proof. reflexivity. Qed.

(** [post_product] sends one request, the product body wrapped under
    "product", whatever the answer. *)
Lemma post_product_log product_body log :
  snd (post_product server base product_body log)
  = log ++ [product_request base product_body].
Proof.
  unfold post_product, mbind, session_post, send, product_request.
  destruct (server log _) as [r|]; [|reflexivity].
  destruct (raise_for_status r); [|reflexivity]. cbn [lift ret raise].
  destruct (json r) as [j|]; [|reflexivity]. cbn [lift ret raise].
  destruct (getitem_str j "product"); reflexivity.
Qed.

(** X21.  What the first definition sends: without a template the
    request carries title, body and images; with a template (a non-empty
    dictionary whose options and variants scrub) it carries in addition
    vendor, product type, tags and the scrubbed options and variants. *)
Lemma create_product_1_request title body_html images_payload template log :
  (truthy template = false ->
   snd (call_kw (create_product_1 server base)
          [("title", title); ("body_html", body_html);
           ("images_payload", images_payload); ("template", template)] log)
   = log ++ [product_request base
               [("title", title); ("body_html", body_html);
                ("images", images_payload)]])
  /\ (forall d options variants,
        template = VDict d -> truthy template = true ->
        _scrub_options (match lookup "options" d with Some x => x | None => VNone end)
        = Ok options ->
        _scrub_variants (match lookup "variants" d with Some x => x | None => VNone end)
        = Ok variants ->
        snd (call_kw (create_product_1 server base)
               [("title", title); ("body_html", body_html);
                ("images_payload", images_payload); ("template", template)] log)
        = log ++ [product_request base
                    [("title", title); ("body_html", body_html);
                     ("images", images_payload);
                     ("vendor", match lookup "vendor" d with Some x => x | None => VNone end);
                     ("product_type",
                      match lookup "product_type" d with Some x => x | None => VNone end);
                     ("tags", match lookup "tags" d with Some x => x | None => VNone end);
                     ("options", VList options); ("variants", VList variants)]]).
Proof.
  split.
  - intros Hf. cbv [call_kw create_product_1 required optional code forallb mem
                    existsb fst app keys map andb orb].
    cbn [String.eqb Ascii.eqb Bool.eqb]. cbv [bind_arguments lookup].
    cbn [String.eqb Ascii.eqb Bool.eqb optional]. rewrite Hf.
    unfold mbind at 1. cbn [ret]. apply post_product_log.
  - intros d options variants -> Ht Ho Hv.
    cbv [call_kw create_product_1 required optional code forallb mem
         existsb fst app keys map andb orb].
    cbn [String.eqb Ascii.eqb Bool.eqb]. cbv [bind_arguments].
    cbn [lookup String.eqb Ascii.eqb Bool.eqb optional]. rewrite Ht.
    unfold template_fields. cbn [get bind]. rewrite Ho, Hv. cbn [bind].
    unfold mbind at 1. cbn [lift ret]. unfold mbind at 1. cbn [ret].
    rewrite post_product_log. reflexivity.
Qed.

(** The keyword [template] is refused by the bound function, whatever
    else is passed. *)
Lemma create_product_call_raises kwargs log :
  lookup "template" kwargs <> None ->
  call_kw (create_product server base) kwargs log = (Raise TypeError, log).
Proof.
  intros H. rewrite create_product_is_second. unfold call_kw.
  assert (forallb (fun kv => mem (fst kv)
                     (required (create_product_2 server base)
                      ++ keys (optional (create_product_2 server base)))) kwargs
          = false) as ->; [|reflexivity].
  induction kwargs as [|[k v] r IH]; [now contradiction H|].
  cbn [forallb fst]. cbn [lookup] in H.
  destruct (String.eqb "template" k) eqn:E.
  - apply String.eqb_eq in E. subst k. reflexivity.
  - rewrite IH by exact H. apply andb_false_r.
Qed.

(** C1, on the program as written.  A call of [client.create_product]
    that passes [template], as the batch loop does, raises [TypeError]
    before anything is sent: the class attribute is the second
    definition, which has no such parameter. *)
Theorem create_product_rejects_template
    (title body_html images_payload template : value) (log : list Request) :
  call_kw (create_product server base)
    [("title", title); ("body_html", body_html);
     ("images_payload", images_payload); ("template", template)] log
  = (Raise TypeError, log).
Proof. reflexivity. Qed.

End Create.



End ClientSpec.

(* ------------------------------------------------------------------ *)
(** ** The batch loop *)

Module BatchSpec.
Import Py Client Extractor Batch Notions.
Local Open Scope py_scope.
Local Open Scope list_scope.

Lemma mbind_Ok {A B} (m : M A) (f : A -> M B) log b log' :
  mbind m f log = (Ok b, log') ->
  exists a log1, m log = (Ok a, log1) /\ f a log1 = (Ok b, log').
Proof.
  unfold mbind. destruct (m log) as [[a|e] log1]; [eauto | discriminate].
Qed.

Lemma lift_Ok {A} (r : res A) log a log' :
  lift r log = (Ok a, log') -> r = Ok a /\ log' = log.
Proof. destruct r; simpl; intros [= <- <-]; auto. Qed.

Lemma success_record_summary model_name pid product record :
  success_record model_name pid product = Ok record ->
  lookup "Collezioni" record = Some (VStr "Homepage, Pellicole per Vetri, Decorative").
Proof.
  unfold success_record, bind.
  destruct (get product "title"); [|discriminate].
  destruct (get product "handle"); [|discriminate].
  destruct (get product "status"); [|discriminate].
  intros [= <-]. reflexivity.
Qed.

Section Loop.
Variable server : Server.
Variable inp : Inputs.
Variable py : Interpreter.
Variable f : PyFunction.

Lemma try_model_summary st m log record log' :
  try_model server inp f st m log = (Ok record, log') ->
  lookup "Collezioni" record = Some (VStr "Homepage, Pellicole per Vetri, Decorative").
Proof.
  unfold try_model. intros H.
  apply mbind_Ok in H as (body & l1 & _ & H).
  apply mbind_Ok in H as (product & l2 & _ & H).
  apply mbind_Ok in H as (pid & l3 & _ & H).
  apply mbind_Ok in H as (u & l4 & _ & H).
  apply lift_Ok in H as [H _]. eapply success_record_summary, H.
Qed.

Lemma process_models_summary st models results log :
  Forall (fun r => lookup "Collezioni" r
                   = Some (VStr "Homepage, Pellicole per Vetri, Decorative")) results ->
  Forall (fun r => lookup "Collezioni" r
                   = Some (VStr "Homepage, Pellicole per Vetri, Decorative"))
         (results_of (process_models server inp f st models results log)).
Proof.
  revert results log. induction models as [|m rest IH]; intros results log Hacc; simpl.
  - exact Hacc.
  - destruct (try_model server inp f st m log) as [[record|e] log'] eqn:E.
    + apply IH. apply Forall_app. split; [exact Hacc|].
      constructor; [|constructor]. eapply try_model_summary, E.
    + destruct e; try exact Hacc.
      apply IH. apply Forall_app. split; [exact Hacc|].
      constructor; [reflexivity | constructor].
Qed.

(** The loop turns each attempt into one record as long as no attempt
    ends in an exception other than an HTTP error. *)
Lemma process_models_isolates_http_errors st models results log :
  Forall returned_or_http (attempts server inp f st models log) ->
  exists log',
    process_models server inp f st models results log
    = (Ok tt,
       results ++ map record_of (combine models (attempts server inp f st models log)),
       log').
Proof.
  revert results log. induction models as [|m rest IH]; intros results log Hall; simpl.
  - exists log. now rewrite app_nil_r.
  - simpl in Hall. inversion Hall as [|a l Ha Hrest]; subst.
    destruct (try_model server inp f st m log) as [[record|e] log1] eqn:E;
      cbn [fst snd] in *.
    + destruct (IH (results ++ [record]) log1 Hrest) as (log' & ->).
      exists log'. now rewrite <- app_assoc.
    + destruct e; try contradiction.
      destruct (IH (results ++ [error_record (model m) r]) log1 Hrest) as (log' & ->).
      exists log'. now rewrite <- app_assoc.
Qed.

Lemma try_model_not_error st m log record log' :
  try_model server inp f st m log = (Ok record, log') ->
  is_error_record record = false.
Proof.
  unfold try_model. intros H.
  apply mbind_Ok in H as (body & l1 & _ & H).
  apply mbind_Ok in H as (product & l2 & _ & H).
  apply mbind_Ok in H as (pid & l3 & _ & H).
  apply mbind_Ok in H as (u & l4 & _ & H).
  apply lift_Ok in H as [H _]. revert H. unfold success_record, bind.
  destruct (get product "title"); [|discriminate].
  destruct (get product "handle"); [|discriminate].
  destruct (get product "status"); [|discriminate].
  intros [= <-]. reflexivity.
Qed.

Lemma attempts_length st models log :
  List.length (attempts server inp f st models log) = List.length models.
Proof.
  revert log. induction models as [|m rest IH]; intros log; simpl; [reflexivity|].
  now rewrite IH.
Qed.

(** X15.  When every attempt returns or raises an HTTP error, the run
    yields one record per model, and the error records sit exactly where
    the HTTP errors occurred. *)
Lemma loop_isolates_failures st models log :
  Forall returned_or_http (attempts server inp f st models log) ->
  exists results log',
    process_models server inp f st models [] log = (Ok tt, results, log')
    /\ List.length results = List.length models
    /\ map is_error_record results
       = map raised_http (attempts server inp f st models log).
Proof.
  intros Hall.
  destruct (process_models_isolates_http_errors st models [] log Hall) as (log' & ->).
  eexists. exists log'. split; [reflexivity|]. cbn [app]. split.
  - now rewrite length_map, length_combine, attempts_length, Nat.min_id.
  - clear log'. revert log Hall.
    induction models as [|m rest IH]; intros log Hall; simpl; [reflexivity|].
    simpl in Hall. inversion Hall as [|a l Ha Hrest]; subst.
    rewrite (IH _ Hrest). f_equal. unfold record_of. cbn [fst snd].
    destruct (try_model server inp f st m log) as [[record|e] log1] eqn:E;
      cbn [fst snd] in *.
    + eapply try_model_not_error, E.
    + destruct e; try contradiction. reflexivity.
Qed.

End Loop.

(** C9.  Whatever the mode, the store and the function bound to
    [create_product], every record the run appends, success or error,
    has the joined default titles as its "Collezioni" field.  Records are
    appended: once the setup has succeeded, a run in which every attempt
    returns or raises an HTTP error ends normally with one record per
    model.  (With the second definition of [create_product] bound, as the
    class body leaves it, no attempt gets that far.) *)
Theorem results_summary_is_default_list (server : Server) (inp : Inputs)
    (py : Interpreter) (f : PyFunction) (models : list ModelGroup) :
  Forall (fun r => lookup "Collezioni" r
                   = Some (VStr "Homepage, Pellicole per Vetri, Decorative"))
         (results_of (run server inp py f models))
  /\ (forall st log0,
        setup server inp py [] = (Ok st, log0) ->
        Forall returned_or_http (attempts server inp f st models log0) ->
        outcome_of (run server inp py f models) = Ok tt
        /\ results_of (run server inp py f models)
           = map record_of (combine models (attempts server inp f st models log0))
        /\ List.length (results_of (run server inp py f models)) = List.length models).
Proof.
  split.
  - unfold run. destruct (setup server inp py []) as [[st|e] log].
    + apply process_models_summary. constructor.
    + constructor.
  - intros st log0 Hsetup Hall. unfold run. rewrite Hsetup.
    destruct (process_models_isolates_http_errors server inp f st models [] log0 Hall)
      as (log' & ->).
    cbn [outcome_of results_of fst snd app]. split; [reflexivity|].
    split; [reflexivity|].
    now rewrite length_map, length_combine, attempts_length, Nat.min_id.
Qed.

(** In duplication mode with the template's collections copied, and the
    first definition of [create_product] bound: three records, the second
    an error record, each with the default titles as its summary although
    the products went to the template's collection. *)
Lemma results_summary_is_default_list_witness :
  let server := Fixtures.serve Fixtures.store_dup in
  let out := run server Fixtures.inputs_dup Fixtures.interpreter
               (create_product_1 server Fixtures.shop) Fixtures.three_models in
  map (lookup "Collezioni") (results_of out)
  = [Some (VStr "Homepage, Pellicole per Vetri, Decorative");
     Some (VStr "Homepage, Pellicole per Vetri, Decorative");
     Some (VStr "Homepage, Pellicole per Vetri, Decorative")]
  /\ map is_error_record (results_of out) = [false; true; false]
  /\ outcome_of out = Ok tt.
Proof.
  intros server out.
  destruct (results_summary_is_default_list server Fixtures.inputs_dup
              Fixtures.interpreter (create_product_1 server Fixtures.shop)
              Fixtures.three_models) as [Hall Hrec].
  destruct (setup server Fixtures.inputs_dup Fixtures.interpreter [])
    as [[st|e] log0] eqn:Hsetup; [|vm_compute in Hsetup; discriminate Hsetup].
  destruct (Hrec st log0 eq_refl) as (Hout & _ & Hlen).
  { vm_compute in Hsetup. injection Hsetup as <- <-. vm_compute. repeat constructor. }
  fold out in Hall, Hout, Hlen.
  split; [|split; [vm_compute; reflexivity | exact Hout]].
  destruct (results_of out) as [|r1 [|r2 [|r3 [|r4 rs]]]]; try discriminate Hlen.
  apply Forall_cons_iff in Hall as [H1 Hall].
  apply Forall_cons_iff in Hall as [H2 Hall].
  apply Forall_cons_iff in Hall as [H3 _].
  cbn [map]. now rewrite H1, H2, H3.
Defined.

(** C2, on the program as written.  Once the setup has succeeded, the
    first model ends the run: the call of [client.create_product] raises
    [TypeError] (or reading the template's description raises
    [AttributeError]), which the handler for HTTP errors does not catch.
    No record is appended and no product request is sent, whatever the
    store would have answered. *)
Theorem run_app_aborts_at_first_model (server : Server) (inp : Inputs)
    (py : Interpreter) (st : Setup) (log0 : list Request) (m : ModelGroup) (rest : list ModelGroup)
    (Hsetup : setup server inp py [] = (Ok st, log0)) :
  exists e,
    run_app server inp py (m :: rest) = (Raise e, [], log0)
    /\ (e = TypeError \/ e = AttributeError).
Proof.
  unfold run_app, run. rewrite Hsetup. cbn [process_models].
  assert (H : exists e, try_model server inp (create_product server (base_url inp)) st m log0
                        = (Raise e, log0)
                        /\ (e = TypeError \/ e = AttributeError)).
  { unfold try_model. unfold mbind at 1.
    destruct (duplication_enabled inp && truthy (template_product st))%bool.
    - destruct (template_product st); cbn [get lift ret raise];
        try (exists AttributeError; split; [reflexivity | now right]).
      unfold mbind at 1.
      rewrite ClientSpec.create_product_call_raises by (cbn; discriminate).
      exists TypeError. split; [reflexivity | now left].
    - cbn [ret]. unfold mbind at 1.
      rewrite ClientSpec.create_product_call_raises by (cbn; discriminate).
      exists TypeError. split; [reflexivity | now left]. }
  destruct H as (e & -> & He). exists e. split; [|exact He].
  destruct He as [-> | ->]; reflexivity.
Qed.

Lemma run_app_aborts_at_first_model_witness :
  (exists st log0,
      setup (Fixtures.serve Fixtures.store_plain) Fixtures.inputs_plain Fixtures.interpreter [] = (Ok st, log0))
  /\ outcome_of (run_app (Fixtures.serve Fixtures.store_plain) Fixtures.inputs_plain Fixtures.interpreter
                   Fixtures.three_models) = Raise TypeError
  /\ results_of (run_app (Fixtures.serve Fixtures.store_plain) Fixtures.inputs_plain Fixtures.interpreter
                   Fixtures.three_models) = [].
Proof.
  destruct (setup (Fixtures.serve Fixtures.store_plain) Fixtures.inputs_plain Fixtures.interpreter [])
    as [[st|e] log0] eqn:Hsetup; [|vm_compute in Hsetup; discriminate Hsetup].
  split; [now exists st, log0|].
  destruct (run_app_aborts_at_first_model _ _ _ _ _ (Fixtures.group "A")
              [Fixtures.group "B"; Fixtures.group "C"] Hsetup) as (e & Hrun & He).
  change (Fixtures.group "A" :: [Fixtures.group "B"; Fixtures.group "C"])
    with Fixtures.three_models in Hrun.
  rewrite Hrun. cbn [outcome_of results_of fst snd]. split; [|reflexivity].
  destruct He as [->| ->]; [reflexivity|].
  vm_compute in Hrun. discriminate Hrun.
Defined.

(** With the first definition bound instead, the same store and the same
    three models give three records, the second being the error record
    that carries the store's answer. *)
Example run_with_first_definition :
  let out := run (Fixtures.serve Fixtures.store_plain) Fixtures.inputs_plain
               Fixtures.interpreter
               (create_product_1 (Fixtures.serve Fixtures.store_plain) Fixtures.shop)
               Fixtures.three_models in
  outcome_of out = Ok tt
  /\ map (lookup "Modello") (results_of out)
     = [Some (VStr "A"); Some (VStr "B"); Some (VStr "C")]
  /\ map is_error_record (results_of out) = [false; true; false]
  /\ map (lookup "Errore") (results_of out)
     = [None; Some (VDict [("errors", VStr "title is reserved")]); None].
Proof. vm_compute. repeat split. Qed.

(** *** What a computation adds to the log *)

Section Emits.
Variable P : Request -> Prop.

Lemma emits_ret {A} (a : A) : emits P (ret a).
Proof. intros log r log' [= <- <-]. exists []. now rewrite app_nil_r. Qed.

Lemma emits_raise {A} e : emits P (@raise A e).
Proof. intros log r log' [= <- <-]. exists []. now rewrite app_nil_r. Qed.

Lemma emits_lift {A} (x : res A) : emits P (lift x).
Proof. destruct x; [apply emits_ret | apply emits_raise]. Qed.

Lemma emits_bind {A B} (m : M A) (k : A -> M B) :
  emits P m -> (forall a, emits P (k a)) -> emits P (mbind m k).
Proof.
  intros Hm Hk log r log'. unfold mbind.
  destruct (m log) as [[a|e] log1] eqn:E.
  - intros H. destruct (Hm _ _ _ E) as (x1 & -> & H1).
    destruct (Hk a _ _ _ H) as (x2 & -> & H2).
    exists (x1 ++ x2). split; [now rewrite app_assoc | now apply Forall_app].
  - intros [= <- <-]. exact (Hm _ _ _ E).
Qed.

Lemma emits_if {A} (c : bool) (m1 m2 : M A) :
  emits P m1 -> emits P m2 -> emits P (if c then m1 else m2).
Proof. now destruct c. Qed.

Lemma emits_send server rq : P rq -> emits P (send server rq).
Proof.
  intros Hrq log r log'. unfold send.
  destruct (server log rq); intros [= <- <-]; exists [rq]; auto.
Qed.

Lemma emits_for_each {A} (xs : list A) (body : A -> M unit) :
  (forall x, emits P (body x)) -> emits P (for_each xs body).
Proof.
  intros H. induction xs as [|x r IH]; simpl; [apply emits_ret|].
  apply emits_bind; auto.
Qed.

Lemma emits_call_kw fn kwargs :
  emits P (code fn (bind_arguments fn kwargs)) -> emits P (call_kw fn kwargs).
Proof. intros H. unfold call_kw. destruct (_ && _)%bool; [exact H | apply emits_raise]. Qed.

End Emits.

Ltac emits_step :=
  match goal with
  | |- emits _ (ret _) => apply emits_ret
  | |- emits _ (raise _) => apply emits_raise
  | |- emits _ (lift _) => apply emits_lift
  | |- emits _ (mbind _ _) => apply emits_bind; [|intros ?]
  | |- emits _ (if _ then _ else _) => apply emits_if
  | |- emits _ (for_each _ _) => apply emits_for_each; intros ?
  | |- emits _ (call_kw _ _) => apply emits_call_kw
  | |- emits _ (send _ _) => apply emits_send
  end.

Lemma append_inj_l (p a b : string) : (p ++ a)%string = (p ++ b)%string -> a = b.
Proof. induction p as [|c p IH]; simpl; [auto|]. intros [= H]. auto. Qed.

Lemma harmless_request base v path params payload :
  path <> "/custom_collections.json" ->
  path <> "/smart_collections.json" ->
  v = GET \/ path <> "/collects.json" ->
  harmless base (mkRequest v (base ++ path)%string params payload).
Proof.
  intros H1 H2 H3. split.
  - intros [Hv Hu]. cbn in Hv, Hu. apply append_inj_l in Hu.
    destruct H3 as [-> | H3]; [discriminate | contradiction].
  - intros [Hu|Hu]; cbn in Hu; apply append_inj_l in Hu; contradiction.
Qed.

Ltac harmless_url :=
  apply harmless_request; [ cbn; discriminate | cbn; discriminate
                          | first [ left; reflexivity | right; cbn; discriminate ] ].

Section Orphan.
Variable server : Server.
Variable inp : Inputs.
Variable py : Interpreter.

Lemma post_product_harmless product_body :
  emits (harmless (base_url inp)) (post_product server (base_url inp) product_body).
Proof.
  unfold post_product, session_post. repeat emits_step. harmless_url.
Qed.

Lemma resolve_template_harmless :
  emits (harmless (base_url inp)) (resolve_template server inp py).
Proof.
  unfold resolve_template, stop, get_product_by_id_or_handle, get_product_by_id,
    get_product_by_handle, list_product_collections, session_get.
  repeat emits_step; harmless_url.
Qed.

Lemma try_model_harmless f st m :
  In ("create_product", f) (class_body server (base_url inp)) ->
  source_collection_ids st = [] -> collection_ids st = [] ->
  emits (harmless (base_url inp)) (try_model server inp f st m).
Proof.
  intros Hf Hsrc Hcids. unfold try_model. rewrite Hsrc, Hcids. cbn [for_each].
  destruct Hf as [[= <-]|[[= <-]|[]]];
    repeat first [ emits_step
                 | progress cbn [code create_product_1 create_product_2] ];
    apply post_product_harmless.
Qed.

Lemma process_models_log (Q : Request -> Prop) f st :
  (forall m, emits Q (try_model server inp f st m)) ->
  forall models results log,
  exists extra,
    log_of (process_models server inp f st models results log) = log ++ extra
    /\ Forall Q extra.
Proof.
  intros Htry. induction models as [|m rest IH]; intros results log; simpl.
  - exists []. split; [now rewrite app_nil_r | constructor].
  - destruct (try_model server inp f st m log) as [[record|e] log1] eqn:E;
      destruct (Htry _ _ _ _ E) as (x1 & -> & H1).
    + destruct (IH (results ++ [record]) (log ++ x1)) as (x2 & -> & H2).
      exists (x1 ++ x2). split; [now rewrite app_assoc | now apply Forall_app].
    + destruct e;
        try (exists x1; split; [reflexivity | exact H1]).
      destruct (IH (results ++ [error_record (model m) r]) (log ++ x1))
        as (x2 & -> & H2).
      exists (x1 ++ x2). split; [now rewrite app_assoc | now apply Forall_app].
Qed.

End Orphan.

(** C10.  In duplication mode with the source's collections copied, when
    the snapshot of the template's collections is empty: the map of
    default collections is empty too, and in the whole run no request
    looks up or creates a collection and none creates a collect.  This
    holds for either definition of [create_product] in the class. *)
Theorem empty_snapshot_attaches_nothing (server : Server) (inp : Inputs)
    (py : Interpreter) (f : PyFunction) (models : list ModelGroup) (st : Setup) (log0 : list Request)
    (Hf : In ("create_product", f) (class_body server (base_url inp)))
    (Hdup : duplication_enabled inp = true)
    (Hcopy : copy_source_collections inp = true)
    (Hsetup : setup server inp py [] = (Ok st, log0))
    (Hempty : source_collection_ids st = []) :
  collection_ids st = []
  /\ Forall (fun rq => ~ resolves_collection (base_url inp) rq
                       /\ ~ creates_collect (base_url inp) rq)
            (log_of (run server inp py f models)).
Proof.
  assert (Hcids : collection_ids st = []).
  { unfold setup in Hsetup. rewrite Hdup, Hcopy in Hsetup. cbn [andb negb] in Hsetup.
    apply mbind_Ok in Hsetup as (u & l1 & _ & H).
    apply mbind_Ok in H as (ts & l2 & _ & H).
    unfold mbind, ret in H. injection H as <- _. reflexivity. }
  split; [exact Hcids|].
  assert (Hlog0 : Forall (harmless (base_url inp)) log0).
  { assert (He : emits (harmless (base_url inp)) (setup server inp py)).
    { unfold setup, stop. rewrite Hdup, Hcopy. cbn [andb negb].
      repeat emits_step. apply resolve_template_harmless. }
    destruct (He _ _ _ Hsetup) as (x & -> & Hx). exact Hx. }
  unfold run. rewrite Hsetup.
  destruct (process_models_log server inp (harmless (base_url inp)) f st
              (fun m => try_model_harmless server inp f st m Hf Hempty Hcids)
              models [] log0) as (x & -> & Hx).
  apply Forall_app. split; eapply Forall_impl; try eassumption;
    intros rq [H1 H2]; auto.
Qed.

Lemma empty_snapshot_attaches_nothing_witness :
  let server := Fixtures.serve Fixtures.store_dup_orphan in
  (exists st log0,
      setup server Fixtures.inputs_dup Fixtures.interpreter [] = (Ok st, log0)
      /\ source_collection_ids st = [] /\ collection_ids st = [])
  /\ Forall (fun rq => ~ resolves_collection Fixtures.shop rq
                       /\ ~ creates_collect Fixtures.shop rq)
            (log_of (run server Fixtures.inputs_dup Fixtures.interpreter
                       (create_product_1 server Fixtures.shop) Fixtures.three_models))
  /\ Forall (fun rq => ~ resolves_collection Fixtures.shop rq
                       /\ ~ creates_collect Fixtures.shop rq)
            (log_of (run_app server Fixtures.inputs_dup Fixtures.interpreter Fixtures.three_models)).
Proof.
  intros server.
  destruct (setup server Fixtures.inputs_dup Fixtures.interpreter []) as [[st|e] log0] eqn:Hsetup;
    [|vm_compute in Hsetup; discriminate Hsetup].
  assert (Hempty : source_collection_ids st = [])
    by (vm_compute in Hsetup; now injection Hsetup as <- _).
  assert (H1 : In ("create_product", create_product_1 server Fixtures.shop)
                  (class_body server (base_url Fixtures.inputs_dup)))
    by (left; reflexivity).
  assert (H2 : In ("create_product", create_product server Fixtures.shop)
                  (class_body server (base_url Fixtures.inputs_dup)))
    by (right; left; reflexivity).
  split; [|split].
  - exists st, log0. split; [reflexivity|]. split; [exact Hempty|].
    exact (proj1 (empty_snapshot_attaches_nothing server Fixtures.inputs_dup _ _
                    Fixtures.three_models st log0 H1 eq_refl eq_refl Hsetup Hempty)).
  - exact (proj2 (empty_snapshot_attaches_nothing server Fixtures.inputs_dup _ _
                    Fixtures.three_models st log0 H1 eq_refl eq_refl Hsetup Hempty)).
  - exact (proj2 (empty_snapshot_attaches_nothing server Fixtures.inputs_dup _ _
                    Fixtures.three_models st log0 H2 eq_refl eq_refl Hsetup Hempty)).
Defined.

(** The same run with the first definition bound: three products are
    created, their records name the three default collections, and the
    log holds the two template queries and three product requests. *)
Example orphan_template_run :
  let server := Fixtures.serve Fixtures.store_dup_orphan in
  let out := run server Fixtures.inputs_dup Fixtures.interpreter (create_product_1 server Fixtures.shop)
               Fixtures.three_models in
  outcome_of out = Ok tt
  /\ map is_error_record (results_of out) = [false; false; false]
  /\ map (fun rq => (req_verb rq, req_url rq)) (log_of out)
     = [(GET, (Fixtures.shop ++ "/products.json")%string);
        (GET, (Fixtures.shop ++ "/collects.json")%string);
        (POST, (Fixtures.shop ++ "/products.json")%string);
        (POST, (Fixtures.shop ++ "/products.json")%string);
        (POST, (Fixtures.shop ++ "/products.json")%string)].
Proof. vm_compute. repeat split. Qed.

End BatchSpec.

(* ------------------------------------------------------------------ *)
(** ** Base64 and the preview *)

Module Base64Spec.
Import Py Base64.
Local Open Scope list_scope.
Local Open Scope N_scope.

Lemma alphabet_entry (k : nat) :
  (k < 64)%nat ->
  a2b (nth k alphabet "="%char) = Some (N.of_nat k)
  /\ Ascii.eqb (nth k alphabet "="%char) "=" = false
  /\ (N_of_ascii (nth k alphabet "="%char) <? 128) = true.
Proof.
  intros H.
  do 64 (destruct k as [|k]; [repeat split|]).
  lia.
Qed.

Lemma sextet_entry (n : N) :
  a2b (sextet n) = Some (N.land n 63)
  /\ Ascii.eqb (sextet n) "=" = false
  /\ (N_of_ascii (sextet n) <? 128) = true.
Proof.
  unfold sextet.
  assert (Hlt : N.land n 63 < 64).
  { change 63 with (N.ones 6). rewrite N.land_ones. now apply N.mod_lt. }
  destruct (alphabet_entry (N.to_nat (N.land n 63))) as (H1 & H2 & H3); [lia|].
  rewrite N2Nat.id in H1. auto.
Qed.

Lemma lor_shiftl_small (k x y : N) :
  y < 2 ^ k -> N.lor (N.shiftl x k) y = x * 2 ^ k + y.
Proof.
  intros Hy.
  assert (Hz : N.land (N.shiftl x k) y = 0).
  { apply N.bits_inj. intros i. rewrite N.land_spec, N.bits_0.
    destruct (N.ltb_spec i k) as [Hi|Hi].
    - now rewrite N.shiftl_spec_low.
    - rewrite <- (N.mod_small y (2 ^ k)) by exact Hy.
      rewrite N.mod_pow2_bits_high by exact Hi. apply andb_false_r. }
  rewrite <- N.lxor_lor by exact Hz.
  rewrite <- N.add_nocarry_lxor by exact Hz.
  now rewrite N.shiftl_mul_pow2.
Qed.

Lemma octet_to_N (b : byte) : octet (Byte.to_N b) = b.
Proof.
  unfold octet. pose proof (Byte.to_N_bounded b) as Hb.
  rewrite N.mod_small by lia. now rewrite Byte.of_to_N.
Qed.

(** The three octets come back from the four sextets of a packed triple. *)
Lemma quad_decodes (a b c : byte) :
  let n := pack a b c in
  let s1 := N.land (N.shiftr n 18) 63 in
  let s2 := N.land (N.shiftr n 12) 63 in
  let s3 := N.land (N.shiftr n 6) 63 in
  let s4 := N.land n 63 in
  octet (N.lor (N.shiftl s1 2) (N.shiftr s2 4)) = a
  /\ octet (N.lor (N.shiftl (N.land s2 15) 4) (N.shiftr s3 2)) = b
  /\ octet (N.lor (N.shiftl (N.land s3 3) 6) s4) = c.
Proof.
  intros n s1 s2 s3 s4.
  pose proof (Byte.to_N_bounded a) as Ha.
  pose proof (Byte.to_N_bounded b) as Hb.
  pose proof (Byte.to_N_bounded c) as Hc.
  assert (Hn : n = Byte.to_N a * 65536 + Byte.to_N b * 256 + Byte.to_N c).
  { unfold n, pack.
    rewrite (lor_shiftl_small 8) by (change (2 ^ 8) with 256; lia).
    rewrite (lor_shiftl_small 16) by (change (2 ^ 8) with 256; change (2 ^ 16) with 65536; lia).
    change (2 ^ 8) with 256. change (2 ^ 16) with 65536. lia. }
  assert (H1 : s1 = n / 262144 mod 64)
    by (unfold s1; change 63 with (N.ones 6); now rewrite N.land_ones, N.shiftr_div_pow2).
  assert (H2 : s2 = n / 4096 mod 64)
    by (unfold s2; change 63 with (N.ones 6); now rewrite N.land_ones, N.shiftr_div_pow2).
  assert (H3 : s3 = n / 64 mod 64)
    by (unfold s3; change 63 with (N.ones 6); now rewrite N.land_ones, N.shiftr_div_pow2).
  assert (H4 : s4 = n mod 64)
    by (unfold s4; change 63 with (N.ones 6); now rewrite N.land_ones).
  clearbody n s1 s2 s3 s4.
  change 15 with (N.ones 4). change 3 with (N.ones 2).
  rewrite !N.land_ones, !N.shiftr_div_pow2.
  rewrite (lor_shiftl_small 2), (lor_shiftl_small 4), (lor_shiftl_small 6).
  - change (2 ^ 2) with 4. change (2 ^ 4) with 16. change (2 ^ 6) with 64.
    split; [|split].
    + transitivity (octet (Byte.to_N a)); [f_equal | apply octet_to_N].
      subst. zify; Z.to_euclidean_division_equations; lia.
    + transitivity (octet (Byte.to_N b)); [f_equal | apply octet_to_N].
      subst. zify; Z.to_euclidean_division_equations; lia.
    + transitivity (octet (Byte.to_N c)); [f_equal | apply octet_to_N].
      subst. zify; Z.to_euclidean_division_equations; lia.
  - change (2 ^ 6) with 64. subst. zify; Z.to_euclidean_division_equations; lia.
  - change (2 ^ 2) with 4. change (2 ^ 4) with 16. subst.
    zify; Z.to_euclidean_division_equations; lia.
  - change (2 ^ 2) with 4. change (2 ^ 4) with 16. subst.
    zify; Z.to_euclidean_division_equations; lia.
Qed.

Lemma loop_sextet (m : N) (r : string) (q : nat) (l : N) (p : nat) (out : list byte) :
  a2b_loop (String (sextet m) r) q l p out
  = match q with
    | O => a2b_loop r 1 (N.land m 63) 0 out
    | S O =>
        a2b_loop r 2 (N.land (N.land m 63) 15) 0
          (octet (N.lor (N.shiftl l 2) (N.shiftr (N.land m 63) 4)) :: out)
    | S (S O) =>
        a2b_loop r 3 (N.land (N.land m 63) 3) 0
          (octet (N.lor (N.shiftl l 4) (N.shiftr (N.land m 63) 2)) :: out)
    | _ => a2b_loop r 0 0 0 (octet (N.lor (N.shiftl l 6) (N.land m 63)) :: out)
    end.
Proof.
  destruct (sextet_entry m) as (H1 & H2 & _).
  cbn [a2b_loop]. rewrite H2, H1. reflexivity.
Qed.

Lemma list_ind3 {A} (P : list A -> Prop) :
  P [] -> (forall a, P [a]) -> (forall a b, P [a; b]) ->
  (forall a b c l, P l -> P (a :: b :: c :: l)) ->
  forall l, P l.
Proof.
  intros H0 H1 H2 H3.
  fix IH 1. intros [|a [|b [|c l]]];
    [exact H0 | apply H1 | apply H2 | apply H3, IH].
Qed.

Lemma a2b_loop_encode (raw : list byte) :
  forall out, a2b_loop (b64encode raw) 0 0 0 out = Ok (rev out ++ raw).
Proof.
  induction raw as [|a|a b|a b c rest IH] using list_ind3; intros out.
  - simpl. now rewrite app_nil_r.
  - destruct (quad_decodes a x00 x00) as (Ha & _).
    cbn [b64encode]. rewrite !loop_sextet. cbn zeta in Ha. rewrite Ha.
    cbn. rewrite <- ?app_assoc. reflexivity.
  - destruct (quad_decodes a b x00) as (Ha & Hb & _).
    cbn [b64encode]. rewrite !loop_sextet. cbn zeta in Ha, Hb. rewrite Ha, Hb.
    cbn. rewrite <- ?app_assoc. reflexivity.
  - destruct (quad_decodes a b c) as (Ha & Hb & Hc).
    cbn [b64encode]. rewrite !loop_sextet. cbn zeta in Ha, Hb, Hc.
    rewrite Ha, Hb, Hc, IH. cbn [rev]. rewrite <- ?app_assoc. reflexivity.
Qed.

Lemma only_ascii_encode (raw : list byte) : only_ascii (b64encode raw) = true.
Proof.
  induction raw as [|a|a b|a b c rest IH] using list_ind3;
    cbn [b64encode only_ascii];
    repeat match goal with
           | |- context [N_of_ascii (sextet ?m) <? 128] =>
               rewrite (proj2 (proj2 (sextet_entry m)))
           end; try rewrite IH; reflexivity.
Qed.

(** Decoding undoes encoding. *)
Lemma b64decode_b64encode (raw : list byte) : b64decode (b64encode raw) = Ok raw.
Proof.
  unfold b64decode. rewrite only_ascii_encode. apply (a2b_loop_encode raw []).
Qed.

End Base64Spec.

(* ------------------------------------------------------------------ *)
(** ** More on the extractor *)

Module ExtractorMore.
Import Py Extractor Notions ExtractorSpec.
Local Open Scope list_scope.

Lemma scan_entry_ignored folders x :
  is_dir x = true \/ is_image (filename x) = false
  \/ (List.length (PyStr.split_on "/" (filename x)) < 2)%nat ->
  scan_entry folders x = folders.
Proof.
  intros H. unfold scan_entry.
  destruct (is_dir x); [reflexivity|].
  destruct (is_image (filename x)); [simpl|reflexivity].
  destruct H as [H|[H|H]]; try discriminate.
  apply Nat.ltb_lt in H. now rewrite H.
Qed.

(** X1.  A directory entry, a file that is no image, or a file at the
    archive root can be dropped from the archive without changing what
    [parse_zip_models] returns. *)
Theorem ignored_entries_do_not_matter (mktime : datetime -> option Z)
    (before after : list ZipInfo) (x : ZipInfo)
    (Hx : is_dir x = true \/ is_image (filename x) = false
          \/ (List.length (PyStr.split_on "/" (filename x)) < 2)%nat) :
  parse_zip_models mktime (before ++ x :: after)
  = parse_zip_models mktime (before ++ after).
Proof.
  unfold parse_zip_models, scan. rewrite !fold_left_app. cbn [fold_left].
  now rewrite (scan_entry_ignored _ _ Hx).
Qed.

Lemma ignored_entries_do_not_matter_witness :
  (List.length (PyStr.split_on "/" (filename Fixtures.at_root)) < 2)%nat
  /\ parse_zip_models Fixtures.utc
       ([Fixtures.aurora_new] ++ Fixtures.at_root :: [Fixtures.aurora_old])
     = parse_zip_models Fixtures.utc ([Fixtures.aurora_new] ++ [Fixtures.aurora_old]).
Proof.
  assert (H : (List.length (PyStr.split_on "/" (filename Fixtures.at_root)) < 2)%nat)
    by (vm_compute; lia).
  split; [exact H|].
  apply (ignored_entries_do_not_matter Fixtures.utc [Fixtures.aurora_new]
           [Fixtures.aurora_old] Fixtures.at_root).
  right. right. exact H.
Defined.



(** X3.  Whenever extraction returns, a name is the name of a group
    exactly when some entry of the archive is an image, no directory,
    nested in a folder, and its first path segment, trimmed, is that
    name.  Extraction returns when the entries it files can be read. *)
Theorem group_names_are_image_folders (mktime : datetime -> option Z)
    (infolist : list ZipInfo) :
  (forall groups,
     parse_zip_models mktime infolist = Ok groups ->
     forall name,
       In name (map model groups)
       <-> exists x, In x infolist /\ filed x = true /\ folder_key x = name)
  /\ ((forall i, In i infolist -> filed i = true -> readable i = true) ->
      exists groups, parse_zip_models mktime infolist = Ok groups).
Proof.
  split; [|intros Hread; eexists; now apply parse_zip_models_readable].
  intros groups Hret. apply parse_zip_models_Ok in Hret as [-> _].
  intros name. unfold extracted. rewrite map_map. cbn [model].
  apply scan_names_iff.
Qed.

(** The folder written with blanks around its name gives the group "X". *)
Lemma group_names_are_image_folders_witness :
  exists groups,
    parse_zip_models Fixtures.utc Fixtures.archive = Ok groups
    /\ In "X" (map model groups).
Proof.
  destruct (group_names_are_image_folders Fixtures.utc Fixtures.archive)
    as (Hnames & Hret).
  destruct Hret as [groups Hg].
  { intros i Hi _.
    repeat (destruct Hi as [<-|Hi]; [reflexivity|]). destruct Hi. }
  exists groups. split; [exact Hg|].
  apply (Hnames groups Hg). exists Fixtures.solo.
  split; [|split; reflexivity].
  unfold Fixtures.archive. simpl. tauto.
Defined.

(** X4.  Whenever extraction returns, the groups come out in the order in
    which their folders are first met in the archive.  Extraction returns
    when the entries it files can be read. *)
Theorem groups_in_first_seen_order (mktime : datetime -> option Z)
    (infolist : list ZipInfo) :
  (forall groups,
     parse_zip_models mktime infolist = Ok groups ->
     map model groups = first_seen (map folder_key (filter filed infolist)))
  /\ ((forall i, In i infolist -> filed i = true -> readable i = true) ->
      exists groups, parse_zip_models mktime infolist = Ok groups).
Proof.
  split; [|intros Hread; eexists; now apply parse_zip_models_readable].
  intros groups Hret. apply parse_zip_models_Ok in Hret as [-> _].
  apply extracted_models.
Qed.

Lemma groups_in_first_seen_order_witness :
  exists groups,
    parse_zip_models Fixtures.utc Fixtures.archive = Ok groups
    /\ map model groups = ["AURORA-01"; "X"].
Proof.
  destruct (groups_in_first_seen_order Fixtures.utc Fixtures.archive)
    as (Horder & Hret).
  destruct Hret as [groups Hg].
  { intros i Hi _.
    repeat (destruct Hi as [<-|Hi]; [reflexivity|]). destruct Hi. }
  exists groups. split; [exact Hg|].
  exact (Horder groups Hg).
Defined.

(** X5.  Within a folder, [sorted] returns a rearrangement of the entries
    in which the keys ascend and entries with the same key keep their
    archive order. *)
Theorem sorted_by_timestamp_is_stable (mktime : datetime -> option Z)
    (infos : list ZipInfo) :
  exists infos_sorted,
    sorted Z.leb (fun i => human_ts mktime (date_time i)) infos = Ok infos_sorted
    /\ Permutation infos_sorted infos
    /\ Sorted (fun a b => ts_key mktime (date_time a) <= ts_key mktime (date_time b))
              infos_sorted
    /\ (forall k,
          filter (fun i => ts_key mktime (date_time i) =? k) infos_sorted
          = filter (fun i => ts_key mktime (date_time i) =? k) infos)
    /\ (forall i, human_ts mktime (date_time i) = Ok (ts_key mktime (date_time i))).
Proof.
  exists (ordered mktime infos).
  split; [apply sorted_human_ts|].
  split; [apply ordered_perm|].
  destruct (ordered_ascending_stable mktime infos) as [Hs Hst].
  split; [exact Hs|]. split; [exact Hst|].
  intros i. apply human_ts_returns.
Qed.

End ExtractorMore.

(* ------------------------------------------------------------------ *)
(** ** File names *)

Module NameFacts.
Import Py Extractor Notions ExtractorSpec.
Local Open Scope string_scope.

Lemma append_nil_r (s : string) : s ++ "" = s.
Proof. induction s as [|c r IH]; simpl; [reflexivity | now rewrite IH]. Qed.

Lemma append_assoc (a b c : string) : (a ++ b) ++ c = a ++ (b ++ c).
Proof. induction a as [|x r IH]; simpl; [reflexivity | now rewrite IH]. Qed.

Lemma rev_acc_spec (s acc : string) : PyStr.rev_acc s acc = PyStr.rev s ++ acc.
Proof.
  unfold PyStr.rev. revert acc.
  induction s as [|c r IH]; intros acc; simpl; [reflexivity|].
  rewrite (IH (String c acc)), (IH (String c "")), append_assoc. reflexivity.
Qed.

Lemma rev_app (a b : string) : PyStr.rev (a ++ b) = PyStr.rev b ++ PyStr.rev a.
Proof.
  induction a as [|c r IH]; simpl.
  - now rewrite append_nil_r.
  - unfold PyStr.rev in *. simpl.
    rewrite (rev_acc_spec (r ++ b)), (rev_acc_spec r). unfold PyStr.rev.
    rewrite IH, append_assoc. reflexivity.
Qed.

Lemma rev_involutive (s : string) : PyStr.rev (PyStr.rev s) = s.
Proof.
  induction s as [|c r IH]; [reflexivity|].
  change (String c r) with (String c "" ++ r) at 1.
  rewrite rev_app, rev_app, IH. reflexivity.
Qed.

Lemma prefix_iff (a b : string) : String.prefix a b = true <-> exists c, b = a ++ c.
Proof.
  revert b. induction a as [|x r IH]; intros b.
  - split; [intros _; now exists b | intros _; destruct b; reflexivity].
  - destruct b as [|y b']; simpl.
    + split; [discriminate | intros [c [=]]].
    + destruct (ascii_dec x y) as [->|Hne].
      * rewrite IH. split; intros [c H]; exists c; [now rewrite H | now injection H].
      * split; [discriminate | intros [c H]; congruence].
Qed.

(** [s.endswith(t)] holds exactly when [s] is something followed by [t]. *)
Lemma endswith_iff (s t : string) :
  PyStr.endswith s t = true <-> exists p, s = p ++ t.
Proof.
  unfold PyStr.endswith. rewrite prefix_iff. split.
  - intros [c H]. exists (PyStr.rev c).
    rewrite <- (rev_involutive s), H, rev_app, rev_involutive. reflexivity.
  - intros [p ->]. exists (PyStr.rev p). apply rev_app.
Qed.

Lemma lower_app (a b : string) : PyStr.lower (a ++ b) = PyStr.lower a ++ PyStr.lower b.
Proof. induction a as [|c r IH]; simpl; [reflexivity | now rewrite IH]. Qed.

Lemma lower_split (s p' t' : string) :
  PyStr.lower s = p' ++ t' ->
  exists p t, s = p ++ t /\ PyStr.lower p = p' /\ PyStr.lower t = t'.
Proof.
  revert s. induction p' as [|c r IH]; intros s H.
  - exists "", s. auto.
  - destruct s as [|x s']; [discriminate|].
    simpl in H. injection H as Hc Hr.
    destruct (IH _ Hr) as (p & t & -> & Hp & Ht).
    exists (String x p), t. simpl. rewrite Hc, Hp. auto.
Qed.

Lemma is_image_suffix (fname : string) :
  is_image fname = true
  <-> exists stem ext,
        fname = stem ++ ext /\ In (PyStr.lower ext) IMAGE_SUFFIXES.
Proof.
  unfold is_image, PyStr.endswith_any. rewrite existsb_exists. split.
  - intros (suffix & Hin & He). apply endswith_iff in He as [p' He].
    destruct (lower_split _ _ _ He) as (p & t & -> & _ & Ht).
    exists p, t. split; [reflexivity|]. rewrite Ht. exact Hin.
  - intros (stem & ext & -> & Hin). exists (PyStr.lower ext).
    split; [exact Hin|]. apply endswith_iff. exists (PyStr.lower stem).
    apply lower_app.
Qed.

(** X6.  A name is an image name exactly when it ends with one of the six
    extensions, the letters of the extension in either case. *)
Theorem is_image_iff (fname : string) :
  is_image fname = true
  <-> exists stem ext,
        fname = stem ++ ext
        /\ In (PyStr.lower ext) [".jpg"; ".jpeg"; ".png"; ".gif"; ".webp"; ".bmp"].
Proof. exact (is_image_suffix fname). Qed.

(** *** Base names *)

Lemma split_on_nonempty s : PyStr.split_on "/" s <> [].
Proof.
  destruct s as [|c r]; simpl; [discriminate|].
  destruct (Ascii.eqb c "/"); [discriminate|].
  destruct (PyStr.split_on "/" r); discriminate.
Qed.

Lemma split_on_slash_free s :
  Forall (fun part => slash_free part = true) (PyStr.split_on "/" s).
Proof.
  induction s as [|c r IH]; simpl; [repeat constructor|].
  destruct (Ascii.eqb c "/") eqn:E; [constructor; [reflexivity | exact IH]|].
  destruct (PyStr.split_on "/" r) as [|p ps]; [repeat constructor; simpl; now rewrite E|].
  inversion IH; subst. constructor; [simpl; now rewrite E | assumption].
Qed.

Lemma basename_slash_free p : slash_free (PyStr.basename p) = true.
Proof.
  unfold PyStr.basename.
  pose proof (split_on_slash_free p) as H.
  pose proof (split_on_nonempty p) as Hne.
  induction H as [|x l Hx Hl IH]; [congruence|].
  destruct l as [|y l']; [exact Hx|].
  apply IH. discriminate.
Qed.

Lemma split_on_whole ext :
  slash_free ext = true -> PyStr.split_on "/" ext = [ext].
Proof.
  induction ext as [|c r IH]; simpl; [reflexivity|].
  intros H. apply andb_prop in H as [Hc Hr]. apply negb_true_iff in Hc.
  rewrite Hc, (IH Hr). reflexivity.
Qed.

Lemma split_on_app_last s ext :
  slash_free ext = true ->
  PyStr.split_on "/" (s ++ ext)
  = (removelast (PyStr.split_on "/" s)
     ++ [(List.last (PyStr.split_on "/" s) "" ++ ext)%string])%list.
Proof.
  intros Hext. induction s as [|c r IH].
  - simpl. now apply split_on_whole.
  - pose proof (split_on_nonempty r) as Hne.
    cbn [append PyStr.split_on]. rewrite IH.
    destruct (PyStr.split_on "/" r) as [|p ps]; [congruence|].
    destruct (Ascii.eqb c "/"); destruct ps as [|q qs]; reflexivity.
Qed.

Lemma basename_app stem ext :
  slash_free ext = true ->
  PyStr.basename (stem ++ ext) = PyStr.basename stem ++ ext.
Proof.
  intros H. unfold PyStr.basename. rewrite (split_on_app_last _ _ H).
  apply last_last.
Qed.

Lemma lower_char_slash c :
  Ascii.eqb (PyStr.lower_char c) "/" = Ascii.eqb c "/".
Proof. destruct c as [[] [] [] [] [] [] [] []]; reflexivity. Qed.

Lemma slash_free_lower s : slash_free (PyStr.lower s) = slash_free s.
Proof.
  induction s as [|c r IH]; simpl; [reflexivity|].
  now rewrite lower_char_slash, IH.
Qed.

Lemma is_image_basename fname :
  is_image fname = true -> is_image (PyStr.basename fname) = true.
Proof.
  intros H. apply is_image_suffix in H as (stem & ext & -> & Hin).
  assert (Hfree : slash_free ext = true).
  { rewrite <- slash_free_lower.
    simpl in Hin. intuition (subst; try contradiction);
      match goal with H : _ = PyStr.lower ext |- _ => rewrite <- H; reflexivity end. }
  rewrite (basename_app _ _ Hfree). apply is_image_suffix. eauto.
Qed.

(** X7.  Whenever extraction returns, every payload of every group
    carries as its filename a bare image name: no slash in it, and one of
    the six extensions at its end.  Extraction returns when the entries
    it files can be read. *)
Theorem payload_filenames_are_bare_image_names (mktime : datetime -> option Z)
    (infolist : list ZipInfo) :
  (forall groups,
     parse_zip_models mktime infolist = Ok groups ->
     Forall (fun g =>
       Forall (fun p =>
         exists name,
           getitem_str p "filename" = Ok (VStr name)
           /\ slash_free name = true /\ is_image name = true) (images g)) groups)
  /\ ((forall i, In i infolist -> filed i = true -> readable i = true) ->
      exists groups, parse_zip_models mktime infolist = Ok groups).
Proof.
  split; [|intros Hread; eexists; now apply parse_zip_models_readable].
  intros groups Hret. apply parse_zip_models_Ok in Hret as [-> _].
  unfold extracted.
  apply Forall_forall. intros g Hg.
  apply in_map_iff in Hg as ([f infos] & <- & _). cbn [images fst].
  apply Forall_forall. intros p Hp.
  apply in_map_iff in Hp as ([pos info] & <- & Hin).
  exists (PyStr.basename (filename info)).
  split; [reflexivity|]. split; [apply basename_slash_free|].
  apply is_image_basename.
  assert (Hraw : In info (folder_entries infolist f)).
  { assert (Hk : In info (firstn 2 (ordered mktime (folder_entries infolist f)))).
    { clear - Hin. revert Hin. generalize 1%Z.
      induction (firstn 2 (ordered mktime (folder_entries infolist f))) as [|y l IH];
        intros z; simpl; [tauto|].
      intros [[= _ ->]|H]; [now left | right; eapply IH, H]. }
    apply In_firstn in Hk. exact (proj1 (ordered_In _ _ _) Hk). }
  eapply folder_entries_images, Hraw.
Qed.

End NameFacts.

(* ------------------------------------------------------------------ *)
(** ** The preview *)

Module PreviewSpec.
Import Py Extractor Preview Notions ExtractorSpec.
Local Open Scope list_scope.

Lemma mapM_map {X Y W} (f : Y -> res W) (h : X -> Y) (l : list X) :
  mapM f (map h l) = mapM (fun x => f (h x)) l.
Proof. induction l as [|x r IH]; simpl; [reflexivity | now rewrite IH]. Qed.

Lemma Forall2_map_both {X Y W} (R : Y -> W -> Prop) (g : X -> Y) (h : X -> W)
    (l : list X) :
  (forall x, R (g x) (h x)) -> Forall2 R (map g l) (map h l).
Proof. intros H. induction l; simpl; constructor; auto. Qed.

Lemma Forall2_map_r {X Y} (R : X -> Y -> Prop) (h : X -> Y) (l : list X) :
  (forall x, In x l -> R x (h x)) -> Forall2 R l (map h l).
Proof.
  induction l as [|x r IH]; simpl; intros H; constructor.
  - apply H. now left.
  - apply IH. intros y Hy. apply H. now right.
Qed.

Section WithRepr.
Variable repr_container : value -> string.
Variable col_image : list byte -> string -> res unit.

Lemma preview_image_payload pos info :
  preview_image repr_container col_image (image_payload pos info)
  = bind (col_image (data info) (caption_of pos info))
         (fun _ => Ok (data info, caption_of pos info)).
Proof.
  unfold preview_image, image_payload, payload.
  cbn [getitem_str lookup String.eqb Ascii.eqb Bool.eqb bind b64decode_value].
  rewrite Base64Spec.b64decode_b64encode. reflexivity.
Qed.

Lemma preview_images_accepted (l : list (Z * ZipInfo)) :
  (forall pos i, In (pos, i) l -> col_image (data i) (caption_of pos i) = Ok tt) ->
  mapM (preview_image repr_container col_image)
       (map (fun '(pos, info) => image_payload pos info) l)
  = Ok (map (fun '(pos, info) => (data info, caption_of pos info)) l).
Proof.
  intros H. rewrite mapM_map.
  apply (mapM_returns _ (fun '(pos, info) => (data info, caption_of pos info))).
  intros [pos i] Hin. rewrite preview_image_payload, (H _ _ Hin). reflexivity.
Qed.

Lemma preview_images_refused (l : list (Z * ZipInfo)) e :
  mapM (preview_image repr_container col_image)
       (map (fun '(pos, info) => image_payload pos info) l) = Raise e ->
  exists pos i, In (pos, i) l /\ col_image (data i) (caption_of pos i) = Raise e.
Proof.
  rewrite mapM_map. intros H. apply mapM_Raise in H as ([pos i] & Hin & Hr).
  exists pos, i. split; [exact Hin|].
  rewrite preview_image_payload in Hr. unfold bind in Hr.
  destruct (col_image (data i) (caption_of pos i)); [discriminate | congruence].
Qed.

(** X8.  On what [parse_zip_models] returned, the preview decodes each
    attachment without error, back to the bytes [zf.read] returned for
    the retained entry, and hands them to [col.image] with the caption
    made of the base name and the position.  When [col.image] accepts
    these pictures the preview returns, one panel per group with the
    group's warnings and one column per image; what the preview raises
    was raised by [col.image] on one of these pictures. *)
Theorem preview_shows_archive_bytes (mktime : datetime -> option Z)
    (infolist : list ZipInfo) (groups : list ModelGroup)
    (Hret : parse_zip_models mktime infolist = Ok groups) :
  Forall (fun g =>
      Forall (fun i => read i = Ok (data i)) (retained mktime infolist (model g))
      /\ map (fun img => bind (getitem_str img "attachment") b64decode_value) (images g)
         = map (fun i => Ok (data i)) (retained mktime infolist (model g)))
    groups
  /\ ((forall g raw caption,
          In g groups -> In (raw, caption) (shown mktime infolist (model g)) ->
          col_image raw caption = Ok tt) ->
      exists panels,
        preview repr_container col_image groups = Ok panels
        /\ Forall2 (fun g p =>
             pictures p = shown mktime infolist (model g)
             /\ shown_warnings p = warnings g
             /\ columns p = List.length (images g)) groups panels)
  /\ (forall e,
        preview repr_container col_image groups = Raise e ->
        exists g raw caption,
          In g groups /\ In (raw, caption) (shown mktime infolist (model g))
          /\ col_image raw caption = Raise e).
Proof.
  apply parse_zip_models_Ok in Hret as [-> Hread].
  destruct (scan_groups infolist) as (_ & Hin & _).
  assert (Hgroup : forall g, In g (extracted mktime infolist) ->
            In (model g) (map fst (scan infolist))
            /\ images g = map (fun '(pos, info) => image_payload pos info)
                              (enumerate 1 (retained mktime infolist (model g)))
            /\ retained mktime infolist (model g) <> []).
  { intros g Hg. apply in_map_iff in Hg as ([f infos] & <- & Hscan).
    cbn [model images fst]. split; [apply in_map_iff; now exists (f, infos)|].
    split; [reflexivity|].
    destruct (Hin _ _ Hscan) as [-> Hne]. unfold retained.
    pose proof (ordered_length mktime (folder_entries infolist f)) as Hlen.
    destruct (folder_entries infolist f); [congruence|].
    destruct (ordered mktime (z :: l)); [discriminate Hlen | discriminate]. }
  split; [|split].
  - apply Forall_forall. intros g Hg.
    destruct (Hgroup g Hg) as (Hf & Himg & _). split.
    + apply Forall_forall. intros i Hi. apply readable_data. now apply (Hread (model g)).
    + rewrite Himg, map_map. clear Himg. generalize 1.
      induction (retained mktime infolist (model g)) as [|i r IH]; intros start;
        simpl; [reflexivity|].
      rewrite IH. f_equal.
      unfold image_payload, payload.
      cbn [getitem_str lookup String.eqb Ascii.eqb Bool.eqb bind b64decode_value].
      apply Base64Spec.b64decode_b64encode.
  - intros Hacc.
    exists (map (fun g => mkPanel
                   ("Modello: " ++ model g ++ " — "
                    ++ PyStr.str_nat (List.length (images g)) ++ " immagini")%string
                   (warnings g) (List.length (images g))
                   (shown mktime infolist (model g)))
                (extracted mktime infolist)).
    split.
    + unfold preview. apply mapM_returns. intros g Hg.
      destruct (Hgroup g Hg) as (_ & Himg & Hne).
      unfold preview_model. rewrite Himg at 1.
      rewrite preview_images_accepted.
      * cbn [bind]. fold (shown mktime infolist (model g)).
        destruct (List.length (images g)) eqn:E; [|reflexivity].
        rewrite Himg, length_map, enumerate_length in E.
        destruct (retained mktime infolist (model g)); [congruence | discriminate].
      * intros pos i Hi. apply (Hacc g); [exact Hg|].
        unfold shown. apply in_map_iff. now exists (pos, i).
    + apply Forall2_map_r. intros g _. cbn [pictures shown_warnings columns]. auto.
  - intros e He. unfold preview in He.
    apply mapM_Raise in He as (g & Hg & Hr).
    destruct (Hgroup g Hg) as (_ & Himg & _).
    unfold preview_model, bind in Hr.
    destruct (mapM _ (images g)) as [pics|e'] eqn:E; [discriminate|].
    injection Hr as ->. rewrite Himg in E.
    apply preview_images_refused in E as (pos & i & Hi & Hc).
    exists g, (data i), (caption_of pos i). split; [exact Hg|]. split; [|exact Hc].
    unfold shown. apply in_map_iff. now exists (pos, i).
Qed.

End WithRepr.

(** With a [col.image] that accepts everything: the two pictures of the
    folder, oldest first, with the bytes of the archive entries. *)
Lemma preview_shows_archive_bytes_witness :
  exists groups panels,
    parse_zip_models Fixtures.utc [Fixtures.aurora_new; Fixtures.aurora_old] = Ok groups
    /\ preview (fun _ => "") (fun _ _ => Ok tt) groups = Ok panels
    /\ map pictures panels
       = [[([x4d; x61], "a.JPG (pos 1)"); ([x4d; x61; x6e], "b.jpg (pos 2)")]].
Proof.
  eexists. 
  assert (Hret : parse_zip_models Fixtures.utc [Fixtures.aurora_new; Fixtures.aurora_old]
                 = Ok (extracted Fixtures.utc [Fixtures.aurora_new; Fixtures.aurora_old]))
    by reflexivity.
  destruct (preview_shows_archive_bytes (fun _ => "") (fun _ _ => Ok tt) _ _ _ Hret)
    as (_ & Hshow & _).
  destruct Hshow as (panels & Hp & Hall); [reflexivity|].
  exists panels. split; [exact Hret|]. split; [exact Hp|].
  vm_compute in Hp. injection Hp as <-. reflexivity.
Defined.

End PreviewSpec.

(* ------------------------------------------------------------------ *)
(** ** More on the client *)

Module ClientMore.
Import Py Client Notions.
Local Open Scope py_scope.
Local Open Scope list_scope.

Ltac crunch :=
  repeat first
    [ reflexivity
    | match goal with
      | |- context [lift ?x _] => destruct x; cbn [lift ret raise]
      | |- context [if ?c then _ else _] => destruct c
      end ].

Section Methods.
Variable server : Server.
Variable base : string.
Variable py : Interpreter.

Lemma find_custom_log title log :
  snd (_find_custom_collection server base title log)
  = log ++ [custom_request base title].
Proof.
  unfold _find_custom_collection, custom_request, mbind, session_get, send.
  destruct (server log _) as [r|]; [|reflexivity]. crunch.
Qed.

Lemma find_smart_log title log :
  snd (_find_smart_collection server base title log)
  = log ++ [smart_request base title].
Proof.
  unfold _find_smart_collection, smart_request, mbind, session_get, send.
  destruct (server log _) as [r|]; [|reflexivity]. crunch.
Qed.

Lemma add_product_to_collection_log product_id collection_id log :
  snd (add_product_to_collection server base product_id collection_id log)
  = log ++ [collect_request base product_id collection_id].
Proof.
  unfold add_product_to_collection, collect_request, mbind, session_post, send.
  destruct (server log _) as [r|]; [|reflexivity]. crunch.
Qed.

Lemma list_product_collections_log product_id log :
  snd (list_product_collections server base product_id log)
  = log ++ [collects_query base product_id].
Proof.
  unfold list_product_collections, collects_query, mbind, session_get, send.
  destruct (server log _) as [r|]; [|reflexivity]. crunch.
Qed.

Lemma get_product_by_id_log pid log :
  snd (get_product_by_id server base pid log)
  = log ++ [product_by_id_request base pid].
Proof.
  unfold get_product_by_id, product_by_id_request, mbind, session_get, send.
  destruct (server log _) as [r|]; [|reflexivity]. cbn [ret]. crunch.
Qed.

Lemma get_product_by_handle_log handle log :
  snd (get_product_by_handle server base handle log)
  = log ++ [product_by_handle_request base handle].
Proof.
  unfold get_product_by_handle, product_by_handle_request, mbind, session_get, send.
  destruct (server log _) as [r|]; [|reflexivity]. crunch.
Qed.

Lemma get_product_by_id_or_handle_log ident log :
  get_product_by_id_or_handle server base py ident log
  = if isdigit py (PyStr.strip ident)
    then match int py (PyStr.strip ident) with
         | Ok pid => get_product_by_id server base pid log
         | Raise e => (Raise e, log)
         end
    else get_product_by_handle server base (PyStr.strip ident) log.
Proof.
  unfold get_product_by_id_or_handle.
  destruct (isdigit py (PyStr.strip ident)); [|reflexivity].
  unfold mbind. destruct (int py (PyStr.strip ident)); reflexivity.
Qed.

(** X9.  Each of these client methods sends exactly one request, the same
    whatever the store answers and whether or not the call succeeds:
    nothing is retried and nothing else is asked.  The lookup by id or
    handle trims its argument and goes by id when [isdigit] accepts it,
    by handle otherwise; when [int] refuses the digits it raises before
    any request is sent. *)
Theorem client_methods_send_one_request (log : list Request) :
  (forall title,
      snd (_find_custom_collection server base title log)
      = log ++ [custom_request base title])
  /\ (forall title,
        snd (_find_smart_collection server base title log)
        = log ++ [smart_request base title])
  /\ (forall product_id collection_id,
        snd (add_product_to_collection server base product_id collection_id log)
        = log ++ [collect_request base product_id collection_id])
  /\ (forall product_id,
        snd (list_product_collections server base product_id log)
        = log ++ [collects_query base product_id])
  /\ (forall pid,
        snd (get_product_by_id server base pid log)
        = log ++ [product_by_id_request base pid])
  /\ (forall handle,
        snd (get_product_by_handle server base handle log)
        = log ++ [product_by_handle_request base handle])
  /\ (forall ident,
        let ident' := PyStr.strip ident in
        (isdigit py ident' = false ->
         get_product_by_id_or_handle server base py ident log
         = get_product_by_handle server base ident' log
         /\ snd (get_product_by_id_or_handle server base py ident log)
            = log ++ [product_by_handle_request base ident'])
        /\ (forall pid,
              isdigit py ident' = true -> int py ident' = Ok pid ->
              get_product_by_id_or_handle server base py ident log
              = get_product_by_id server base pid log
              /\ snd (get_product_by_id_or_handle server base py ident log)
                 = log ++ [product_by_id_request base pid])
        /\ (forall e,
              isdigit py ident' = true -> int py ident' = Raise e ->
              get_product_by_id_or_handle server base py ident log = (Raise e, log)))
  /\ (forall product_body,
        snd (post_product server base product_body log)
        = log ++ [product_request base product_body]).
Proof.
  repeat split; intros.
  - apply find_custom_log.
  - apply find_smart_log.
  - apply add_product_to_collection_log.
  - apply list_product_collections_log.
  - apply get_product_by_id_log.
  - apply get_product_by_handle_log.
  - rewrite get_product_by_id_or_handle_log.
    match goal with H : _ = false |- _ => now rewrite H end.
  - rewrite get_product_by_id_or_handle_log.
    match goal with H : _ = false |- _ => rewrite H end.
    apply get_product_by_handle_log.
  - rewrite get_product_by_id_or_handle_log.
    match goal with H : isdigit _ _ = true, H' : int _ _ = _ |- _ =>
      now rewrite H, H' end.
  - rewrite get_product_by_id_or_handle_log.
    match goal with H : isdigit _ _ = true, H' : int _ _ = _ |- _ =>
      rewrite H, H' end.
    apply get_product_by_id_log.
  - rewrite get_product_by_id_or_handle_log.
    match goal with H : isdigit _ _ = true, H' : int _ _ = _ |- _ =>
      now rewrite H, H' end.
  - apply ClientSpec.post_product_log.
Qed.

(** X10.  When the store answers the request of a method with a status
    from 400 to 599, the method raises the HTTP error that carries this
    very response (status and body), except that [get_product_by_id]
    treats 404 as absence. *)
Theorem http_errors_propagate (log : list Request) (r : Response)
    (Hr : 400 <= status_code r < 600) :
  (forall title,
      server log (custom_request base title) = Some r ->
      _find_custom_collection server base title log
      = (Raise (HTTPError r), log ++ [custom_request base title]))
  /\ (forall title,
        server log (smart_request base title) = Some r ->
        _find_smart_collection server base title log
        = (Raise (HTTPError r), log ++ [smart_request base title]))
  /\ (forall product_id collection_id,
        server log (collect_request base product_id collection_id) = Some r ->
        add_product_to_collection server base product_id collection_id log
        = (Raise (HTTPError r), log ++ [collect_request base product_id collection_id]))
  /\ (forall product_id,
        server log (collects_query base product_id) = Some r ->
        list_product_collections server base product_id log
        = (Raise (HTTPError r), log ++ [collects_query base product_id]))
  /\ (forall pid,
        server log (product_by_id_request base pid) = Some r ->
        status_code r <> 404 ->
        get_product_by_id server base pid log
        = (Raise (HTTPError r), log ++ [product_by_id_request base pid]))
  /\ (forall handle,
        server log (product_by_handle_request base handle) = Some r ->
        get_product_by_handle server base handle log
        = (Raise (HTTPError r), log ++ [product_by_handle_request base handle]))
  /\ (forall product_body,
        server log (product_request base product_body) = Some r ->
        post_product server base product_body log
        = (Raise (HTTPError r), log ++ [product_request base product_body]))
  /\ (forall title,
        is_alias title = false ->
        server log (smart_request base title) = Some r ->
        ensure_collection server base title log
        = (Raise (HTTPError r), log ++ [smart_request base title]))
  /\ (forall title,
        is_alias title = true ->
        server log (front_request base) = Some r ->
        ensure_collection server base title log
        = (Raise (HTTPError r), log ++ [front_request base])).
Proof.
  assert (Hst : raise_for_status r = Raise (HTTPError r)).
  { unfold raise_for_status.
    assert (((400 <=? status_code r) && (status_code r <? 600))%bool = true) as ->
      by (apply andb_true_iff; split; lia).
    reflexivity. }
  assert (Hsmart : forall title,
             server log (smart_request base title) = Some r ->
             _find_smart_collection server base title log
             = (Raise (HTTPError r), log ++ [smart_request base title])).
  { intros title H. unfold smart_request in H.
    unfold _find_smart_collection, smart_request, mbind, session_get, send.
    now rewrite H, Hst. }
  repeat split; try assumption.
  - intros title H. unfold custom_request in H.
    unfold _find_custom_collection, custom_request, mbind, session_get, send.
    now rewrite H, Hst.
  - intros product_id collection_id H. unfold collect_request in H.
    unfold add_product_to_collection, collect_request, mbind, session_post, send.
    now rewrite H, Hst.
  - intros product_id H. unfold collects_query in H.
    unfold list_product_collections, collects_query, mbind, session_get, send.
    now rewrite H, Hst.
  - intros pid H Hne. unfold product_by_id_request in H.
    unfold get_product_by_id, product_by_id_request, mbind, session_get, send.
    rewrite H. assert ((status_code r =? 404) = false) as -> by lia.
    now rewrite Hst.
  - intros handle H. unfold product_by_handle_request in H.
    unfold get_product_by_handle, product_by_handle_request, mbind, session_get, send.
    now rewrite H, Hst.
  - intros product_body H. unfold product_request in H.
    unfold post_product, product_request, mbind, session_post, send.
    now rewrite H, Hst.
  - intros title Ha H. unfold ensure_collection, frontpage_probe.
    unfold is_alias in Ha. rewrite Ha. unfold mbind at 1. cbn [ret].
    unfold mbind at 1. now rewrite (Hsmart _ H).
  - intros title Ha H. unfold ensure_collection, frontpage_probe.
    unfold is_alias in Ha. rewrite Ha. unfold front_request in H.
    unfold front_request, mbind, session_get, send. now rewrite H, Hst.
Qed.

(** X11.  A missing thing is an absent result, not an error: a 404 for a
    product id, an empty product listing for a handle and an empty
    collection listing for a title give [None]; a product without
    collects gives the empty list. *)
Theorem absent_is_not_an_error (log : list Request) :
  (forall pid r,
      server log (product_by_id_request base pid) = Some r ->
      status_code r = 404 ->
      get_product_by_id server base pid log
      = (Ok VNone, log ++ [product_by_id_request base pid]))
  /\ (forall handle r,
        server log (product_by_handle_request base handle) = Some r ->
        lists "products" r [] ->
        get_product_by_handle server base handle log
        = (Ok VNone, log ++ [product_by_handle_request base handle]))
  /\ (forall title r,
        server log (custom_request base title) = Some r ->
        lists "custom_collections" r [] ->
        _find_custom_collection server base title log
        = (Ok VNone, log ++ [custom_request base title]))
  /\ (forall title r,
        server log (smart_request base title) = Some r ->
        lists "smart_collections" r [] ->
        _find_smart_collection server base title log
        = (Ok VNone, log ++ [smart_request base title]))
  /\ (forall product_id r,
        server log (collects_query base product_id) = Some r ->
        lists "collects" r [] ->
        list_product_collections server base product_id log
        = (Ok [], log ++ [collects_query base product_id])).
Proof.
  repeat split.
  - intros pid r H H404. unfold product_by_id_request in H.
    unfold get_product_by_id, product_by_id_request, mbind, session_get, send.
    rewrite H, H404. reflexivity.
  - intros handle r H (Hst & j & Hb & Hg). unfold product_by_handle_request in H.
    unfold get_product_by_handle, product_by_handle_request, mbind, session_get, send, json.
    rewrite H, Hst, Hb. cbn [lift ret raise]. now rewrite Hg.
  - intros title r H Hl. now rewrite (ClientSpec.find_custom_eval _ _ _ _ _ _ H Hl).
  - intros title r H Hl. now rewrite (ClientSpec.find_smart_eval _ _ _ _ _ _ H Hl).
  - intros product_id r H (Hst & j & Hb & Hg). unfold collects_query in H.
    unfold list_product_collections, collects_query, mbind, session_get, send, json.
    rewrite H, Hst, Hb. cbn [lift ret raise]. now rewrite Hg.
Qed.

Lemma frontpage_probe_cases title log :
  (is_alias title = false /\ frontpage_probe server base title log = (Ok None, log))
  \/ (is_alias title = true
      /\ exists x, frontpage_probe server base title log
                   = (x, log ++ [front_request base])).
Proof.
  unfold frontpage_probe, is_alias.
  destruct (mem _ FRONTPAGE_ALIASES); [right | left; auto].
  split; [reflexivity|].
  unfold front_request, mbind, session_get, send.
  destruct (server log _) as [r|]; [|eexists; reflexivity].
  destruct (raise_for_status r); cbn [lift ret raise]; [|eexists; reflexivity].
  destruct (json r) as [j|]; cbn [lift ret raise]; [|eexists; reflexivity].
  destruct (get_default j "custom_collections" (VList [])) as [data|];
    cbn [lift ret raise]; [|eexists; reflexivity].
  destruct (truthy data); [|eexists; reflexivity].
  destruct (getitem_0 data) as [x|]; cbn [lift ret raise]; [|eexists; reflexivity].
  destruct (getitem_str x "id"); cbn [lift ret raise]; eexists; reflexivity.
Qed.

Lemma create_after_probes_log title log :
  snd (mbind (session_post server base "/custom_collections.json"
                (VDict [("custom_collection", VDict [("title", VStr title)])]))
         (fun r => mbind (lift (raise_for_status r))
            (fun _ => mbind (lift (json r))
               (fun j => mbind (lift (getitem_str j "custom_collection"))
                  (fun c => lift (getitem_str c "id"))))) log)
  = log ++ [create_request base title].
Proof.
  unfold create_request, mbind, session_post, send.
  destruct (server log _) as [r|]; [|reflexivity]. crunch.
Qed.

Lemma ensure_after_probe title log l1 :
  frontpage_probe server base title log = (Ok None, l1) ->
  exists n,
    (1 <= n)%nat
    /\ snd (ensure_collection server base title log)
       = l1 ++ firstn n [smart_request base title; custom_request base title;
                         create_request base title].
Proof.
  intros Hp. unfold ensure_collection. unfold mbind at 1. rewrite Hp.
  unfold mbind at 1.
  pose proof (find_smart_log title l1) as Hs.
  destruct (_find_smart_collection server base title l1) as [[cid|e] l2];
    cbn [snd] in Hs; subst l2.
  2:{ exists 1%nat. split; [lia | reflexivity]. }
  destruct (truthy cid).
  { exists 1%nat. split; [lia | reflexivity]. }
  unfold mbind at 1.
  pose proof (find_custom_log title (l1 ++ [smart_request base title])) as Hc.
  destruct (_find_custom_collection server base title (l1 ++ [smart_request base title]))
    as [[cid'|e] l3]; cbn [snd] in Hc; subst l3.
  2:{ exists 2%nat. split; [lia|]. cbn [snd firstn]. now rewrite <- app_assoc. }
  destruct (truthy cid').
  { exists 2%nat. split; [lia|]. cbn [snd ret firstn]. now rewrite <- app_assoc. }
  exists 3%nat. split; [lia|]. rewrite create_after_probes_log.
  cbn [firstn]. now rewrite <- !app_assoc.
Qed.

(** X12.  Whatever the store answers, [ensure_collection] sends a
    non-empty initial part of one fixed sequence of requests: for an alias
    of the storefront default the query by handle, then in every case the
    smart probe, the custom probe and the creation.  So it sends at most
    four requests, creates at most one collection, and creates it last. *)
Theorem ensure_collection_requests (title : string) (log : list Request) :
  exists n,
    (1 <= n)%nat
    /\ snd (ensure_collection server base title log)
       = log ++ firstn n ((if is_alias title then [front_request base] else [])
                          ++ [smart_request base title; custom_request base title;
                              create_request base title]).
Proof.
  destruct (frontpage_probe_cases title log) as [[Ha Hp]|(Ha & x & Hp)]; rewrite Ha.
  - destruct (ensure_after_probe _ _ _ Hp) as (n & Hn & H).
    exists n. split; [exact Hn | exact H].
  - destruct x as [[i|]|e].
    + exists 1%nat. split; [lia|].
      unfold ensure_collection. unfold mbind at 1. rewrite Hp. reflexivity.
    + destruct (ensure_after_probe _ _ _ Hp) as (n & Hn & H).
      exists (S n). split; [lia|]. rewrite H. cbn [app firstn].
      now rewrite <- app_assoc.
    + exists 1%nat. split; [lia|].
      unfold ensure_collection. unfold mbind at 1. rewrite Hp. reflexivity.
Qed.

End Methods.

(** The lookup of a template: a number between blanks goes by id, a
    handle by handle, the Arabic-Indic three by id 3, and the superscript
    two raises before anything is sent. *)
Lemma client_methods_send_one_request_witness :
  let server := Fixtures.serve Fixtures.store_dup in
  let lookup_of := get_product_by_id_or_handle server Fixtures.shop
                     Fixtures.interpreter_unicode in
  snd (lookup_of " 42 " []) = [product_by_id_request Fixtures.shop 42]
  /\ snd (lookup_of " aurora-01 " []) = [product_by_handle_request Fixtures.shop "aurora-01"]
  /\ snd (lookup_of "٣" []) = [product_by_id_request Fixtures.shop 3]
  /\ lookup_of "²" [] = (Raise ValueError, []).
Proof.
  intros server lookup_of.
  pose proof (client_methods_send_one_request server Fixtures.shop
                Fixtures.interpreter_unicode []) as (_ & _ & _ & _ & _ & _ & H & _).
  split; [|split; [|split]].
  - exact (proj2 (proj1 (proj2 (H " 42 ")) 42 eq_refl eq_refl)).
  - exact (proj2 (proj1 (H " aurora-01 ") eq_refl)).
  - exact (proj2 (proj1 (proj2 (H "٣")) 3 eq_refl eq_refl)).
  - exact (proj2 (proj2 (H "²")) ValueError eq_refl eq_refl).
Defined.

(** *** Scrubbing, again *)

Lemma mapM_raises {X Y} (f : X -> res Y) (l : list X) (x : X) e0 :
  In x l -> f x = Raise e0 -> exists e, mapM f l = Raise e.
Proof.
  induction l as [|y r IH]; simpl; [tauto|].
  intros [->|Hin] Hx.
  - rewrite Hx. simpl. eauto.
  - destruct (f y); simpl; [|eauto].
    destruct (IH Hin Hx) as [e ->]. simpl. eauto.
Qed.

Lemma scrub_one_not_dict drop (x : value) :
  is_dict x = false -> scrub_one drop x = Raise AttributeError.
Proof. destruct x; simpl; intros H; try discriminate H; reflexivity. Qed.

(** X13.  A template without variants or options (the key missing, null,
    or an empty list) scrubs to the empty list; a list with a member that
    is no dictionary makes the scrubbing raise, so nothing is sent. *)
Theorem scrub_edge_cases :
  (forall v, truthy v = false ->
             _scrub_variants v = Ok [] /\ _scrub_options v = Ok [])
  /\ (forall l x, In x l -> is_dict x = false ->
                  (exists e, _scrub_variants (VList l) = Raise e)
                  /\ (exists e, _scrub_options (VList l) = Raise e)).
Proof.
  split.
  - intros v Hv. unfold _scrub_variants, _scrub_options, por. rewrite Hv. auto.
  - intros l x Hin Hx. unfold _scrub_variants, _scrub_options.
    rewrite ClientSpec.iterate_or_empty. cbn [bind].
    split; eapply mapM_raises; eauto using scrub_one_not_dict.
Qed.

Lemma scrub_edge_cases_witness :
  (_scrub_variants VNone = Ok [] /\ _scrub_options VNone = Ok [])
  /\ (exists e, _scrub_variants (VList [VDict [("title", VStr "S")]; VInt 3]) = Raise e).
Proof.
  split.
  - apply (proj1 scrub_edge_cases VNone). reflexivity.
  - apply (proj2 scrub_edge_cases [VDict [("title", VStr "S")]; VInt 3] (VInt 3)).
    + right. now left.
    + reflexivity.
Defined.

Lemma NoDup_keys_without drop (d : dict) : NoDup (keys d) -> NoDup (keys (without drop d)).
Proof.
  unfold keys, without. induction d as [|[k v] r IH]; simpl; intros H; [constructor|].
  inversion H as [|? ? Hk Hr]; subst.
  destruct (mem k drop); simpl; [auto|].
  constructor; [|auto].
  intros C. apply Hk. apply in_map_iff in C as (kv & <- & C).
  apply filter_In in C as [C _]. now apply in_map.
Qed.

Lemma filter_filter_weaker {X} (p q : X -> bool) (l : list X) :
  (forall x, p x = true -> q x = true) -> filter q (filter p l) = filter p l.
Proof.
  intros H. induction l as [|x r IH]; simpl; [reflexivity|].
  destruct (p x) eqn:E; simpl; [|exact IH].
  now rewrite (H x E), IH.
Qed.

Lemma option_keys_among_variant_keys k :
  mem k OPTION_DROP_KEYS = true -> mem k VARIANT_DROP_KEYS = true.
Proof.
  unfold mem, OPTION_DROP_KEYS, VARIANT_DROP_KEYS. cbn [existsb].
  destruct (String.eqb k "id"), (String.eqb k "product_id"),
    (String.eqb k "admin_graphql_api_id"), (String.eqb k "position");
    cbn; intros H; try discriminate H; reflexivity.
Qed.

(** X14.  Scrubbed variants are stable: scrubbing them again, as variants
    or as options, changes nothing, and none of the seven identity keys
    can be read from them. *)
Theorem scrubbing_is_idempotent (variants : list dict)
    (Hv : Forall (fun d => NoDup (keys d)) variants) :
  exists clean,
    _scrub_variants (VList (map VDict variants)) = Ok clean
    /\ _scrub_variants (VList clean) = Ok clean
    /\ _scrub_options (VList clean) = Ok clean
    /\ Forall (fun c =>
         Forall (fun k => getitem_str c k = Raise KeyError)
                ["id"; "product_id"; "admin_graphql_api_id"; "position";
                 "created_at"; "updated_at"; "image_id"]) clean.
Proof.
  exists (map VDict (map (without VARIANT_DROP_KEYS) variants)).
  assert (Hc : Forall (fun d => NoDup (keys d)) (map (without VARIANT_DROP_KEYS) variants)).
  { apply Forall_forall. intros d Hd. apply in_map_iff in Hd as (d0 & <- & Hd0).
    apply NoDup_keys_without. rewrite Forall_forall in Hv. auto. }
  unfold _scrub_variants, _scrub_options. rewrite !ClientSpec.iterate_or_empty.
  cbn [bind]. rewrite !ClientSpec.scrub_all_without by assumption.
  rewrite !map_map. split; [reflexivity|]. split; [|split].
  - f_equal. apply map_ext. intros d. f_equal. unfold without.
    apply filter_filter_weaker. auto.
  - f_equal. apply map_ext. intros d. f_equal. unfold without.
    apply filter_filter_weaker. intros [k v] H. cbn [fst] in *.
    destruct (mem k OPTION_DROP_KEYS) eqn:E; [|reflexivity].
    now rewrite (option_keys_among_variant_keys _ E) in H.
  - apply Forall_forall. intros c Hc'. apply in_map_iff in Hc' as (d & <- & _).
    apply Forall_forall. intros k Hk. cbn [getitem_str].
    rewrite ClientSpec.lookup_without.
    assert (mem k VARIANT_DROP_KEYS = true) as ->; [|reflexivity].
    apply existsb_exists. exists k. split; [exact Hk | apply String.eqb_refl].
Qed.

Lemma scrubbing_is_idempotent_witness :
  exists clean,
    _scrub_variants
      (VList [VDict [("id", VInt 8); ("title", VStr "S"); ("image_id", VNone);
                     ("sku", VStr "AU-S")]]) = Ok clean
    /\ _scrub_variants (VList clean) = Ok clean
    /\ _scrub_options (VList clean) = Ok clean.
Proof.
  assert (Hv : Forall (fun d => NoDup (keys d))
                 [[("id", VInt 8); ("title", VStr "S"); ("image_id", VNone);
                   ("sku", VStr "AU-S")]]).
  { repeat constructor; simpl; intuition discriminate. }
  destruct (scrubbing_is_idempotent _ Hv) as (clean & H1 & H2 & H3 & _).
  exists clean. auto.
Defined.

Lemma http_errors_propagate_witness :
  400 <= 503 < 600
  /\ add_product_to_collection Fixtures.serve_down Fixtures.shop (VInt 1) (VInt 2) []
     = (Raise (HTTPError (mkResponse 503 "Service Unavailable"
                            (Fixtures.shop ++ "/collects.json")%string None)),
        [collect_request Fixtures.shop (VInt 1) (VInt 2)])
  /\ ensure_collection Fixtures.serve_down Fixtures.shop "Homepage" []
     = (Raise (HTTPError (mkResponse 503 "Service Unavailable"
                            (Fixtures.shop ++ "/custom_collections.json")%string None)),
        [front_request Fixtures.shop]).
Proof.
  assert (H : 400 <= 503 < 600) by lia.
  split; [exact H|].
  split.
  - apply (proj1 (proj2 (proj2
             (http_errors_propagate Fixtures.serve_down Fixtures.shop []
                (mkResponse 503 "Service Unavailable"
                   (Fixtures.shop ++ "/collects.json")%string None) H)))).
    reflexivity.
  - apply (proj2 (proj2 (proj2 (proj2 (proj2 (proj2 (proj2 (proj2
             (http_errors_propagate Fixtures.serve_down Fixtures.shop []
                (mkResponse 503 "Service Unavailable"
                   (Fixtures.shop ++ "/custom_collections.json")%string None) H)))))))));
      reflexivity.
Defined.

End ClientMore.

(* ------------------------------------------------------------------ *)
(** ** More on the batch loop *)

Module BatchMore.
Import Py Client Extractor Batch Notions BatchSpec.
Local Open Scope py_scope.
Local Open Scope list_scope.

Lemma loop_isolates_failures_witness :
  let server := Fixtures.serve Fixtures.store_plain in
  let f := create_product_1 server Fixtures.shop in
  let st := mkSetup VNone [] [("Homepage", VInt 11)] in
  Forall returned_or_http
    (attempts server Fixtures.inputs_plain f st Fixtures.three_models [])
  /\ exists results log',
       process_models server Fixtures.inputs_plain f st Fixtures.three_models [] []
       = (Ok tt, results, log')
       /\ List.length results = 3%nat
       /\ map is_error_record results = [false; true; false].
Proof.
  intros server f st.
  assert (H : Forall returned_or_http
                (attempts server Fixtures.inputs_plain f st Fixtures.three_models []))
    by (vm_compute; repeat constructor).
  split; [exact H|].
  destruct (loop_isolates_failures server Fixtures.inputs_plain f st
              Fixtures.three_models [] H) as (results & log' & H1 & H2 & H3).
  exists results, log'. split; [exact H1|]. split; [exact H2|].
  rewrite H3. vm_compute. reflexivity.
Defined.

Section Run.
Variable server : Server.
Variable inp : Inputs.
Variable py : Interpreter.
Variable f : PyFunction.

Lemma process_models_not_http st models results log r :
  outcome_of (process_models server inp f st models results log) <> Raise (HTTPError r).
Proof.
  revert results log. induction models as [|m rest IH]; intros results log; simpl.
  - discriminate.
  - destruct (try_model server inp f st m log) as [[record|e] log1]; [apply IH|].
    destruct e; try (cbn; discriminate). apply IH.
Qed.

Lemma ensure_or_stop_not_http title log r :
  fst (ensure_or_stop server inp title log) <> Raise (HTTPError r).
Proof.
  unfold ensure_or_stop.
  destruct (ensure_collection server (base_url inp) title log) as [[v|e] l];
    [discriminate|].
  destruct e; discriminate.
Qed.

Lemma resolve_collections_not_http titles acc log r :
  fst (resolve_collections server inp titles acc log) <> Raise (HTTPError r).
Proof.
  revert acc log. induction titles as [|t ts IH]; intros acc log; simpl.
  - discriminate.
  - unfold mbind. pose proof (ensure_or_stop_not_http t log r) as H.
    destruct (ensure_or_stop server inp t log) as [[v|e] l]; [apply IH|].
    cbn [fst] in *. intros [= ->]. now apply H.
Qed.

(** X16.  An HTTP error never ends the loop over the models, and in plain
    mode it never ends the run: whatever goes wrong with a status code is
    either recorded for its model or, during collection setup, turned
    into a stop of the script. *)
Theorem http_errors_never_escape (models : list ModelGroup) (r : Response) :
  (forall st results log,
      outcome_of (process_models server inp f st models results log)
      = Raise (HTTPError r) -> False)
  /\ (duplication_enabled inp = false ->
      outcome_of (run server inp py f models) = Raise (HTTPError r) -> False).
Proof.
  split; [intros st results log; apply process_models_not_http|].
  intros Hdup. unfold run.
  destruct (setup server inp py []) as [[st|e] log] eqn:E;
    [apply process_models_not_http|].
  cbn [outcome_of fst]. intros [= ->].
  unfold setup, resolve_template in E. rewrite Hdup in E. cbn [andb negb] in E.
  unfold mbind at 1 in E.
  destruct (nonempty (shop_domain inp) && nonempty (access_token inp))%bool;
    [|discriminate E].
  cbn [ret] in E. unfold mbind at 1 in E. cbn [ret] in E. unfold mbind at 1 in E.
  pose proof (resolve_collections_not_http DEFAULT_COLLECTIONS [] [] r) as H.
  destruct (resolve_collections server inp DEFAULT_COLLECTIONS [] []) as [[c|e] l];
    [discriminate E|].
  cbn [fst] in H. congruence.
Qed.

Lemma try_model_modello st m log record log' :
  try_model server inp f st m log = (Ok record, log') ->
  lookup "Modello" record = Some (VStr (model m)).
Proof.
  unfold try_model. intros H.
  apply mbind_Ok in H as (body & l1 & _ & H).
  apply mbind_Ok in H as (product & l2 & _ & H).
  apply mbind_Ok in H as (pid & l3 & _ & H).
  apply mbind_Ok in H as (u & l4 & _ & H).
  apply lift_Ok in H as [H _]. revert H. unfold success_record, bind.
  destruct (get product "title"); [|discriminate].
  destruct (get product "handle"); [|discriminate].
  destruct (get product "status"); [|discriminate].
  intros [= <-]. reflexivity.
Qed.

Lemma process_models_names st models results log :
  exists k,
    (k <= List.length models)%nat
    /\ map (lookup "Modello")
           (results_of (process_models server inp f st models results log))
       = map (lookup "Modello") results
         ++ map (fun m => Some (VStr (model m))) (firstn k models)
    /\ (outcome_of (process_models server inp f st models results log) = Ok tt ->
        k = List.length models).
Proof.
  revert results log. induction models as [|m rest IH]; intros results log; simpl.
  - exists 0%nat. split; [lia|]. split; [now rewrite app_nil_r | reflexivity].
  - destruct (try_model server inp f st m log) as [[record|e] log1] eqn:E.
    + destruct (IH (results ++ [record]) log1) as (k & Hk & Hn & Ho).
      exists (S k). split; [lia|]. split; [|intros H; now rewrite (Ho H)].
      rewrite Hn, map_app, <- app_assoc. cbn [map firstn app].
      now rewrite (try_model_modello _ _ _ _ _ E).
    + destruct e;
        try (exists 0%nat; split; [lia|]; split;
             [cbn; now rewrite app_nil_r | cbn; discriminate]).
      destruct (IH (results ++ [error_record (model m) r]) log1) as (k & Hk & Hn & Ho).
      exists (S k). split; [lia|]. split; [|intros H; now rewrite (Ho H)].
      rewrite Hn, map_app, <- app_assoc. reflexivity.
Qed.

(** X17.  The records of a run name the models in the order given, one
    record per model, without gap or repetition: they cover an initial
    part of the models, and all of them when the run completes. *)
Theorem records_follow_the_models (models : list ModelGroup) :
  exists k,
    (k <= List.length models)%nat
    /\ map (lookup "Modello") (results_of (run server inp py f models))
       = map (fun m => Some (VStr (model m))) (firstn k models)
    /\ (outcome_of (run server inp py f models) = Ok tt -> k = List.length models).
Proof.
  unfold run. destruct (setup server inp py []) as [[st|e] log].
  - destruct (process_models_names st models [] log) as (k & Hk & Hn & Ho).
    exists k. auto.
  - exists 0%nat. split; [lia|]. split; [reflexivity | cbn; discriminate].
Qed.

(** X18.  Configuration errors stop the script before any product is
    created and leave no record: without domain or token nothing is sent
    at all; in duplication mode an empty source identifier sends nothing,
    and a source product that cannot be found stops the run right after
    its lookup. *)
Theorem configuration_errors_stop_the_run (models : list ModelGroup) :
  (shop_domain inp = "" \/ access_token inp = "" ->
   run server inp py f models
   = (Raise (StopException "Inserisci dominio e token nelle impostazioni a sinistra."),
      [], []))
  /\ (shop_domain inp <> "" -> access_token inp <> "" ->
      duplication_enabled inp = true -> source_identifier inp = "" ->
      run server inp py f models
      = (Raise (StopException
                  "Modalità duplicazione: specifica un ID o handle del prodotto sorgente."),
         [], []))
  /\ (shop_domain inp <> "" -> access_token inp <> "" ->
      duplication_enabled inp = true -> source_identifier inp <> "" ->
      forall v log1,
        get_product_by_id_or_handle server (base_url inp) py (source_identifier inp) []
        = (Ok v, log1) ->
        truthy v = false ->
        run server inp py f models
        = (Raise (StopException "Prodotto sorgente non trovato."), [], log1)).
Proof.
  assert (Hne : forall s : string, s <> ""%string -> nonempty s = true).
  { intros s H. unfold nonempty. destruct (String.eqb_spec s ""); [contradiction|reflexivity]. }
  split; [|split].
  - intros H. unfold run, setup. unfold mbind at 1.
    assert ((nonempty (shop_domain inp) && nonempty (access_token inp))%bool = false) as ->.
    { destruct H as [-> | ->]; [reflexivity | apply andb_false_r]. }
    reflexivity.
  - intros H1 H2 Hdup Hsrc. unfold run, setup. unfold mbind at 1.
    rewrite (Hne _ H1), (Hne _ H2). cbn [andb ret]. unfold mbind at 1.
    unfold resolve_template. rewrite Hdup, Hsrc. reflexivity.
  - intros H1 H2 Hdup Hsrc v log1 Hget Hv. unfold run, setup. unfold mbind at 1.
    rewrite (Hne _ H1), (Hne _ H2). cbn [andb ret]. unfold mbind at 1.
    unfold resolve_template. rewrite Hdup, (Hne _ Hsrc). cbn [negb].
    unfold mbind at 1. rewrite Hget, Hv. reflexivity.
Qed.

Lemma ensure_or_stop_Ok title log v log' :
  ensure_or_stop server inp title log = (Ok v, log') ->
  ensure_collection server (base_url inp) title log = (Ok v, log').
Proof.
  unfold ensure_or_stop.
  destruct (ensure_collection server (base_url inp) title log) as [[w|e] l];
    [auto|].
  destruct e; discriminate.
Qed.

(** X19.  Unless the source's collections are copied, a setup that
    succeeds has called [ensure_collection] on the three default titles,
    once each and in their order, right after the template was resolved,
    and has sent nothing else; [collection_ids] maps each title to the id
    its call returned. *)
Theorem setup_resolves_default_titles (st : Setup) (log : list Request)
    (Hmode : (duplication_enabled inp && copy_source_collections inp)%bool = false)
    (Hsetup : setup server inp py [] = (Ok st, log)) :
  exists ts log0 c1 log1 c2 log2 c3,
    resolve_template server inp py [] = (Ok ts, log0)
    /\ ensure_collection server (base_url inp) "Homepage" log0 = (Ok c1, log1)
    /\ ensure_collection server (base_url inp) "Pellicole per Vetri" log1 = (Ok c2, log2)
    /\ ensure_collection server (base_url inp) "Decorative" log2 = (Ok c3, log)
    /\ collection_ids st
       = [("Homepage", c1); ("Pellicole per Vetri", c2); ("Decorative", c3)]
    /\ template_product st = fst ts
    /\ source_collection_ids st = snd ts.
Proof.
  unfold setup in Hsetup. rewrite Hmode in Hsetup. cbn [negb] in Hsetup.
  apply mbind_Ok in Hsetup as (u & l0 & Hcheck & H).
  assert (l0 = []) as ->.
  { destruct (nonempty (shop_domain inp) && nonempty (access_token inp))%bool;
      [now injection Hcheck as _ <- | discriminate Hcheck]. }
  apply mbind_Ok in H as (ts & log0 & Hts & H).
  apply mbind_Ok in H as (cids & l3 & Hres & H).
  injection H as <- <-.
  unfold DEFAULT_COLLECTIONS in Hres. cbn [resolve_collections] in Hres.
  apply mbind_Ok in Hres as (c1 & log1 & H1 & Hres).
  apply mbind_Ok in Hres as (c2 & log2 & H2 & Hres).
  apply mbind_Ok in Hres as (c3 & log3 & H3 & Hres).
  injection Hres as <- <-.
  apply ensure_or_stop_Ok in H1, H2, H3.
  exists ts, log0, c1, log1, c2, log2, c3. repeat split; assumption.
Qed.

End Run.

(** At a store that has the storefront default (11) and the smart
    collection "Decorative" (21): the second title is created, fourth
    request of the run. *)
Lemma setup_resolves_default_titles_witness :
  exists st log,
    setup (Fixtures.serve Fixtures.store_plain) Fixtures.inputs_plain
          Fixtures.interpreter [] = (Ok st, log)
    /\ collection_ids st
       = [("Homepage", VInt 11); ("Pellicole per Vetri", VInt 903);
          ("Decorative", VInt 21)]
    /\ List.length log = 5%nat.
Proof.
  destruct (setup (Fixtures.serve Fixtures.store_plain) Fixtures.inputs_plain
                  Fixtures.interpreter [])
    as [[st|e] log] eqn:Hsetup; [|vm_compute in Hsetup; discriminate Hsetup].
  exists st, log. split; [reflexivity|].
  destruct (setup_resolves_default_titles (Fixtures.serve Fixtures.store_plain)
              Fixtures.inputs_plain Fixtures.interpreter st log eq_refl Hsetup)
    as (ts & log0 & c1 & log1 & c2 & log2 & c3 & H0 & H1 & H2 & H3 & Hc & _).
  vm_compute in H0. injection H0 as <- <-.
  vm_compute in H1. injection H1 as <- <-.
  vm_compute in H2. injection H2 as <- <-.
  vm_compute in H3. injection H3 as <- <-.
  split; [exact Hc | reflexivity].
Defined.

Section Creations.
Variable server : Server.
Variable inp : Inputs.
Variable py : Interpreter.

Lemma try_model_creations fn st m :
  In ("create_product", fn) (class_body server (base_url inp)) ->
  emits (is_creation (base_url inp)) (try_model server inp fn st m).
Proof.
  intros Hf. unfold try_model, add_product_to_collection.
  destruct Hf as [[= <-]|[[= <-]|[]]];
    repeat first [ emits_step
                 | progress cbn [code create_product_1 create_product_2]
                 | progress unfold post_product, session_post ];
    (split; [reflexivity | first [left; reflexivity | right; reflexivity]]).
Qed.

(** X20.  The loop over the models only creates: whichever definition of
    [create_product] is bound, every request it sends is a POST to the
    products or to the collects endpoint; it never reads, and never
    touches a collection. *)
Theorem loop_requests_are_creations (st : Setup) (models : list ModelGroup)
    (results : list dict) (log : list Request) :
  (exists extra,
      log_of (process_models server inp (create_product_1 server (base_url inp))
                st models results log) = log ++ extra
      /\ Forall (is_creation (base_url inp)) extra)
  /\ (exists extra,
        log_of (process_models server inp (create_product server (base_url inp))
                  st models results log) = log ++ extra
        /\ Forall (is_creation (base_url inp)) extra).
Proof.
  split; apply process_models_log; intros m; apply try_model_creations.
  - left. reflexivity.
  - right. left. reflexivity.
Qed.

End Creations.

End BatchMore.
